(** * ImageEditor: the filter contract and the convolution engine

    A shallow embedding of [filters/base]: [BaseFilter.apply_filter]
    (shape handling, clipping, type restoration), [ConvFilter] (geometry,
    validation, lazy padding), [StaticFilter] (fixed kernels through
    sliding windows and einsum) and [DynamicFilter] (a region function
    called per output position), with the elementwise [Brightness] of the
    catalog as a client.  Further on: the geometry of [Box] and [Retro]
    (their kernels' shapes, not their fractional weights), the stage loop
    of [run_from_config] and [resolve_output_path] of
    [edit_image/pipeline.py].

    Numbers.  A NumPy array is its dtype, its shape and its row-major
    buffer.  Samples are integers: conversions between integer dtypes wrap
    around as NumPy does, and float64 is a dtype tag whose samples are
    integral and whose arithmetic is taken exact (true of doubles below
    2^53).  Kernels hold Python integers, so they are int64 arrays, and
    a Python scalar combines with an array as in NumPy 2: an [int] keeps
    the array's dtype, a [float] makes the result float64.  Kernels of
    fractions and fractional offsets are outside this development: their
    sums round.  What [apply_filter] does with fractions, infinities and
    NaN in the result of [apply] is treated apart, over arrays of float64
    values, with the fixed-kernel step under a NaN bias as a client. *)

From Stdlib Require Import String ZArith List Lia Bool PeanoNat
  DecimalString.

Import ListNotations.

Set Implicit Arguments.

(** ** Exceptions and fallible computations *)

Inductive exn : Type :=
| ValueError (msg : string)
| TypeError (msg : string)
| IndexError (msg : string)
| OverflowError (msg : string)
| ZeroDivisionError (msg : string).

Inductive result (A : Type) : Type :=
| Ok (a : A)
| Raise (e : exn).

Arguments Ok {A} a.

Arguments Raise {A} e.

Definition bind {A B : Type} (m : result A) (k : A -> result B) : result B :=
  match m with
  | Ok a => k a
  | Raise e => Raise e
  end.

Notation "x <- m ;; k" := (bind m (fun x => k))
  (at level 61, m at next level, right associativity).

Definition is_ok {A : Type} (m : result A) : bool :=
  match m with Ok _ => true | Raise _ => false end.

(** ** Sample types *)

Inductive np_dtype : Type := UInt8 | Int32 | Int64 | Float64.

Definition wrap_unsigned (bits z : Z) : Z := (z mod 2 ^ bits)%Z.

Definition wrap_signed (bits z : Z) : Z :=
  ((z + 2 ^ (bits - 1)) mod 2 ^ bits - 2 ^ (bits - 1))%Z.

(** The C conversion NumPy applies when a value is stored in a dtype. *)
Definition cast (d : np_dtype) (z : Z) : Z :=
  match d with
  | UInt8 => wrap_unsigned 8 z
  | Int32 => wrap_signed 32 z
  | Int64 => wrap_signed 64 z
  | Float64 => z
  end.

Definition in_range (d : np_dtype) (z : Z) : bool :=
  match d with
  | UInt8 => ((0 <=? z) && (z <=? 255))%Z
  | Int32 => ((- 2 ^ 31 <=? z) && (z <? 2 ^ 31))%Z
  | Int64 => ((- 2 ^ 63 <=? z) && (z <? 2 ^ 63))%Z
  | Float64 => true
  end.

(** [np.result_type] on these four dtypes: they form a chain. *)
Definition result_type (a b : np_dtype) : np_dtype :=
  match a, b with
  | Float64, _ | _, Float64 => Float64
  | Int64, _ | _, Int64 => Int64
  | Int32, _ | _, Int32 => Int32
  | UInt8, UInt8 => UInt8
  end.

(** A Python number: an [int], or a [float] holding an integral value.
    A fractional float, an infinity and NaN are not written here: what
    is stated of a [pynum] is stated of integer-valued numbers. *)
Inductive pynum : Type :=
| PyInt (z : Z)
| PyFloat (z : Z).

Definition pynum_val (n : pynum) : Z :=
  match n with PyInt z | PyFloat z => z end.

(** ** Arrays *)

Record ndarray : Type := mk_ndarray {
  dtype : np_dtype;
  shape : list nat;
  data : list Z
}.

Definition ndim (a : ndarray) : nat := length (shape a).

Definition size_of (s : list nat) : nat := fold_right Nat.mul 1 s.

(** Every array NumPy builds has a buffer of the size of its shape. *)
Definition well_formed (a : ndarray) : Prop :=
  length (data a) = size_of (shape a).

(** [a.astype(d)].  A sample that [d] does not hold wraps around, as
    NumPy does between integer dtypes.  From float64 to an integer dtype
    C defines the conversion for samples in the range of [d] only, and
    the statements use it for those only. *)
Definition astype (d : np_dtype) (a : ndarray) : ndarray :=
  {| dtype := d; shape := shape a; data := map (cast d) (data a) |}.

Definition clip_val (lo hi v : Z) : Z := Z.min hi (Z.max lo v).

(** [np.clip(a, lo, hi)]: the dtype is kept.  The samples are integers
    here; NaN, which [np.clip] leaves in place, is the matter of
    [clip_float]. *)
Definition np_clip (a : ndarray) (lo hi : Z) : ndarray :=
  {| dtype := dtype a; shape := shape a;
     data := map (clip_val lo hi) (data a) |}.

(** [a[:, :, np.newaxis]] on a 2-D array: a view with one more axis. *)
Definition newaxis (a : ndarray) : ndarray :=
  {| dtype := dtype a; shape := shape a ++ [1]; data := data a |}.

(** [a.squeeze(-1)], called where the last axis is known to be 1. *)
Definition squeeze_last (a : ndarray) : ndarray :=
  {| dtype := dtype a; shape := removelast (shape a); data := data a |}.

(** [a + n] for a Python scalar [n].  An [int] keeps the array's dtype
    and must fit it (NumPy raises [OverflowError] otherwise); a [float]
    makes the result float64. *)
Definition add_scalar (a : ndarray) (n : pynum) : result ndarray :=
  match n with
  | PyInt z =>
      if in_range (dtype a) z
      then Ok {| dtype := dtype a; shape := shape a;
                 data := map (fun v => cast (dtype a) (v + z)%Z) (data a) |}
      else Raise (OverflowError "Python integer out of bounds for the dtype")
  | PyFloat z =>
      Ok {| dtype := Float64; shape := shape a;
            data := map (fun v => (v + z)%Z) (data a) |}
  end.

(** Row-major buffer of an (H, W, C) array given sample by sample. *)
Definition tabulate3 (H W C : nat) (f : nat -> nat -> nat -> Z) : list Z :=
  flat_map (fun y => flat_map (fun x => map (f y x) (seq 0 C)) (seq 0 W))
           (seq 0 H).

(** [a[y, x, c]] of a 3-D array; only read inside the bounds. *)
Definition get3 (a : ndarray) (y x c : nat) : Z :=
  match shape a with
  | [_; W; C] => nth ((y * W + x) * C + c) (data a) 0%Z
  | _ => 0%Z
  end.

Definition array3 (d : np_dtype) (H W C : nat)
  (f : nat -> nat -> nat -> Z) : ndarray :=
  {| dtype := d; shape := [H; W; C]; data := tabulate3 H W C f |}.

(** Equality of shape tuples. *)
Fixpoint shape_eqb (s1 s2 : list nat) : bool :=
  match s1, s2 with
  | [], [] => true
  | n :: r1, m :: r2 => (n =? m)%nat && shape_eqb r1 r2
  | _, _ => false
  end.

Definition last_dim (s : list nat) : option nat :=
  match rev s with
  | [] => None
  | n :: _ => Some n
  end.

(** ** base_filter.py *)

Module BaseFilter.

(** The abstract method.  [apply] returns the instance too, since a
    subclass may assign to [self] (ConvFilter caches its pad). *)
Class t (F : Type) : Type := {
  apply : F -> ndarray -> F * result ndarray
}.

Definition apply_filter {F : Type} `{t F} (self : F) (image : ndarray)
  : F * result ndarray :=
  let promoted :=
    if (ndim image =? 2)%nat then Ok (newaxis image)
    else if negb (ndim image =? 3)%nat
         then Raise (ValueError "Expected 2D or 3D image")
         else Ok image in
  match promoted with
  | Raise e => (self, Raise e)
  | Ok image =>
      let (self', r) := apply self (astype Int32 image) in
      (self',
       result <- r ;;
       let result := np_clip result 0 255 in
       match last_dim (shape result) with
       | None => Raise (IndexError "tuple index out of range")
       | Some n =>
           if (n =? 1)%nat then Ok (squeeze_last result)
           else Ok (astype (dtype image) result)
       end)
  end.

End BaseFilter.

(** ** catalog/brightness.py: an elementwise client *)

Module Brightness.

Record t : Type := { alpha : pynum }.

Definition __init__ (alpha : pynum) : result t :=
  if negb ((-100 <=? pynum_val alpha) && (pynum_val alpha <=? 100))%Z
  then Raise (ValueError "Alpha must be in [-100, 100]")
  else Ok {| alpha := alpha |}.

Definition apply (self : t) (image : ndarray) : t * result ndarray :=
  (self, add_scalar image (alpha self)).

#[global] Instance filter : BaseFilter.t t := {| BaseFilter.apply := apply |}.

End Brightness.

(** ** conv_filter.py *)

Module ConvFilter.

Record t : Type := {
  radius_y : Z;
  radius_x : Z;
  kernel_height : Z;
  kernel_width : Z;
  stride_y : Z;
  stride_x : Z;
  pad_val : pynum;
  bias : pynum;
  keep_dims_with_pad : bool;
  pad_y : option Z;
  pad_x : option Z
}.

Definition with_pad (self : t) (py px : option Z) : t :=
  {| radius_y := radius_y self; radius_x := radius_x self;
     kernel_height := kernel_height self;
     kernel_width := kernel_width self;
     stride_y := stride_y self; stride_x := stride_x self;
     pad_val := pad_val self; bias := bias self;
     keep_dims_with_pad := keep_dims_with_pad self;
     pad_y := py; pad_x := px |}.

(** The arguments are typed, so the [isinstance] tests hold; the value
    tests remain. *)
Definition _validate_params (kernel_radius stride : Z * Z)
  (pad : option (Z * Z)) (pad_val bias : pynum) : result unit :=
  if negb ((0 <? fst kernel_radius) && (0 <? snd kernel_radius))%Z
  then Raise (ValueError "kernel_radius must be a tuple of two positive ints")
  else if negb ((0 <? fst stride) && (0 <? snd stride))%Z
  then Raise (ValueError "stride must be a tuple of two positive ints")
  else match pad with
       | Some p =>
           if negb ((0 <=? fst p) && (0 <=? snd p))%Z
           then Raise (ValueError "pad must be a tuple of two non-negative ints")
           else Ok tt
       | None => Ok tt
       end.

(** The constructor, with the warnings it emits. *)
Definition __init__ (kernel_radius stride : Z * Z) (pad : option (Z * Z))
  (pad_val bias : pynum) (keep_dims : bool) : list string * result t :=
  match _validate_params kernel_radius stride pad pad_val bias with
  | Raise e => ([], Raise e)
  | Ok _ =>
      let self :=
        {| radius_y := fst kernel_radius; radius_x := snd kernel_radius;
           kernel_height := 2 * fst kernel_radius + 1;
           kernel_width := 2 * snd kernel_radius + 1;
           stride_y := fst stride; stride_x := snd stride;
           pad_val := pad_val; bias := bias;
           keep_dims_with_pad := keep_dims;
           pad_y := None; pad_x := None |}%Z in
      match pad with
      | Some p =>
          (if keep_dims
           then ["'pad' was provided explicitly; 'keep_dims_with_pad' will be ignored."%string]
           else [],
           Ok (with_pad self (Some (fst p)) (Some (snd p))))
      | None => ([], Ok self)
      end
  end.

(** [np.pad(image, ((py, py), (px, px), (0, 0)), mode='constant')].
    The border is [value] stored in the image's dtype.  For a value that
    the dtype does not hold this is the wrapped sample, where NumPy may
    refuse the value with [OverflowError] instead: what is stated of the
    border, or of a call that returns, is stated for values that fit. *)
Definition np_pad (image : ndarray) (py px : Z) (value : Z)
  : result ndarray :=
  match shape image with
  | [H; W; C] =>
      if ((py <? 0) || (px <? 0))%Z
      then Raise (ValueError "index can't contain negative values")
      else
        let py := Z.to_nat py in
        let px := Z.to_nat px in
        Ok (array3 (dtype image) (py + H + py) (px + W + px) C
              (fun y x c =>
                 if ((py <=? y) && (y <? py + H) &&
                     (px <=? x) && (x <? px + W))%nat
                 then get3 image (y - py) (x - px) c
                 else cast (dtype image) value))
  | _ => Raise (ValueError "Unable to create correctly shaped tuple")
  end.

Definition pad_image (self : t) (image : ndarray) : result ndarray :=
  match pad_y self, pad_x self with
  | Some py, Some px => np_pad image py px (pynum_val (pad_val self))
  | _, _ => Raise (TypeError "`pad_width` must be of integral type.")
  end.

(** [apply], over the [convolve] of the subclass.  The pad is assigned
    to [self] before padding and convolution can fail. *)
Definition apply (convolve : t -> ndarray -> result ndarray)
  (self : t) (image : ndarray) : t * result ndarray :=
  let computed :=
    match pad_y self, pad_x self with
    | None, None =>
        if keep_dims_with_pad self then
          match shape image with
          | H :: W :: _ =>
              Ok (with_pad self
                    (Some (((stride_y self - 1) * Z.of_nat H
                            + kernel_height self - stride_y self) / 2))
                    (Some (((stride_x self - 1) * Z.of_nat W
                            + kernel_width self - stride_x self) / 2)))%Z
          | _ => Raise (ValueError "not enough values to unpack")
          end
        else Ok (with_pad self (Some 0%Z) (Some 0%Z))
    | _, _ => Ok self
    end in
  match computed with
  | Raise e => (self, Raise e)
  | Ok self' =>
      (self',
       padded_image <- pad_image self' image ;;
       convolve self' padded_image)
  end.

(** One instance applied to a sequence of images, call after call. *)
Fixpoint run (convolve : t -> ndarray -> result ndarray)
  (self : t) (images : list ndarray) : t * list (result ndarray) :=
  match images with
  | [] => (self, [])
  | image :: rest =>
      let (self', r) := apply convolve self image in
      let (self'', rs) := run convolve self' rest in
      (self'', r :: rs)
  end.

End ConvFilter.

(** ** Kernels, views and the NumPy primitives of the two engines *)

(** A kernel: an array of Python integers, hence of dtype int64.  A
    kernel of fractions (a float array) is not written here: its sums
    round, and einsum and np.sum round them in different orders. *)
Record kernel : Type := { kshape : list nat; kdata : list Z }.

Definition kernel_array (k : kernel) : ndarray :=
  {| dtype := Int64; shape := kshape k; data := kdata k |}.

(** A 3-D view: extents and an index function, no buffer of its own. *)
Record view3 : Type := {
  v_rows : nat; v_cols : nat; v_chans : nat;
  v_at : nat -> nat -> nat -> Z
}.

(** The 5-D view [sliding_window_view] returns, indexed (h, w, c, k, l). *)
Record windows : Type := {
  w_dtype : np_dtype;
  w_rows : nat; w_cols : nat; w_chans : nat; w_kh : nat; w_kw : nat;
  w_at : nat -> nat -> nat -> nat -> nat -> Z
}.

(** [sliding_window_view(image, window_shape=(kh, kw), axis=(0, 1))].
    The einsum that follows accepts its result for 3-D images only. *)
Definition sliding_window_view (image : ndarray) (kh kw : Z)
  : result windows :=
  match shape image with
  | [H; W; C] =>
      if ((kh <? 0) || (kw <? 0))%Z
      then Raise (ValueError "`window_shape` cannot contain negative values")
      else if ((Z.of_nat H <? kh) || (Z.of_nat W <? kw))%Z
      then Raise (ValueError "window shape cannot be larger than input array shape")
      else
        let kh := Z.to_nat kh in
        let kw := Z.to_nat kw in
        Ok {| w_dtype := dtype image;
              w_rows := H - kh + 1; w_cols := W - kw + 1; w_chans := C;
              w_kh := kh; w_kw := kw;
              w_at := fun h w c k l => get3 image (h + k) (w + l) c |}
  | _ => Raise (ValueError "einstein sum subscripts do not match the operand")
  end.

(** Extent and source index of [a[::step]] on an axis of extent [n]. *)
Definition slice_len (n : nat) (step : Z) : nat :=
  if (n =? 0)%nat then 0 else (n - 1) / Z.to_nat (Z.abs step) + 1.

Definition slice_idx (n : nat) (step : Z) (i : nat) : nat :=
  if (0 <? step)%Z then i * Z.to_nat step
  else n - 1 - i * Z.to_nat (Z.abs step).

(** [windows[::sy, ::sx]]. *)
Definition strided (w : windows) (sy sx : Z) : result windows :=
  if ((sy =? 0) || (sx =? 0))%Z
  then Raise (ValueError "slice step cannot be zero")
  else Ok {| w_dtype := w_dtype w;
             w_rows := slice_len (w_rows w) sy;
             w_cols := slice_len (w_cols w) sx;
             w_chans := w_chans w; w_kh := w_kh w; w_kw := w_kw w;
             w_at := fun h x c k l =>
               w_at w (slice_idx (w_rows w) sy h)
                      (slice_idx (w_cols w) sx x) c k l |}.

(** Broadcasting of one axis: equal extents, or one of them 1. *)
Definition bdim (n m : nat) : option nat :=
  if (n =? m)%nat then Some n
  else if (n =? 1)%nat then Some m
  else if (m =? 1)%nat then Some n
  else None.

(** Index into an axis of extent [n] that may have been stretched. *)
Definition bidx (n i : nat) : nat := if (n =? 1)%nat then 0 else i.

(** A 3-D kernel as a view; the constructor admits no other rank. *)
Definition kernel_view (k : kernel) : result view3 :=
  match kshape k with
  | [kh; kw; kc] =>
      Ok {| v_rows := kh; v_cols := kw; v_chans := kc;
            v_at := get3 (kernel_array k) |}
  | _ => Raise (ValueError "einstein sum subscripts do not match the operand")
  end.

(** [np.broadcast_to(kernel, (rows, cols, chans))]: only an axis of
    extent 1 can be stretched. *)
Definition broadcast_to (v : view3) (rows cols chans : nat) : result view3 :=
  let fits (have want : nat) := ((have =? want) || (have =? 1))%nat in
  if fits (v_rows v) rows && fits (v_cols v) cols && fits (v_chans v) chans
  then Ok {| v_rows := rows; v_cols := cols; v_chans := chans;
             v_at := fun k l c =>
               v_at v (bidx (v_rows v) k) (bidx (v_cols v) l)
                      (bidx (v_chans v) c) |}
  else Raise (ValueError "operands could not be broadcast together").

(** Accumulation in dtype [d], wrapping at every step. *)
Definition sum_in (d : np_dtype) (terms : list Z) : Z :=
  fold_left (fun acc v => cast d (acc + v)%Z) terms 0%Z.

(** The pairs (k, l) of a kernel-sized window, k outermost. *)
Definition window_positions (K L : nat) : list (nat * nat) :=
  list_prod (seq 0 K) (seq 0 L).

(** [np.einsum('hwckl,klc->hwc', windows, kernel)] against an int64
    kernel.  An axis of extent 1 under a shared label is stretched. *)
Definition einsum (w : windows) (v : view3) : result ndarray :=
  match bdim (w_kh w) (v_rows v), bdim (w_kw w) (v_cols v),
        bdim (w_chans w) (v_chans v) with
  | Some K, Some L, Some C =>
      let d := result_type (w_dtype w) Int64 in
      Ok (array3 d (w_rows w) (w_cols w) C
            (fun h x c =>
               sum_in d
                 (map (fun kl =>
                         cast d
                           (w_at w h x (bidx (w_chans w) c)
                                 (bidx (w_kh w) (fst kl))
                                 (bidx (w_kw w) (snd kl))
                            * v_at v (bidx (v_rows v) (fst kl))
                                     (bidx (v_cols v) (snd kl))
                                     (bidx (v_chans v) c))%Z)
                      (window_positions K L))))
  | _, _, _ => Raise (ValueError "operands could not be broadcast together")
  end.

(** ** static_filter.py *)

Module StaticFilter.

(** The keyword arguments handed on to [ConvFilter.__init__]; only the
    presence of [kernel_radius] is tested by the constructor. *)
Record kwargs : Type := {
  kernel_radius : option (Z * Z);
  stride : Z * Z;
  pad : option (Z * Z);
  pad_val : pynum;
  bias : pynum;
  keep_dims : bool
}.

Definition default_kwargs : kwargs :=
  {| kernel_radius := None; stride := (1, 1)%Z; pad := None;
     pad_val := PyFloat 0; bias := PyFloat 0; keep_dims := false |}.

(** [kernels]: one array, or a list of arrays. *)
Inductive kernels_arg : Type :=
| One (k : kernel)
| Many (ks : list kernel).

Record t : Type := { conv : ConvFilter.t; kernels : list kernel }.

(** The loop of [_validate_kernels] over all kernels. *)
Fixpoint validate_each (expected_shape : list nat) (ks : list kernel)
  : result unit :=
  match ks with
  | [] => Ok tt
  | k :: rest =>
      if negb (length (kshape k) =? 3)%nat
      then Raise (ValueError "Unsupported kernel shape, expected (H, W, C)")
      else if negb (shape_eqb (firstn 2 (kshape k)) expected_shape)
      then Raise (ValueError "Kernel shape does not match expected")
      else if negb ((nth 2 (kshape k) 0 =? 1) || (nth 2 (kshape k) 0 =? 3))%nat
      then Raise (ValueError "Unsupported kernel channel count")
      else validate_each expected_shape rest
  end.

Definition _validate_kernels (ks : list kernel) : result unit :=
  match ks with
  | [] => Raise (ValueError "At least one valid 3D kernel is required")
  | first_kernel :: _ =>
      if negb (length (kshape first_kernel) =? 3)%nat
      then Raise (ValueError "Unsupported kernel shape, expected (H, W, C)")
      else
        let expected_shape := firstn 2 (kshape first_kernel) in
        let kh := nth 0 expected_shape 0 in
        let kw := nth 1 expected_shape 0 in
        if ((kh mod 2 =? 0) || (kw mod 2 =? 0))%nat
        then Raise (ValueError "Kernel shape must have odd height and width")
        else validate_each expected_shape ks
  end.

Definition radius_eqb (a b : Z * Z) : bool :=
  ((fst a =? fst b) && (snd a =? snd b))%Z.

(** [if isinstance(kernels, np.ndarray): kernels = [kernels]]. *)
Definition kernel_list (kernels : kernels_arg) : list kernel :=
  match kernels with One k => [k] | Many ks => ks end.

Definition __init__ (kernels : kernels_arg) (kw : kwargs)
  : list string * result t :=
  let kernels := kernel_list kernels in
  match _validate_kernels kernels with
  | Raise e => ([], Raise e)
  | Ok _ =>
      match kernels with
      | [] => ([], Raise (IndexError "list index out of range"))
      | k0 :: _ =>
          let kh := Z.of_nat (nth 0 (kshape k0) 0) in
          let kw' := Z.of_nat (nth 1 (kshape k0) 0) in
          let expected_radius := (kh / 2, kw' / 2)%Z in
          let kernel_radius :=
            match kernel_radius kw with
            | None => expected_radius
            | Some r => r
            end in
          if negb (radius_eqb kernel_radius expected_radius)
          then ([], Raise (ValueError
                  "Provided kernel_radius does not match expected radius"))
          else
            let (warnings, r) :=
              ConvFilter.__init__ kernel_radius (stride kw) (pad kw)
                (pad_val kw) (bias kw) (keep_dims kw) in
            (warnings,
             conv <- r ;; Ok {| conv := conv; kernels := kernels |})
      end
  end.

Definition _apply_single_filter (self : ConvFilter.t) (image : ndarray)
  (kernel : kernel) : result ndarray :=
  windows <- sliding_window_view image (ConvFilter.kernel_height self)
               (ConvFilter.kernel_width self) ;;
  windows <- strided windows (ConvFilter.stride_y self)
               (ConvFilter.stride_x self) ;;
  view <- kernel_view kernel ;;
  view <- (if (v_chans view =? 1)%nat
           then broadcast_to view
                  (Z.to_nat (ConvFilter.kernel_height self))
                  (Z.to_nat (ConvFilter.kernel_width self))
                  (w_chans windows)
           else Ok view) ;;
  out <- einsum windows view ;;
  out <- add_scalar out (ConvFilter.bias self) ;;
  Ok (np_clip out 0 255).

(** [for kernel in self.kernels: image = ...]. *)
Fixpoint apply_kernels (self : ConvFilter.t) (image : ndarray)
  (ks : list kernel) : result ndarray :=
  match ks with
  | [] => Ok image
  | kernel :: rest =>
      image <- _apply_single_filter self image kernel ;;
      apply_kernels self image rest
  end.

Definition convolve (kernels : list kernel) (self : ConvFilter.t)
  (image : ndarray) : result ndarray :=
  apply_kernels self image kernels.

Definition apply (self : t) (image : ndarray) : t * result ndarray :=
  let (conv', r) := ConvFilter.apply (convolve (kernels self))
                      (conv self) image in
  ({| conv := conv'; kernels := kernels self |}, r).

#[global] Instance filter : BaseFilter.t t := {| BaseFilter.apply := apply |}.

End StaticFilter.

(** ** dynamic_filter.py *)

(** Python's [for i in range(n)] over a state, stopping at the first
    exception. *)
Fixpoint for_each {S : Type} (l : list nat) (body : nat -> S -> result S)
  (s : S) : result S :=
  match l with
  | [] => Ok s
  | i :: rest => s' <- body i s ;; for_each rest body s'
  end.

Definition for_range {S : Type} (n : nat) (body : nat -> S -> result S)
  (s : S) : result S :=
  for_each (seq 0 n) body s.

(** [np.zeros(shape)]: float64. *)
Definition np_zeros (dims : list Z) : result ndarray :=
  if existsb (fun d => (d <? 0)%Z) dims
  then Raise (ValueError "negative dimensions are not allowed")
  else Ok {| dtype := Float64; shape := map Z.to_nat dims;
             data := repeat 0%Z (size_of (map Z.to_nat dims)) |}.

(** A bound of the slice [a[start:stop]] on an axis of extent [n]. *)
Definition slice_bound (n : nat) (i : Z) : nat :=
  if (i <? 0)%Z then Z.to_nat (Z.max (i + Z.of_nat n) 0)
  else Nat.min (Z.to_nat i) n.

(** [image[y0:y1, x0:x1, :]] of a 3-D image, the only rank it is taken
    of. *)
Definition slice_region (image : ndarray) (y0 y1 x0 x1 : Z) : ndarray :=
  match shape image with
  | [H; W; C] =>
      let ys := slice_bound H y0 in
      let xs := slice_bound W x0 in
      array3 (dtype image) (slice_bound H y1 - ys) (slice_bound W x1 - xs) C
        (fun k l c => get3 image (ys + k) (xs + l) c)
  | _ => image
  end.

(** [region * kernel] for a 3-D region and a 3-D int64 kernel, with
    NumPy's broadcasting; operands of another rank are not modelled. *)
Definition np_mul (region : ndarray) (k : kernel) : result ndarray :=
  match shape region, kshape k with
  | [a; b; c], [a'; b'; c'] =>
      match bdim a a', bdim b b', bdim c c' with
      | Some A, Some B, Some C =>
          let d := result_type (dtype region) Int64 in
          Ok (array3 d A B C
                (fun i j l =>
                   cast d (get3 region (bidx a i) (bidx b j) (bidx c l)
                           * get3 (kernel_array k)
                               (bidx a' i) (bidx b' j) (bidx c' l))%Z))
      | _, _, _ =>
          Raise (ValueError "operands could not be broadcast together")
      end
  | _, _ => Raise (ValueError "operands could not be broadcast together")
  end.

(** [np.sum(a, axis=(0, 1))] of a 3-D array.  The products summed here
    are int64 or float64 already, so the accumulator has their dtype. *)
Definition np_sum01 (a : ndarray) : result ndarray :=
  match shape a with
  | [A; B; C] =>
      Ok {| dtype := dtype a; shape := [C];
            data := map (fun c =>
                           sum_in (dtype a)
                             (map (fun kl => get3 a (fst kl) (snd kl) c)
                                  (window_positions A B)))
                        (seq 0 C) |}
  | _ => Raise (ValueError "axis 1 is out of bounds for array")
  end.

(** The samples that [out[y, x, :] = value] stores in a pixel of [C]
    channels: [value] is broadcast to shape (C,). *)
Definition pixel_values (C : nat) (value : ndarray) : result (list Z) :=
  match rev (shape value) with
  | [] => Ok (repeat (hd 0%Z (data value)) C)
  | n :: leading =>
      if forallb (fun m => (m =? 1)%nat) leading then
        if (n =? C)%nat then Ok (data value)
        else if (n =? 1)%nat then Ok (repeat (hd 0%Z (data value)) C)
        else Raise (ValueError "could not broadcast input array")
      else Raise (ValueError "could not broadcast input array")
  end.

Definition write_at (offset : nat) (values buffer : list Z) : list Z :=
  firstn offset buffer ++ values ++ skipn (offset + length values) buffer.

(** [out[y, x, :] = value] on a 3-D array. *)
Definition setitem (out : ndarray) (y x : nat) (value : ndarray)
  : result ndarray :=
  match shape out with
  | [H; W; C] =>
      if negb ((y <? H) && (x <? W))%nat
      then Raise (IndexError "index is out of bounds")
      else
        values <- pixel_values C value ;;
        Ok {| dtype := dtype out; shape := shape out;
              data := write_at ((y * W + x) * C)
                        (map (cast (dtype out)) values) (data out) |}
  | _ => Raise (IndexError "too many indices for array")
  end.

Module DynamicFilter.

(** The abstract method [apply_region(region, y, x)] reads [self]. *)
Definition region_fn : Type :=
  ConvFilter.t -> ndarray -> Z -> Z -> result ndarray.

Record t : Type := { conv : ConvFilter.t; apply_region : region_fn }.

Definition compute_convolution (self : ConvFilter.t) (region : ndarray)
  (kernel : kernel) : result ndarray :=
  product <- np_mul region kernel ;;
  total <- np_sum01 product ;;
  add_scalar total (ConvFilter.bias self).

(** [convolve] is handed the padded (H, W, C) image by [apply]. *)
Definition convolve (apply_region : region_fn) (self : ConvFilter.t)
  (image : ndarray) : result ndarray :=
  match shape image with
  | [H; W; n_channels] =>
      if ((ConvFilter.stride_y self =? 0)
          || (ConvFilter.stride_x self =? 0))%Z
      then Raise (ZeroDivisionError "integer division or modulo by zero")
      else
        let out_height :=
          ((Z.of_nat H - ConvFilter.kernel_height self)
           / ConvFilter.stride_y self + 1)%Z in
        let out_width :=
          ((Z.of_nat W - ConvFilter.kernel_width self)
           / ConvFilter.stride_x self + 1)%Z in
        out <- np_zeros [out_height; out_width; Z.of_nat n_channels] ;;
        for_range (Z.to_nat out_height) (fun y out =>
          for_range (Z.to_nat out_width) (fun x out =>
            let center_y :=
              (Z.of_nat y * ConvFilter.stride_y self
               + ConvFilter.radius_y self)%Z in
            let center_x :=
              (Z.of_nat x * ConvFilter.stride_x self
               + ConvFilter.radius_x self)%Z in
            let region :=
              slice_region image
                (center_y - ConvFilter.radius_y self)
                (center_y + ConvFilter.radius_y self + 1)
                (center_x - ConvFilter.radius_x self)
                (center_x + ConvFilter.radius_x self + 1) in
            value <- apply_region self region (Z.of_nat y) (Z.of_nat x) ;;
            setitem out y x (np_clip value 0 255)) out) out
  | _ => Raise (IndexError "too many indices for array")
  end.

Definition apply (self : t) (image : ndarray) : t * result ndarray :=
  let (conv', r) := ConvFilter.apply (convolve (apply_region self))
                      (conv self) image in
  ({| conv := conv'; apply_region := apply_region self |}, r).

#[global] Instance filter : BaseFilter.t t := {| BaseFilter.apply := apply |}.

(** The region function that recomputes window * kernel + bias. *)
Definition convolution_region (kernel : kernel) : region_fn :=
  fun self region _ _ => compute_convolution self region kernel.

End DynamicFilter.

(** * The notions the statements use *)

Local Open Scope Z_scope.

(** A sample a viewer can display. *)
Definition displayable (v : Z) : Prop := 0 <= v <= 255.

(** What [apply_filter] hands to [apply]: a 2-D input with its new axis. *)
Definition promoted (image : ndarray) : ndarray :=
  if (ndim image =? 2)%nat then newaxis image else image.

(** The script of [edit_image/pipeline.py] for one stage: construct the
    filter from its arguments, then call [apply_filter]. *)
Definition run_static (kernels : StaticFilter.kernels_arg)
  (kw : StaticFilter.kwargs) (image : ndarray) : result ndarray :=
  match StaticFilter.__init__ kernels kw with
  | (_, Ok filt) => snd (BaseFilter.apply_filter filt image)
  | (_, Raise e) => Raise e
  end.

(** ** The neighborhood processor *)

(** What a call does once the instance holds a pad. *)
Definition padded_call (convolve : ConvFilter.t -> ndarray -> result ndarray)
  (self : ConvFilter.t) (image : ndarray) : result ndarray :=
  padded_image <- ConvFilter.pad_image self image ;;
  convolve self padded_image.

(** ** Kernel validation *)

Definition kernel_rows (k : kernel) : nat := nth 0 (kshape k) 0%nat.

Definition kernel_cols (k : kernel) : nat := nth 1 (kshape k) 0%nat.

Definition kernel_chans (k : kernel) : nat := nth 2 (kshape k) 0%nat.

(** A kernel list the constructor must refuse: an even extent, two
    kernels that disagree on (rows, cols), or a channel count other than
    1 and 3. *)
Definition misshapen (ks : list kernel) : Prop :=
  (exists k, In k ks
     /\ ((kernel_rows k mod 2 = 0)%nat \/ (kernel_cols k mod 2 = 0)%nat))
  \/ (exists k1 k2, In k1 ks /\ In k2 ks
        /\ (kernel_rows k1, kernel_cols k1)
           <> (kernel_rows k2, kernel_cols k2))
  \/ (exists k, In k ks /\ kernel_chans k <> 1%nat /\ kernel_chans k <> 3%nat).

(** ** "Preserve extent" *)

(** The pad [apply] computes on an axis of extent [H], for kernel extent
    [k] and stride [s]. *)
Definition keep_dims_pad (s : Z) (H k : nat) : Z :=
  ((s - 1) * Z.of_nat H + Z.of_nat k - s) / 2.

(** ** The fixed-kernel step *)

(** The samples of one fixed-kernel step before bias and clip. *)
Definition correlate (d : np_dtype) (image : ndarray) (k : kernel)
  (KH KW sy sx : nat) (h x c : nat) : Z :=
  sum_in d
    (map (fun kl =>
            cast d (get3 image (h * sy + fst kl) (x * sx + snd kl) c
                    * get3 (kernel_array k) (fst kl) (snd kl)
                        (bidx (kernel_chans k) c)))
         (window_positions KH KW)).

(** Output extent on an axis of extent [n], for kernel extent [k] and
    stride [s], when the kernel fits. *)
Definition out_extent (n k s : nat) : nat := ((n - k) / s + 1)%nat.

(** ** The 1x1 kernel *)

(** The 1x1 kernel of value 1. *)
Definition unit_kernel : kernel := {| kshape := [1; 1; 1]%nat; kdata := [1] |}.

(** Zero bias and an explicit zero pad, the other arguments default. *)
Definition unit_kwargs : StaticFilter.kwargs :=
  {| StaticFilter.kernel_radius := None; StaticFilter.stride := (1, 1);
     StaticFilter.pad := Some (0, 0); StaticFilter.pad_val := PyFloat 0;
     StaticFilter.bias := PyFloat 0; StaticFilter.keep_dims := false |}.

(** A 1x1 RGB image of 8-bit samples. *)
Definition rgb_pixel : ndarray :=
  {| dtype := UInt8; shape := [1; 1; 3]%nat; data := [10; 20; 30] |}.

(** ** The programmable-region loop *)

(** One iteration of the loops of [convolve]: call the region function,
    clip, store the pixel. *)
Definition store (f : nat -> nat -> result ndarray) (y x : nat)
  (out : ndarray) : result ndarray :=
  value <- f y x ;; setitem out y x (np_clip value 0 255).

(** The float64 output array of [oh] x [ow] pixels of [C] channels. *)
Definition float_out (oh ow C : nat) (buffer : list Z) : ndarray :=
  {| dtype := Float64; shape := [oh; ow; C]; data := buffer |}.


(** ** The two convolvers *)



(** The window the loop of [convolve] hands to [apply_region] at output
    position (y, x), when it fits the image. *)
Definition window_at (self : ConvFilter.t) (image : ndarray)
  (C KH KW y x : nat) : ndarray :=
  array3 (dtype image) KH KW C
    (fun a b c =>
       get3 image (y * Z.to_nat (ConvFilter.stride_y self) + a)
                  (x * Z.to_nat (ConvFilter.stride_x self) + b) c).

(** The call of [apply_region] at (y, x), with the slice as written. *)
Definition region_call (apply_region : DynamicFilter.region_fn)
  (self : ConvFilter.t) (image : ndarray) (y x : nat) : result ndarray :=
  apply_region self
    (slice_region image
       (Z.of_nat y * ConvFilter.stride_y self + ConvFilter.radius_y self
        - ConvFilter.radius_y self)
       (Z.of_nat y * ConvFilter.stride_y self + ConvFilter.radius_y self
        + ConvFilter.radius_y self + 1)
       (Z.of_nat x * ConvFilter.stride_x self + ConvFilter.radius_x self
        - ConvFilter.radius_x self)
       (Z.of_nat x * ConvFilter.stride_x self + ConvFilter.radius_x self
        + ConvFilter.radius_x self + 1))
    (Z.of_nat y) (Z.of_nat x).

(** ** Scenarios *)

(** The 3x3 kernel of ones, shared by all channels. *)
Definition ones_kernel : kernel :=
  {| kshape := [3; 3; 1]%nat; kdata := repeat 1 9 |}.

(** A kernel of shape (2, 3, 1). *)
Definition even_kernel : kernel :=
  {| kshape := [2; 3; 1]%nat; kdata := repeat 1 6 |}.

(** An image whose samples all equal [v]. *)
Definition flat_image (d : np_dtype) (H W C : nat) (v : Z) : ndarray :=
  array3 d H W C (fun _ _ _ => v).

(** What [ConvFilter.__init__] builds for radius (1, 1) and the given
    stride and flag, the other arguments default. *)
Definition geometry3 (stride : Z) (keep_dims : bool) : ConvFilter.t :=
  {| ConvFilter.radius_y := 1; ConvFilter.radius_x := 1;
     ConvFilter.kernel_height := 3; ConvFilter.kernel_width := 3;
     ConvFilter.stride_y := stride; ConvFilter.stride_x := stride;
     ConvFilter.pad_val := PyFloat 0; ConvFilter.bias := PyFloat 0;
     ConvFilter.keep_dims_with_pad := keep_dims;
     ConvFilter.pad_y := None; ConvFilter.pad_x := None |}.

(** The geometry of a 1x1 kernel, which no constructor call yields. *)
Definition geometry1 : ConvFilter.t :=
  {| ConvFilter.radius_y := 0; ConvFilter.radius_x := 0;
     ConvFilter.kernel_height := 1; ConvFilter.kernel_width := 1;
     ConvFilter.stride_y := 1; ConvFilter.stride_x := 1;
     ConvFilter.pad_val := PyFloat 0; ConvFilter.bias := PyFloat 0;
     ConvFilter.keep_dims_with_pad := false;
     ConvFilter.pad_y := Some 0; ConvFilter.pad_x := Some 0 |}.

(** "Preserve extent" with stride 2 and no explicit pad. *)
Definition preserve_stride2 : StaticFilter.kwargs :=
  {| StaticFilter.kernel_radius := None; StaticFilter.stride := (2, 2);
     StaticFilter.pad := None; StaticFilter.pad_val := PyFloat 0;
     StaticFilter.bias := PyFloat 0; StaticFilter.keep_dims := true |}.

(** A 1x1 grayscale image of 8-bit samples, rank 2, and the same pixel
    with an explicit channel axis. *)
Definition gray_pixel : ndarray :=
  {| dtype := UInt8; shape := [1; 1]%nat; data := [10] |}.

Definition gray_pixel3 : ndarray :=
  {| dtype := UInt8; shape := [1; 1; 1]%nat; data := [10] |}.

(** * Further code: two clients of the catalog and the pipeline *)

(** ** catalog/box.py and catalog/retro.py: the geometry of two clients *)

Module Box.

(** The keyword arguments handed on to [StaticFilter]; [keep_dims] is a
    parameter of [Box] itself. *)
Record kwargs : Type := {
  kernel_radius : option (Z * Z);
  stride : Z * Z;
  pad : option (Z * Z);
  pad_val : pynum;
  bias : pynum
}.

Definition static_kwargs (kw : kwargs) (keep_dims : bool)
  : StaticFilter.kwargs :=
  {| StaticFilter.kernel_radius := kernel_radius kw;
     StaticFilter.stride := stride kw;
     StaticFilter.pad := pad kw;
     StaticFilter.pad_val := pad_val kw;
     StaticFilter.bias := bias kw;
     StaticFilter.keep_dims := keep_dims |}.

(** [Box(width=..., height=..., keep_dims=..., ...)], called without
    [alpha].  The samples of the kernel, 1 / (kernel_width *
    kernel_height) as float32, are fractional: [weights] stands for
    them, and the constructors read the kernel's shape only. *)
Definition __init__ (weights : list Z) (width height : Z) (keep_dims : bool)
  (kw : kwargs) : list string * result StaticFilter.t :=
  if negb ((1 <=? height) && (height <=? 2 * 10 + 1)
           && ((1 <=? width) && (width <=? 2 * 10 + 1)))
  then ([], Raise (ValueError "Width, height must be odd and in range"))
  else if (height mod 2 =? 0) || (width mod 2 =? 0)
  then ([], Raise (ValueError "Kernel size must be odd"))
  else
    let radius_y := width / 2 in
    let radius_x := height / 2 in
    let kernel_height := 2 * radius_y + 1 in
    let kernel_width := 2 * radius_x + 1 in
    let kernel :=
      {| kshape := [Z.to_nat kernel_height; Z.to_nat kernel_width; 1%nat];
         kdata := weights |} in
    StaticFilter.__init__ (StaticFilter.One kernel)
      (static_kwargs kw keep_dims).

End Box.

(** [np.kron(out, np.ones((b, b, 1)))] for a 3-D [out], the rank a
    fixed-kernel convolution returns: every pixel becomes a block of
    b x b pixels, in float64. *)
Definition np_kron_ones (out : ndarray) (b : Z) : ndarray :=
  match shape out with
  | [h; w; C] =>
      array3 Float64 (h * Z.to_nat b) (w * Z.to_nat b) C
        (fun y x c => get3 out (y / Z.to_nat b) (x / Z.to_nat b) c)
  | _ => out
  end.

Module Retro.

(** The keyword arguments handed on to [Box], which is given its
    extents, stride and flag by [Retro].  [alpha], which [Box] would take
    from them too and under which it ignores the extents, is not among
    them: [Retro] is called without it. *)
Record kwargs : Type := {
  kernel_radius : option (Z * Z);
  pad : option (Z * Z);
  pad_val : pynum;
  bias : pynum
}.

Record t : Type := { block_size : Z; blur : StaticFilter.t }.

(** [Retro(block_size=..., ...)], called without [alpha]. *)
Definition __init__ (weights : list Z) (block_size : Z) (kw : kwargs)
  : list string * result t :=
  if negb (Z.land block_size (block_size - 1) =? 0) || (block_size <=? 0)
  then ([], Raise (ValueError "block_size must be a power of 2"))
  else
    let kernel_size := block_size * 2 + 1 in
    let (warnings, r) :=
      Box.__init__ weights kernel_size kernel_size false
        {| Box.kernel_radius := kernel_radius kw;
           Box.stride := (block_size, block_size);
           Box.pad := pad kw; Box.pad_val := pad_val kw;
           Box.bias := bias kw |} in
    (warnings,
     blur <- r ;; Ok {| block_size := block_size; blur := blur |}).

Definition apply (self : t) (image : ndarray) : t * result ndarray :=
  let (blur', r) := StaticFilter.apply (blur self) image in
  ({| block_size := block_size self; blur := blur' |},
   out <- r ;; Ok (np_kron_ones out (block_size self))).

#[global] Instance filter : BaseFilter.t t := {| BaseFilter.apply := apply |}.

End Retro.

(** ** edit_image/pipeline.py: [resolve_output_path] *)

Section OutputPath.

(** The file system as [os.path.exists] answers during the call, and
    [os.path.splitext]. *)
Variable path_exists : string -> bool.

Variable splitext : string -> string * string.

(** The candidate of index [i]: base, underscore, [i] in decimal and the
    extension. *)
Definition candidate (path : string) (i : nat) : string :=
  let (base, ext) := splitext path in
  (base ++ "_" ++ NilEmpty.string_of_uint (Nat.to_uint i) ++ ext)%string.

(** The [while True] loop from index [i], cut after [fuel] rounds. *)
Fixpoint first_free (fuel : nat) (path : string) (i : nat) : option string :=
  match fuel with
  | O => None
  | S fuel' =>
      if negb (path_exists (candidate path i)) then Some (candidate path i)
      else first_free fuel' path (S i)
  end.

(** The function, with the line it logs. *)
Definition resolve_output_path (fuel : nat) (path : string)
  : list string * option string :=
  if negb (path_exists path) then ([], Some path)
  else (["File already exists! " ++ path]%string, first_free fuel path 1).

End OutputPath.

(** ** edit_image/pipeline.py: the loop of [run_from_config] *)

(** A filter instance of any class of the catalog. *)
Inductive filter_object : Type :=
| FilterObject (F : Type) (inst : BaseFilter.t F) (self : F).

(** [filt.apply_filter(image_np)]; the instance is not used again. *)
Definition call_apply_filter (filt : filter_object) (image_np : ndarray)
  : result ndarray :=
  match filt with
  | FilterObject inst self => snd (@BaseFilter.apply_filter _ inst self image_np)
  end.

(** [for idx, (cls, params) in enumerate(filters)]: each stage is the
    call of the constructor [cls] on [params], which may raise, followed
    by [apply_filter] on the image so far. *)
Fixpoint run_stages (filters : list (unit -> result filter_object))
  (image_np : ndarray) : result ndarray :=
  match filters with
  | [] => Ok image_np
  | construct :: rest =>
      filt <- construct tt ;;
      image_np <- call_apply_filter filt image_np ;;
      run_stages rest image_np
  end.

(** * Further notions *)

(** What every constructed geometry satisfies, before and after calls:
    positive radii and strides, odd kernel extents around a centre, and a
    pad that is unset on both axes or set and non-negative on both. *)
Definition well_built (self : ConvFilter.t) : Prop :=
  0 < ConvFilter.radius_y self /\ 0 < ConvFilter.radius_x self
  /\ ConvFilter.kernel_height self = 2 * ConvFilter.radius_y self + 1
  /\ ConvFilter.kernel_width self = 2 * ConvFilter.radius_x self + 1
  /\ 0 < ConvFilter.stride_y self /\ 0 < ConvFilter.stride_x self
  /\ match ConvFilter.pad_y self, ConvFilter.pad_x self with
     | None, None => True
     | Some py, Some px => 0 <= py /\ 0 <= px
     | _, _ => False
     end.

(** An image with at least two axes, the first two of positive extent. *)
Definition positive_extents (image : ndarray) : Prop :=
  exists H W rest,
    shape image = H :: W :: rest /\ (0 < H)%nat /\ (0 < W)%nat.

(** Whether (y, x) of a padded image lies on the border added by pads
    [py] and [px] around an image of extents [H] and [W]. *)
Definition on_border (py px H W y x : nat) : Prop :=
  (y < py \/ py + H <= y \/ x < px \/ px + W <= x)%nat.

(** A kernel list the constructor's validation passes: not empty, all
    kernels 3-D with one odd (rows, cols) and 1 or 3 channels. *)
Definition well_shaped (ks : list kernel) : Prop :=
  ks <> []
  /\ exists rows cols,
       (rows mod 2 = 1)%nat /\ (cols mod 2 = 1)%nat
       /\ forall k, In k ks ->
            exists ch, kshape k = [rows; cols; ch]
                       /\ (ch = 1 \/ ch = 3)%nat.

(** The arguments [StaticFilter(kernels, **kwargs)] accepts: a
    well-shaped kernel list of extents at least 3, a [kernel_radius]
    that is absent or equal to (rows // 2, cols // 2), positive strides
    and a pad that is absent or non-negative. *)
Definition acceptable (ks : list kernel) (kw : StaticFilter.kwargs) : Prop :=
  exists rows cols,
    ks <> []
    /\ (rows mod 2 = 1)%nat /\ (cols mod 2 = 1)%nat
    /\ (3 <= rows)%nat /\ (3 <= cols)%nat
    /\ (forall k, In k ks ->
          exists ch, kshape k = [rows; cols; ch] /\ (ch = 1 \/ ch = 3)%nat)
    /\ (StaticFilter.kernel_radius kw = None
        \/ StaticFilter.kernel_radius kw
           = Some (Z.of_nat rows / 2, Z.of_nat cols / 2))
    /\ 0 < fst (StaticFilter.stride kw) /\ 0 < snd (StaticFilter.stride kw)
    /\ match StaticFilter.pad kw with
       | Some p => 0 <= fst p /\ 0 <= snd p
       | None => True
       end.

(** A bias every fixed-kernel step can add: a float, or an integer that
    int64 holds. *)
Definition bias_fits (n : pynum) : Prop :=
  match n with
  | PyInt z => in_range Int64 z = true
  | PyFloat _ => True
  end.

(** The kernel of radius (ry, rx) that is 1 at its centre and 0
    elsewhere, shared by all channels. *)
Definition delta_kernel (ry rx : nat) : kernel :=
  {| kshape := [2 * ry + 1; 2 * rx + 1; 1]%nat;
     kdata := tabulate3 (2 * ry + 1) (2 * rx + 1) 1
                (fun k l _ => if ((k =? ry) && (l =? rx))%nat then 1 else 0) |}.

(** The extents [Box] accepts on one axis. *)
Definition box_extent (n : Z) : Prop := 3 <= n <= 21 /\ n mod 2 = 1.

(** The kernel [Box] builds: [width] rows and [height] columns. *)
Definition box_kernel (weights : list Z) (width height : Z) : kernel :=
  {| kshape := [Z.to_nat width; Z.to_nat height; 1%nat]; kdata := weights |}.

(** The block sizes [Retro] can be built with. *)
Definition retro_block (b : Z) : Prop := b = 1 \/ b = 2 \/ b = 4 \/ b = 8.

(** The extent "preserve extent" yields on an axis of extent [H] for
    stride [s]: one position short when both are even. *)
Definition kept_extent (s : Z) (H : nat) : nat :=
  if (s mod 2 =? 0) && (Z.of_nat H mod 2 =? 0) then (H - 1)%nat else H.

(** ** Further scenarios *)

(** A geometry without pad, with the pad fixed at zero. *)
Definition unpadded3 : ConvFilter.t :=
  ConvFilter.with_pad (geometry3 1 false) (Some 0) (Some 0).

(** What both convolvers return on a 3x3 image of sevens under the 3x3
    kernel of ones: one pixel, 9 * 7. *)
Definition sum63 : ndarray :=
  {| dtype := Float64; shape := [1; 1; 1]%nat; data := [63] |}.

(** A region function that ignores its region. *)
Definition constant_region (value : ndarray) : DynamicFilter.region_fn :=
  fun _ _ _ _ => Ok value.

(** A file system holding out.png and out_1.png, and a [splitext] for
    names with a four-character extension. *)
Definition two_files (p : string) : bool :=
  (String.eqb p "out.png" || String.eqb p "out_1.png")%string.

Definition split_last4 (p : string) : string * string :=
  (substring 0 (String.length p - 4) p, substring (String.length p - 4) 4 p).

(** A 4x5 colour image of 8-bit samples. *)
Definition rgb_4x5 : ndarray := flat_image UInt8 4 5 3 7.

(** A 3x3 kernel of ones with one plane per colour channel. *)
Definition ones_kernel3 : kernel :=
  {| kshape := [3; 3; 3]%nat; kdata := repeat 1 27 |}.

(** * Results that are not integers: fractions, infinities and NaN *)

(** A float64 value: m / 2^k, an infinity, or NaN. *)
Inductive float64 : Type :=
| Dyadic (m : Z) (k : N)
| PosInf
| NegInf
| NaN.

Definition of_int (z : Z) : float64 := Dyadic z 0.

(** An array whose samples may be any float64 value; under an integer
    dtype they are integers. *)
Record farray : Type := {
  fdtype : np_dtype;
  fshape : list nat;
  fdata : list float64
}.

(** An array of the integer model, seen as such an array. *)
Definition of_ndarray (a : ndarray) : farray :=
  {| fdtype := dtype a; fshape := shape a; fdata := map of_int (data a) |}.

(** One sample of [np.clip(a, 0, 255)], which is
    minimum(maximum(a, 0), 255): NaN stays NaN. *)
Definition clip_float (v : float64) : float64 :=
  match v with
  | Dyadic m k =>
      if m <=? 0 then of_int 0
      else if 255 * 2 ^ Z.of_N k <=? m then of_int 255
      else v
  | PosInf => of_int 255
  | NegInf => of_int 0
  | NaN => NaN
  end.

Definition np_clip_float (a : farray) : farray :=
  {| fdtype := fdtype a; fshape := fshape a;
     fdata := map clip_float (fdata a) |}.

Definition squeeze_last_float (a : farray) : farray :=
  {| fdtype := fdtype a; fshape := removelast (fshape a);
     fdata := fdata a |}.

(** A sample a viewer can display: a number between 0 and 255. *)
Definition in_display (v : float64) : Prop :=
  match v with
  | Dyadic m k => 0 <= m <= 255 * 2 ^ Z.of_N k
  | _ => False
  end.

Section Conversion.

(** What the conversion to an integer type leaves where C does not
    define it: for NaN, for an infinity, for a float out of the type's
    range. *)
Variable undefined_as : np_dtype -> float64 -> Z.

(** One sample of [a.astype(d)] for [a] of dtype [from]: an integer
    wraps around, a float is truncated towards zero. *)
Definition convert (from d : np_dtype) (v : float64) : float64 :=
  match d with
  | Float64 => v
  | _ =>
      of_int
        match v with
        | Dyadic m k =>
            let z := Z.quot m (2 ^ Z.of_N k) in
            match from with
            | Float64 => if in_range d z then z else undefined_as d v
            | _ => cast d z
            end
        | _ => undefined_as d v
        end
  end.

Definition astype_float (d : np_dtype) (a : farray) : farray :=
  {| fdtype := d; fshape := fshape a;
     fdata := map (convert (fdtype a) d) (fdata a) |}.

End Conversion.

(** ** base_filter.py, for an [apply] that returns any float64 values *)

Module FloatFilter.

Class t (F : Type) : Type := {
  apply : F -> ndarray -> F * result farray
}.

Definition apply_filter (undefined_as : np_dtype -> float64 -> Z)
  {F : Type} `{t F} (self : F) (image : ndarray) : F * result farray :=
  let promoted :=
    if (ndim image =? 2)%nat then Ok (newaxis image)
    else if negb (ndim image =? 3)%nat
         then Raise (ValueError "Expected 2D or 3D image")
         else Ok image in
  match promoted with
  | Raise e => (self, Raise e)
  | Ok image =>
      let (self', r) := apply self (astype Int32 image) in
      (self',
       result <- r ;;
       let result := np_clip_float result in
       match last_dim (fshape result) with
       | None => Raise (IndexError "tuple index out of range")
       | Some n =>
           if (n =? 1)%nat then Ok (squeeze_last_float result)
           else Ok (astype_float undefined_as (dtype image) result)
       end)
  end.

End FloatFilter.

(** ** static_filter.py, for an instance built with bias = NaN *)

Module NaNBias.

(** A fixed-kernel filter of one kernel built with [bias=float('nan')],
    which [_validate_params] accepts as it does every float.  [conv]
    holds the geometry; its own [bias] is not read. *)
Record t : Type := { conv : ConvFilter.t; kernel_of : kernel }.

(** [out + self.bias] for the bias NaN: float64, every sample NaN. *)
Definition add_nan (out : ndarray) : farray :=
  {| fdtype := Float64; fshape := shape out;
     fdata := map (fun _ => NaN) (data out) |}.

Definition _apply_single_filter (self : ConvFilter.t) (image : ndarray)
  (kernel : kernel) : result farray :=
  windows <- sliding_window_view image (ConvFilter.kernel_height self)
               (ConvFilter.kernel_width self) ;;
  windows <- strided windows (ConvFilter.stride_y self)
               (ConvFilter.stride_x self) ;;
  view <- kernel_view kernel ;;
  view <- (if (v_chans view =? 1)%nat
           then broadcast_to view
                  (Z.to_nat (ConvFilter.kernel_height self))
                  (Z.to_nat (ConvFilter.kernel_width self))
                  (w_chans windows)
           else Ok view) ;;
  out <- einsum windows view ;;
  Ok (np_clip_float (add_nan out)).

(** [ConvFilter.apply]: the pad is fixed and the image padded as for
    every instance, then the one kernel is applied. *)
Definition apply (self : t) (image : ndarray) : t * result farray :=
  let (conv', r) := ConvFilter.apply (fun _ padded_image => Ok padded_image)
                      (conv self) image in
  ({| conv := conv'; kernel_of := kernel_of self |},
   padded_image <- r ;;
   _apply_single_filter conv' padded_image (kernel_of self)).

#[global] Instance filter : FloatFilter.t t := {| FloatFilter.apply := apply |}.

End NaNBias.

(** Every filter of the integer model is one whose results are float64
    values. *)
#[global] Instance lifted (F : Type) `{BaseFilter.t F} : FloatFilter.t F :=
  {| FloatFilter.apply := fun self image =>
       let (self', r) := BaseFilter.apply self image in
       (self', result <- r ;; Ok (of_ndarray result)) |}.

(** A 3x3 grayscale image of 8-bit samples, rank 2. *)
Definition gray_3x3 : ndarray :=
  {| dtype := UInt8; shape := [3; 3]%nat; data := repeat 7 9 |}.

(** A conversion that leaves 0 where C defines nothing. *)
Definition zero_where_undefined : np_dtype -> float64 -> Z := fun _ _ => 0.

(** The filter of one 3x3 kernel of ones, built with bias NaN and the
    other arguments default. *)
Definition nan_biased : NaNBias.t :=
  {| NaNBias.conv := geometry3 1 false; NaNBias.kernel_of := ones_kernel |}.

(** * Lemmas and theorems *)

(** The facts about buffers are stated on natural numbers. *)
Local Close Scope Z_scope.

(** ** Facts about row-major buffers *)

Section Buffers.

Lemma length_flat_map_uniform (A B : Type) (f : A -> list B) (m : nat) :
  forall l, (forall a, In a l -> length (f a) = m) ->
  length (flat_map f l) = length l * m.
Proof.
  induction l as [|a l IH]; intros Hm; simpl; [reflexivity|].
  rewrite length_app, Hm by (left; reflexivity).
  rewrite IH by (intros; apply Hm; right; assumption).
  reflexivity.
Qed.

Lemma flat_map_ext_in (A B : Type) (f g : A -> list B) :
  forall l, (forall a, In a l -> f a = g a) -> flat_map f l = flat_map g l.
Proof.
  induction l as [|a l IH]; intros E; simpl; [reflexivity|].
  rewrite E by (left; reflexivity).
  rewrite IH by (intros; apply E; right; assumption).
  reflexivity.
Qed.

Lemma nth_flat_map_seq (B : Type) (f : nat -> list B) (m : nat) (d : B) :
  forall n i j,
    (forall k, k < n -> length (f k) = m) ->
    i < n -> j < m ->
    nth (i * m + j) (flat_map f (seq 0 n)) d = nth j (f i) d.
Proof.
  induction n as [|n IH]; intros i j Hlen Hi Hj; [lia|].
  rewrite seq_S, flat_map_app; simpl. rewrite app_nil_r.
  assert (Hpre : length (flat_map f (seq 0 n)) = n * m).
  { rewrite length_flat_map_uniform with (m := m).
    - now rewrite length_seq.
    - intros a Ha. apply in_seq in Ha. apply Hlen. lia. }
  destruct (Nat.eq_dec i n) as [->|Hne].
  - rewrite app_nth2 by (rewrite Hpre; lia).
    rewrite Hpre. f_equal. lia.
  - rewrite app_nth1 by (rewrite Hpre; nia).
    apply IH; auto; lia.
Qed.

Lemma length_tabulate3 H W C f : length (tabulate3 H W C f) = H * W * C.
Proof.
  unfold tabulate3.
  rewrite length_flat_map_uniform with (m := W * C).
  - rewrite length_seq. lia.
  - intros y _. rewrite length_flat_map_uniform with (m := C).
    + now rewrite length_seq.
    + intros x _. now rewrite length_map, length_seq.
Qed.

Lemma nth_tabulate3 H W C f y x c :
  y < H -> x < W -> c < C ->
  nth ((y * W + x) * C + c) (tabulate3 H W C f) 0%Z = f y x c.
Proof.
  intros Hy Hx Hc. unfold tabulate3.
  replace ((y * W + x) * C + c) with (y * (W * C) + (x * C + c)) by lia.
  rewrite nth_flat_map_seq with (m := W * C); auto.
  - rewrite nth_flat_map_seq with (m := C); auto.
    + rewrite nth_indep with (d' := f y x 0) by (now rewrite length_map, length_seq).
      now rewrite map_nth, seq_nth.
    + intros. now rewrite length_map, length_seq.
  - intros k _. rewrite length_flat_map_uniform with (m := C).
    + now rewrite length_seq.
    + intros. now rewrite length_map, length_seq.
  - nia.
Qed.

Lemma get3_array3 d H W C f y x c :
  y < H -> x < W -> c < C -> get3 (array3 d H W C f) y x c = f y x c.
Proof. intros. unfold get3, array3; simpl. now apply nth_tabulate3. Qed.

Lemma tabulate3_ext H W C f g :
  (forall y x c, y < H -> x < W -> c < C -> f y x c = g y x c) ->
  tabulate3 H W C f = tabulate3 H W C g.
Proof.
  intros E. unfold tabulate3.
  apply flat_map_ext_in. intros y Hy. apply in_seq in Hy.
  apply flat_map_ext_in. intros x Hx. apply in_seq in Hx.
  apply map_ext_in. intros c Hc. apply in_seq in Hc.
  apply E; lia.
Qed.

(** A buffer of the right size is the tabulation of its own samples. *)
Lemma tabulate3_nth H W C (l : list Z) :
  length l = H * W * C ->
  tabulate3 H W C (fun y x c => nth ((y * W + x) * C + c) l 0%Z) = l.
Proof.
  intros Hl. apply nth_ext with (d := 0%Z) (d' := 0%Z).
  - now rewrite length_tabulate3.
  - rewrite length_tabulate3. intros i Hi.
    assert (HC : C <> 0) by (intros ->; lia).
    assert (HW : W <> 0) by (intros ->; lia).
    pose proof (Nat.div_mod_eq i C) as Ei.
    pose proof (Nat.mod_upper_bound i C HC) as Hc.
    pose proof (Nat.div_mod_eq (i / C) W) as Er.
    pose proof (Nat.mod_upper_bound (i / C) W HW) as Hx.
    set (c := i mod C) in *. set (r := i / C) in *.
    set (x := r mod W) in *. set (y := r / W) in *.
    assert (Hr : r < H * W).
    { destruct (Nat.lt_ge_cases r (H * W)) as [|Hge]; [assumption|].
      assert (H * W * C <= r * C) by (apply Nat.mul_le_mono_r; assumption).
      lia. }
    assert (Hy : y < H).
    { destruct (Nat.lt_ge_cases y H) as [|Hge]; [assumption|].
      assert (H * W <= y * W) by (apply Nat.mul_le_mono_r; assumption).
      lia. }
    assert (Ei' : i = (y * W + x) * C + c) by nia.
    rewrite Ei' at 1. rewrite nth_tabulate3 by assumption.
    now rewrite <- Ei'.
Qed.

Lemma array3_get3 (a : ndarray) H W C :
  shape a = [H; W; C] -> well_formed a ->
  tabulate3 H W C (get3 a) = data a.
Proof.
  intros Hs Hwf. unfold well_formed in Hwf. rewrite Hs in Hwf; simpl in Hwf.
  transitivity
    (tabulate3 H W C (fun y x c => nth ((y * W + x) * C + c) (data a) 0%Z)).
  - apply tabulate3_ext. intros. unfold get3. now rewrite Hs.
  - apply tabulate3_nth. lia.
Qed.

End Buffers.

Lemma clip_val_bounds lo hi v : (lo <= hi)%Z ->
  (lo <= clip_val lo hi v <= hi)%Z.
Proof. unfold clip_val; lia. Qed.

Lemma clip_val_id lo hi v : (lo <= v <= hi)%Z -> clip_val lo hi v = v.
Proof. unfold clip_val; lia. Qed.

Lemma cast_in_range d z : in_range d z = true -> cast d z = z.
Proof.
  destruct d; simpl; unfold wrap_unsigned, wrap_signed; intros H;
    try reflexivity;
    apply andb_prop in H; destruct H as [H1 H2].
  - apply Z.leb_le in H1, H2. apply Z.mod_small. lia.
  - apply Z.leb_le in H1. apply Z.ltb_lt in H2.
    rewrite Z.mod_small; lia.
  - apply Z.leb_le in H1. apply Z.ltb_lt in H2.
    rewrite Z.mod_small; lia.
Qed.

Lemma shape_eqb_eq s1 s2 : shape_eqb s1 s2 = true <-> s1 = s2.
Proof.
  revert s2; induction s1 as [|n r1 IH]; intros [|m r2]; simpl;
    try (split; [discriminate|discriminate]); [tauto|].
  rewrite andb_true_iff, Nat.eqb_eq, IH. split.
  - intros [-> ->]; reflexivity.
  - intros E; inversion E; auto.
Qed.

Local Open Scope Z_scope.

(** ** The shape normalizer *)

Lemma displayable_clip (a : ndarray) :
  Forall displayable (data (np_clip a 0 255)).
Proof.
  unfold np_clip; simpl. apply Forall_map, Forall_forall.
  intros v _. apply clip_val_bounds. lia.
Qed.

Lemma cast_displayable d v : displayable v -> cast d v = v.
Proof.
  intros Hv. apply cast_in_range. unfold displayable in Hv.
  destruct d; simpl; try reflexivity;
    apply andb_true_intro; split;
    first [apply Z.leb_le | apply Z.ltb_lt]; lia.
Qed.

Lemma displayable_astype d (a : ndarray) :
  Forall displayable (data a) -> Forall displayable (data (astype d a)).
Proof.
  unfold astype; simpl. intros Ha. apply Forall_map.
  eapply Forall_impl; [|exact Ha].
  intros v Hv; simpl. now rewrite cast_displayable.
Qed.

Lemma last_dim_newaxis (s : list nat) : last_dim (s ++ [1%nat]) = Some 1%nat.
Proof. unfold last_dim. now rewrite rev_unit. Qed.

Section ShapeNormalizer.

Context {F : Type} `{BaseFilter.t F}.

(** [apply_filter] on an accepted rank, in terms of [apply]. *)
Lemma apply_filter_accepted (self : F) (image : ndarray) :
  (ndim image = 2 \/ ndim image = 3)%nat ->
  BaseFilter.apply_filter self image =
    (fst (BaseFilter.apply self (astype Int32 (promoted image))),
     result <- snd (BaseFilter.apply self (astype Int32 (promoted image))) ;;
     match last_dim (shape result) with
     | None => Raise (IndexError "tuple index out of range")
     | Some n =>
         if (n =? 1)%nat then Ok (squeeze_last (np_clip result 0 255))
         else Ok (astype (dtype image) (np_clip result 0 255))
     end).
Proof.
  intros Hrank. unfold BaseFilter.apply_filter, promoted.
  destruct Hrank as [E|E]; rewrite E; simpl;
    destruct (BaseFilter.apply self _) as [self' r]; reflexivity.
Qed.

Lemma apply_filter_rejected (self : F) (image : ndarray) :
  ndim image <> 2%nat -> ndim image <> 3%nat ->
  BaseFilter.apply_filter self image =
    (self, Raise (ValueError "Expected 2D or 3D image")).
Proof.
  intros H2 H3. unfold BaseFilter.apply_filter.
  apply Nat.eqb_neq in H2, H3. now rewrite H2, H3.
Qed.

Lemma apply_filter_returns (self self' : F) (image out : ndarray) :
  BaseFilter.apply_filter self image = (self', Ok out) ->
  (ndim image = 2 \/ ndim image = 3)%nat.
Proof.
  intros E.
  destruct (Nat.eq_dec (ndim image) 2) as [|N2]; [now left|].
  destruct (Nat.eq_dec (ndim image) 3) as [|N3]; [now right|].
  rewrite apply_filter_rejected in E by assumption. discriminate.
Qed.

(** Where [apply] returns integer-valued samples: whatever the filter
    (elementwise, fixed-kernel or programmable-region: any
    implementation of [apply]), whatever the image, kernels and bias,
    every sample of an image returned by [apply_filter] lies in
    [0, 255]. *)
Theorem apply_filter_displayable (self self' : F) (image out : ndarray) :
  BaseFilter.apply_filter self image = (self', Ok out) ->
  Forall displayable (data out).
Proof.
  intros E. pose proof (apply_filter_returns _ _ E) as Hrank.
  rewrite apply_filter_accepted in E by assumption.
  injection E as _ E.
  destruct (snd (BaseFilter.apply self _)) as [r|e]; simpl in E;
    [|discriminate].
  destruct (last_dim (shape r)) as [n|]; [|discriminate].
  destruct (n =? 1)%nat; injection E as <-.
  - apply (displayable_clip r).
  - apply displayable_astype, displayable_clip.
Qed.


End ShapeNormalizer.

(** ** The shape normalizer on float64 results *)

Lemma in_range_displayable d z : displayable z -> in_range d z = true.
Proof.
  unfold displayable. intros Hz.
  destruct d; simpl; try reflexivity;
    apply andb_true_intro; split;
    first [apply Z.leb_le | apply Z.ltb_lt]; lia.
Qed.

Lemma clip_float_of_int z : clip_float (of_int z) = of_int (clip_val 0 255 z).
Proof.
  unfold clip_float, of_int, clip_val. cbn [Z.of_N].
  change (255 * 2 ^ 0) with 255.
  destruct (Z.leb_spec z 0) as [H0|H0].
  - f_equal. lia.
  - destruct (Z.leb_spec 255 z) as [H1|H1]; f_equal; lia.
Qed.

Lemma clip_float_in_display v : v <> NaN -> in_display (clip_float v).
Proof.
  assert (Hint : forall z, displayable z -> in_display (of_int z)).
  { unfold displayable, in_display, of_int. intros z Hz.
    change (255 * 2 ^ Z.of_N 0) with 255. exact Hz. }
  intros Hv. destruct v as [m k| | |]; unfold clip_float;
    [|apply Hint; unfold displayable; lia ..|congruence].
  destruct (Z.leb_spec m 0) as [H0|H0];
    [apply Hint; unfold displayable; lia|].
  destruct (Z.leb_spec (255 * 2 ^ Z.of_N k) m) as [H1|H1];
    [apply Hint; unfold displayable; lia|].
  unfold in_display. lia.
Qed.

Lemma truncate_displayable m k :
  0 <= m <= 255 * 2 ^ Z.of_N k -> displayable (Z.quot m (2 ^ Z.of_N k)).
Proof.
  intros [H0 H1]. assert (Hp : 0 < 2 ^ Z.of_N k) by (apply Z.pow_pos_nonneg; lia).
  unfold displayable. rewrite Z.quot_div_nonneg by lia. split.
  - apply Z.div_pos; lia.
  - apply Z.div_le_upper_bound; lia.
Qed.

Lemma convert_in_display undefined_as from d v :
  in_display v -> in_display (convert undefined_as from d v).
Proof.
  destruct v as [m k| | |]; simpl; try tauto. intros Hv.
  pose proof (truncate_displayable _ Hv) as Hz.
  assert (Hint : forall z, displayable z -> in_display (of_int z))
    by (unfold displayable; simpl; intros; lia).
  destruct d; [| | |exact Hv]; unfold convert;
    (destruct from;
     [rewrite (cast_displayable _ Hz); apply Hint, Hz ..
     |rewrite (in_range_displayable _ Hz); apply Hint, Hz]).
Qed.

Lemma convert_of_int undefined_as from d z :
  displayable z -> convert undefined_as from d (of_int z) = of_int (cast d z).
Proof.
  intros Hz. unfold convert, of_int. cbn [Z.of_N].
  change (2 ^ 0) with 1. rewrite Z.quot_1_r.
  rewrite (in_range_displayable d Hz), (cast_displayable d Hz).
  destruct d, from; reflexivity.
Qed.

Section FloatNormalizer.
Context {F : Type} `{FloatFilter.t F}.
Variable undefined_as : np_dtype -> float64 -> Z.

Lemma float_apply_filter_accepted (self : F) (image : ndarray) :
  (ndim image = 2 \/ ndim image = 3)%nat ->
  FloatFilter.apply_filter undefined_as self image =
    (fst (FloatFilter.apply self (astype Int32 (promoted image))),
     result <- snd (FloatFilter.apply self (astype Int32 (promoted image))) ;;
     match last_dim (fshape result) with
     | None => Raise (IndexError "tuple index out of range")
     | Some n =>
         if (n =? 1)%nat then Ok (squeeze_last_float (np_clip_float result))
         else Ok (astype_float undefined_as (dtype image)
                    (np_clip_float result))
     end).
Proof.
  intros Hrank. unfold FloatFilter.apply_filter, promoted.
  destruct Hrank as [E|E]; rewrite E; simpl;
    destruct (FloatFilter.apply self _) as [self' r]; reflexivity.
Qed.

Lemma float_apply_filter_returns (self self' : F) (image : ndarray)
  (out : farray) :
  FloatFilter.apply_filter undefined_as self image = (self', Ok out) ->
  (ndim image = 2 \/ ndim image = 3)%nat.
Proof.
  unfold FloatFilter.apply_filter.
  destruct (ndim image =? 2)%nat eqn:E2.
  - left. apply Nat.eqb_eq, E2.
  - destruct (ndim image =? 3)%nat eqn:E3; simpl.
    + right. apply Nat.eqb_eq, E3.
    + discriminate.
Qed.

(** C1, as the code has it.  Whatever the filter (elementwise,
    fixed-kernel or programmable-region: any implementation of [apply]),
    whatever the image, and whatever float64 values [apply] returns,
    fractions and infinities included, every sample of the image
    returned by [apply_filter] lies in [0, 255] unless [apply] returned
    a NaN. *)
Theorem apply_filter_displayable_unless_nan (self self' : F)
  (image : ndarray) (out : farray) :
  FloatFilter.apply_filter undefined_as self image = (self', Ok out) ->
  exists result,
    FloatFilter.apply self (astype Int32 (promoted image))
      = (self', Ok result)
    /\ (Forall (fun v => v <> NaN) (fdata result) ->
        Forall in_display (fdata out)).
Proof.
  intros E. pose proof (float_apply_filter_returns _ _ E) as Hrank.
  rewrite float_apply_filter_accepted in E by assumption.
  destruct (FloatFilter.apply self _) as [s r]. cbn [fst snd] in E.
  injection E as -> E.
  destruct r as [r|e]; simpl in E; [|discriminate].
  exists r. split; [reflexivity|]. intros Hnum.
  assert (Hclip : Forall in_display (fdata (np_clip_float r))).
  { simpl. apply Forall_map. revert Hnum. apply Forall_impl.
    intros v. apply clip_float_in_display. }
  destruct (last_dim (fshape r)) as [n|]; [|discriminate].
  destruct (n =? 1)%nat; injection E as <-.
  - exact Hclip.
  - cbn [astype_float fdata]. apply Forall_map. revert Hclip.
    cbn [np_clip_float fdata]. apply Forall_impl. intros v.
    apply convert_in_display.
Qed.

End FloatNormalizer.

Section Lifted.
Context {F : Type} `{BaseFilter.t F}.
Variable undefined_as : np_dtype -> float64 -> Z.

Lemma lifted_apply_filter (self : F) (image : ndarray) :
  FloatFilter.apply_filter undefined_as self image =
    (fst (BaseFilter.apply_filter self image),
     out <- snd (BaseFilter.apply_filter self image) ;; Ok (of_ndarray out)).
Proof.
  assert (Hclip : forall r,
            np_clip_float (of_ndarray r) = of_ndarray (np_clip r 0 255)).
  { intros r. unfold np_clip_float, of_ndarray, np_clip.
    cbn [fdtype fshape fdata dtype shape data]. f_equal.
    rewrite !map_map. apply map_ext. intros v. apply clip_float_of_int. }
  assert (Hcast : forall d r,
            astype_float undefined_as d (of_ndarray (np_clip r 0 255))
            = of_ndarray (astype d (np_clip r 0 255))).
  { intros d r. unfold astype_float, of_ndarray, astype, np_clip.
    cbn [fdtype fshape fdata dtype shape data]. f_equal.
    rewrite !map_map. apply map_ext. intros v.
    apply convert_of_int, clip_val_bounds. lia. }
  unfold FloatFilter.apply_filter, BaseFilter.apply_filter.
  unfold FloatFilter.apply, lifted.
  destruct (ndim image =? 2)%nat;
    [|destruct (ndim image =? 3)%nat; simpl; [|reflexivity]].
  all: destruct (BaseFilter.apply self _) as [self' [r|e]];
    cbn [fst snd bind]; [|reflexivity]; f_equal.
  all: rewrite Hclip; cbn [fshape of_ndarray np_clip shape bind];
    destruct (last_dim (shape r)) as [n|]; [|reflexivity];
    destruct (n =? 1)%nat; cbn [bind]; [reflexivity|];
    do 2 f_equal; apply Hcast.
Qed.

End Lifted.

(** C1 fails where [apply] returns NaN, which [np.clip] leaves in
    place: a fixed-kernel filter built with bias NaN returns, for a 3x3
    grayscale image, the one sample NaN. *)
Lemma nan_bias_escapes_clip :
  FloatFilter.apply_filter zero_where_undefined nan_biased gray_3x3
  = ({| NaNBias.conv := unpadded3; NaNBias.kernel_of := ones_kernel |},
     Ok {| fdtype := Float64; fshape := [1; 1]%nat; fdata := [NaN] |})
  /\ ~ Forall in_display [NaN].
Proof.
  split; [reflexivity|]. intros Hall. inversion Hall as [|v l Hv _]. exact Hv.
Qed.

(** A constructed [Brightness] returns an image for every input of rank
    2 or 3: the offset is within [-100, 100], which int32 holds. *)
Lemma brightness_apply_filter_returns (alpha : pynum) (self : Brightness.t)
  (image : ndarray) :
  Brightness.__init__ alpha = Ok self ->
  (ndim image = 2 \/ ndim image = 3)%nat ->
  exists out, BaseFilter.apply_filter self image = (self, Ok out).
Proof.
  unfold Brightness.__init__. intros Hinit Hrank.
  destruct ((-100 <=? pynum_val alpha) && (pynum_val alpha <=? 100))
    eqn:Hrange; cbn [negb] in Hinit; [|discriminate].
  injection Hinit as <-.
  apply andb_prop in Hrange. destruct Hrange as [Hlo Hhi].
  apply Z.leb_le in Hlo, Hhi.
  rewrite apply_filter_accepted by assumption.
  cbn [BaseFilter.apply Brightness.filter Brightness.apply fst snd
       Brightness.alpha].
  assert (Hlast : exists n,
            last_dim (shape (astype Int32 (promoted image))) = Some n).
  { unfold promoted, astype, ndim in *. cbn [shape].
    destruct Hrank as [E|E]; rewrite E; cbn [Nat.eqb].
    - exists 1%nat. apply last_dim_newaxis.
    - destruct (shape image) as [|a [|b [|c [|? ?]]]]; try discriminate.
      exists c. reflexivity. }
  destruct Hlast as [n Hn].
  assert (Hadd : exists r,
            add_scalar (astype Int32 (promoted image)) alpha = Ok r
            /\ shape r = shape (astype Int32 (promoted image))).
  { unfold add_scalar. destruct alpha as [z|z]; cbn [pynum_val] in *.
    - replace (in_range (dtype (astype Int32 (promoted image))) z) with true.
      + eexists. split; reflexivity.
      + symmetry. cbn [astype dtype in_range].
        apply andb_true_intro. split;
          [apply Z.leb_le|apply Z.ltb_lt]; lia.
    - eexists. split; reflexivity. }
  destruct Hadd as (r & -> & Hshape). cbn [bind]. rewrite Hshape, Hn.
  destruct (n =? 1)%nat; eauto.
Qed.

Section NeighborhoodProcessor.

Variable convolve : ConvFilter.t -> ndarray -> result ndarray.

Lemma apply_with_pad (self : ConvFilter.t) (py px : Z) (image : ndarray) :
  ConvFilter.pad_y self = Some py -> ConvFilter.pad_x self = Some px ->
  ConvFilter.apply convolve self image
  = (self, padded_call convolve self image).
Proof.
  intros Hy Hx. unfold ConvFilter.apply, padded_call.
  now rewrite Hy.
Qed.

Lemma run_with_pad (self : ConvFilter.t) (py px : Z) :
  ConvFilter.pad_y self = Some py -> ConvFilter.pad_x self = Some px ->
  forall images,
    ConvFilter.run convolve self images
    = (self, map (padded_call convolve self) images).
Proof.
  intros Hy Hx. induction images as [|image rest IH]; simpl.
  - reflexivity.
  - erewrite apply_with_pad by eassumption. now rewrite IH.
Qed.

(** C7.  With no explicit pad, the first call assigns the pad: under
    "preserve extent" it is
    ((stride - 1) * extent + kernel_size - stride) / 2 per axis, with
    floor division (5 on both axes for a 10x10 image, stride 2 and a
    3x3 kernel); without the flag it is 0.  Every later call on the
    instance, whatever its image, leaves the pad as it is and pads with
    it. *)
Theorem first_call_computes_pad (self : ConvFilter.t) (image : ndarray)
  (H W : nat) (rest : list nat) :
  ConvFilter.pad_y self = None -> ConvFilter.pad_x self = None ->
  shape image = H :: W :: rest ->
  let self' := fst (ConvFilter.apply convolve self image) in
  (ConvFilter.keep_dims_with_pad self = true ->
     ConvFilter.pad_y self'
     = Some (((ConvFilter.stride_y self - 1) * Z.of_nat H
              + ConvFilter.kernel_height self
              - ConvFilter.stride_y self) / 2)
     /\ ConvFilter.pad_x self'
        = Some (((ConvFilter.stride_x self - 1) * Z.of_nat W
                 + ConvFilter.kernel_width self
                 - ConvFilter.stride_x self) / 2))
  /\ (ConvFilter.keep_dims_with_pad self = true ->
      H = 10%nat -> W = 10%nat ->
      ConvFilter.stride_y self = 2 -> ConvFilter.stride_x self = 2 ->
      ConvFilter.kernel_height self = 3 ->
      ConvFilter.kernel_width self = 3 ->
      ConvFilter.pad_y self' = Some 5 /\ ConvFilter.pad_x self' = Some 5)
  /\ (ConvFilter.keep_dims_with_pad self = false ->
      ConvFilter.pad_y self' = Some 0 /\ ConvFilter.pad_x self' = Some 0)
  /\ (forall images,
        ConvFilter.run convolve self' images
        = (self', map (padded_call convolve self') images)).
Proof.
  intros Hy Hx Hs self'.
  assert (Hkeep : ConvFilter.keep_dims_with_pad self = true ->
            self' = ConvFilter.with_pad self
              (Some (((ConvFilter.stride_y self - 1) * Z.of_nat H
                      + ConvFilter.kernel_height self
                      - ConvFilter.stride_y self) / 2))
              (Some (((ConvFilter.stride_x self - 1) * Z.of_nat W
                      + ConvFilter.kernel_width self
                      - ConvFilter.stride_x self) / 2))).
  { intros Hk. subst self'. unfold ConvFilter.apply.
    now rewrite Hy, Hx, Hk, Hs. }
  assert (Hzero : ConvFilter.keep_dims_with_pad self = false ->
            self' = ConvFilter.with_pad self (Some 0) (Some 0)).
  { intros Hk. subst self'. unfold ConvFilter.apply.
    now rewrite Hy, Hx, Hk. }
  split; [|split; [|split]].
  - intros Hk. rewrite (Hkeep Hk). split; reflexivity.
  - intros Hk EH EW Esy Esx Ekh Ekw. rewrite (Hkeep Hk). simpl.
    rewrite EH, EW, Esy, Esx, Ekh, Ekw. split; reflexivity.
  - intros Hk. rewrite (Hzero Hk). split; reflexivity.
  - destruct (ConvFilter.keep_dims_with_pad self) eqn:Hk.
    + rewrite (Hkeep eq_refl).
      eapply run_with_pad; reflexivity.
    + rewrite (Hzero eq_refl).
      eapply run_with_pad; reflexivity.
Qed.

End NeighborhoodProcessor.

(** C9.  A construction given an explicit pad together with "preserve
    extent" succeeds whenever its parameters validate, with a warning and
    no error; the instance holds the explicit pad, every call pads with
    it, and the image it pads is the one an instance built without the
    flag pads. *)
Theorem explicit_pad_wins (kernel_radius stride p : Z * Z)
  (pad_val bias : pynum) :
  ConvFilter._validate_params kernel_radius stride (Some p) pad_val bias
    = Ok tt ->
  exists self plain,
    ConvFilter.__init__ kernel_radius stride (Some p) pad_val bias true
      = (["'pad' was provided explicitly; 'keep_dims_with_pad' will be ignored."%string],
         Ok self)
    /\ ConvFilter.__init__ kernel_radius stride (Some p) pad_val bias false
       = ([], Ok plain)
    /\ ConvFilter.pad_y self = Some (fst p)
    /\ ConvFilter.pad_x self = Some (snd p)
    /\ (forall convolve images,
          ConvFilter.run convolve self images
          = (self,
             map (fun image =>
                    padded_image <- ConvFilter.np_pad image (fst p) (snd p)
                                      (pynum_val pad_val) ;;
                    convolve self padded_image) images))
    /\ (forall image,
          ConvFilter.pad_image self image = ConvFilter.pad_image plain image).
Proof.
  intros Hvalid. unfold ConvFilter.__init__. rewrite Hvalid.
  eexists; eexists. split; [reflexivity|]. split; [reflexivity|].
  split; [reflexivity|]. split; [reflexivity|]. split.
  - intros convolve images.
    erewrite run_with_pad by reflexivity. reflexivity.
  - reflexivity.
Qed.

Section KernelValidation.

Lemma firstn2_rows_cols (k : kernel) :
  length (kshape k) = 3%nat ->
  firstn 2 (kshape k) = [kernel_rows k; kernel_cols k].
Proof.
  unfold kernel_rows, kernel_cols.
  destruct (kshape k) as [|a [|b [|c [|? ?]]]]; simpl; intros E;
    try discriminate; reflexivity.
Qed.

Lemma validate_each_ok (expected : list nat) :
  forall ks, StaticFilter.validate_each expected ks = Ok tt ->
  forall k, In k ks ->
    length (kshape k) = 3%nat
    /\ firstn 2 (kshape k) = expected
    /\ (kernel_chans k = 1 \/ kernel_chans k = 3)%nat.
Proof.
  induction ks as [|k0 rest IH]; cbn [StaticFilter.validate_each In];
    intros E k Hin; [contradiction|].
  destruct (length (kshape k0) =? 3)%nat eqn:E3; cbn [negb] in E;
    [|discriminate].
  destruct (shape_eqb (firstn 2 (kshape k0)) expected) eqn:Es;
    cbn [negb] in E; [|discriminate].
  destruct ((nth 2 (kshape k0) 0 =? 1) || (nth 2 (kshape k0) 0 =? 3))%nat
    eqn:Ec; cbn [negb] in E; [|discriminate].
  destruct Hin as [<-|Hin]; [|now apply IH].
  apply Nat.eqb_eq in E3. apply shape_eqb_eq in Es.
  apply orb_prop in Ec. unfold kernel_chans.
  repeat split; try assumption.
  destruct Ec as [Ec|Ec]; apply Nat.eqb_eq in Ec; auto.
Qed.

Lemma validate_each_raises (expected : list nat) :
  forall ks e, StaticFilter.validate_each expected ks = Raise e ->
  exists msg, e = ValueError msg.
Proof.
  induction ks as [|k0 rest IH]; simpl; intros e; [discriminate|].
  destruct (negb _); [intros E; injection E as <-; eauto|].
  destruct (negb _); [intros E; injection E as <-; eauto|].
  destruct (negb _); [intros E; injection E as <-; eauto|].
  apply IH.
Qed.

Lemma validate_kernels_raises (ks : list kernel) (e : exn) :
  StaticFilter._validate_kernels ks = Raise e ->
  exists msg, e = ValueError msg.
Proof.
  unfold StaticFilter._validate_kernels.
  destruct ks as [|k0 rest]; [intros E; injection E as <-; eauto|].
  destruct (negb _); [intros E; injection E as <-; eauto|].
  destruct (_ || _)%bool; [intros E; injection E as <-; eauto|].
  apply validate_each_raises.
Qed.

Lemma validate_kernels_ok (ks : list kernel) :
  StaticFilter._validate_kernels ks = Ok tt ->
  exists rows cols,
    (rows mod 2 <> 0)%nat /\ (cols mod 2 <> 0)%nat
    /\ forall k, In k ks ->
         kernel_rows k = rows /\ kernel_cols k = cols
         /\ (kernel_chans k = 1 \/ kernel_chans k = 3)%nat.
Proof.
  unfold StaticFilter._validate_kernels.
  destruct ks as [|k0 rest]; [discriminate|].
  destruct (length (kshape k0) =? 3)%nat eqn:E3; cbn [negb];
    [|discriminate].
  apply Nat.eqb_eq in E3. rewrite (firstn2_rows_cols k0 E3).
  cbn [nth].
  destruct ((kernel_rows k0 mod 2 =? 0) || (kernel_cols k0 mod 2 =? 0))%nat
    eqn:Eodd; [discriminate|].
  apply orb_false_elim in Eodd. destruct Eodd as [Er Ec].
  apply Nat.eqb_neq in Er, Ec.
  intros E. exists (kernel_rows k0), (kernel_cols k0).
  split; [assumption|]. split; [assumption|].
  intros k Hin.
  destruct (validate_each_ok _ _ E k Hin) as (Hlen & Hshape & Hch).
  rewrite (firstn2_rows_cols k Hlen) in Hshape.
  injection Hshape as -> ->. auto.
Qed.

End KernelValidation.

(** C8.  A kernel list with an even row or column extent, with kernels
    that disagree in (rows, cols), or with a channel count that is
    neither 1 nor 3, makes the constructor raise a [ValueError]: the one
    [_validate_kernels] raises, before the geometry is even looked at, so
    no instance exists that could convolve. *)
Theorem misshapen_kernels_rejected (kernels : StaticFilter.kernels_arg)
  (kw : StaticFilter.kwargs) :
  misshapen (StaticFilter.kernel_list kernels) ->
  exists msg,
    StaticFilter._validate_kernels (StaticFilter.kernel_list kernels)
      = Raise (ValueError msg)
    /\ StaticFilter.__init__ kernels kw = ([], Raise (ValueError msg)).
Proof.
  intros Hbad. unfold StaticFilter.__init__.
  destruct (StaticFilter._validate_kernels (StaticFilter.kernel_list kernels))
    as [[]|e] eqn:E.
  - exfalso.
    destruct (validate_kernels_ok _ E) as (rows & cols & Hr & Hc & Hall).
    destruct Hbad as [(k & Hin & Heven)|[(k1 & k2 & H1 & H2 & Hne)|
                      (k & Hin & N1 & N3)]].
    + destruct (Hall k Hin) as (Er & Ec & _).
      rewrite Er, Ec in Heven. tauto.
    + destruct (Hall k1 H1) as (Er1 & Ec1 & _).
      destruct (Hall k2 H2) as (Er2 & Ec2 & _).
      apply Hne. congruence.
    + destruct (Hall k Hin) as (_ & _ & [Hch|Hch]); contradiction.
  - destruct (validate_kernels_raises _ E) as [msg ->].
    exists msg. split; reflexivity.
Qed.

(** ** The fixed-kernel step in closed form *)

Lemma bind_ok (A B : Type) (m : result A) (k : A -> result B) (b : B) :
  bind m k = Ok b -> exists a, m = Ok a /\ k a = Ok b.
Proof. destruct m as [a|e]; simpl; [eauto|discriminate]. Qed.


Lemma bidx_lt (n i : nat) : (i < n)%nat -> bidx n i = i.
Proof.
  unfold bidx. destruct (n =? 1)%nat eqn:E; [|reflexivity].
  apply Nat.eqb_eq in E. lia.
Qed.

Lemma bdim_same (n : nat) : bdim n n = Some n.
Proof. unfold bdim. now rewrite Nat.eqb_refl. Qed.

Lemma in_window_positions (K L : nat) (kl : nat * nat) :
  In kl (window_positions K L) -> (fst kl < K)%nat /\ (snd kl < L)%nat.
Proof.
  destruct kl as [k l]. unfold window_positions. rewrite in_prod_iff.
  rewrite !in_seq. simpl. lia.
Qed.

Lemma slice_len_windows (n k : nat) (s : Z) :
  (k <= n)%nat -> 0 < s ->
  slice_len (n - k + 1) s = out_extent n k (Z.to_nat s).
Proof.
  intros Hk Hs. unfold slice_len, out_extent.
  replace (n - k + 1 =? 0)%nat with false
    by (symmetry; apply Nat.eqb_neq; lia).
  rewrite Z.abs_eq by lia.
  replace (n - k + 1 - 1)%nat with (n - k)%nat by lia. reflexivity.
Qed.

Lemma slice_idx_pos (n : nat) (s : Z) (i : nat) :
  0 < s -> slice_idx n s i = (i * Z.to_nat s)%nat.
Proof.
  intros Hs. unfold slice_idx.
  now replace (0 <? s) with true by (symmetry; apply Z.ltb_lt; lia).
Qed.

Lemma single_filter_closed_form (self : ConvFilter.t) (image : ndarray)
  (k : kernel) (H W C KH KW Ck : nat) :
  shape image = [H; W; C] -> kshape k = [KH; KW; Ck] ->
  ConvFilter.kernel_height self = Z.of_nat KH ->
  ConvFilter.kernel_width self = Z.of_nat KW ->
  0 < ConvFilter.stride_y self -> 0 < ConvFilter.stride_x self ->
  (KH <= H)%nat -> (KW <= W)%nat -> Ck = 1%nat \/ Ck = C ->
  let d := result_type (dtype image) Int64 in
  let sy := Z.to_nat (ConvFilter.stride_y self) in
  let sx := Z.to_nat (ConvFilter.stride_x self) in
  StaticFilter._apply_single_filter self image k
  = (out <- add_scalar
              (array3 d (out_extent H KH sy) (out_extent W KW sx) C
                 (correlate d image k KH KW sy sx))
              (ConvFilter.bias self) ;;
     Ok (np_clip out 0 255)).
Proof.
  intros Hs Hk Hkh Hkw Hsy Hsx HH HW HC d sy sx.
  unfold StaticFilter._apply_single_filter, sliding_window_view.
  rewrite Hs, Hkh, Hkw.
  replace ((Z.of_nat KH <? 0) || (Z.of_nat KW <? 0)) with false
    by (symmetry; apply orb_false_intro; apply Z.ltb_ge; lia).
  replace ((Z.of_nat H <? Z.of_nat KH) || (Z.of_nat W <? Z.of_nat KW))
    with false
    by (symmetry; apply orb_false_intro; apply Z.ltb_ge; lia).
  rewrite !Nat2Z.id. cbn [bind]. unfold strided.
  replace ((ConvFilter.stride_y self =? 0) || (ConvFilter.stride_x self =? 0))
    with false
    by (symmetry; apply orb_false_intro; apply Z.eqb_neq; lia).
  cbn [bind w_dtype w_rows w_cols w_chans w_kh w_kw w_at].
  unfold kernel_view. rewrite Hk.
  cbn [bind v_rows v_cols v_chans v_at].
  rewrite !slice_len_windows by assumption. fold sy sx.
  assert (Hbody :
    forall (v : view3),
      v_rows v = KH -> v_cols v = KW -> v_chans v = C ->
      (forall a b c, (a < KH)%nat -> (b < KW)%nat -> (c < C)%nat ->
         v_at v a b c = get3 (kernel_array k) a b (bidx (kernel_chans k) c)) ->
      einsum
        {| w_dtype := dtype image;
           w_rows := out_extent H KH sy; w_cols := out_extent W KW sx;
           w_chans := C; w_kh := KH; w_kw := KW;
           w_at := fun h x c k0 l =>
             get3 image
               (slice_idx (H - KH + 1) (ConvFilter.stride_y self) h + k0)
               (slice_idx (W - KW + 1) (ConvFilter.stride_x self) x + l) c |}
        v
      = Ok (array3 d (out_extent H KH sy) (out_extent W KW sx) C
              (correlate d image k KH KW sy sx))).
  { intros v Hr Hc Hch Hat. unfold einsum.
    cbn [w_dtype w_rows w_cols w_chans w_kh w_kw w_at].
    rewrite Hr, Hc, Hch, !bdim_same. fold d.
    unfold array3. f_equal. f_equal.
    apply tabulate3_ext. intros h x c Hh Hx Hcc.
    unfold correlate. f_equal. apply map_ext_in. intros kl Hin.
    apply in_window_positions in Hin. destruct Hin as [Hk0 Hl0].
    rewrite !bidx_lt by assumption.
    rewrite !slice_idx_pos by assumption. fold sy sx.
    now rewrite Hat by assumption. }
  assert (Hchans : kernel_chans k = Ck) by (unfold kernel_chans; now rewrite Hk).
  destruct (Ck =? 1)%nat eqn:E1.
  - apply Nat.eqb_eq in E1. unfold broadcast_to.
    cbn [v_rows v_cols v_chans v_at].
    rewrite !Nat.eqb_refl. rewrite E1. cbn [orb andb Nat.eqb].
    rewrite orb_true_r. cbn [bind].
    rewrite Hbody; try reflexivity.
    intros a b c Ha Hb Hc. cbn [v_at].
    rewrite !bidx_lt by assumption. now rewrite Hchans, E1.
  - cbn [bind]. rewrite Hbody; try reflexivity.
    + cbn [v_chans]. apply Nat.eqb_neq in E1. destruct HC; congruence.
    + intros a b c Ha Hb Hc. cbn [v_at].
      rewrite Hchans. rewrite bidx_lt; [reflexivity|].
      apply Nat.eqb_neq in E1. destruct HC; [contradiction|]. lia.
Qed.

(** ** Chained kernels *)

Lemma add_scalar_shape (a b : ndarray) (n : pynum) :
  add_scalar a n = Ok b ->
  shape b = shape a /\ length (data b) = length (data a).
Proof.
  unfold add_scalar. destruct n as [z|z].
  - destruct (in_range (dtype a) z); [|discriminate].
    intros E; injection E as <-; simpl. now rewrite length_map.
  - intros E; injection E as <-; simpl. now rewrite length_map.
Qed.

Lemma einsum_shape (w : windows) (v : view3) (out : ndarray) :
  einsum w v = Ok out ->
  exists C, shape out = [w_rows w; w_cols w; C]
            /\ length (data out) = (w_rows w * w_cols w * C)%nat.
Proof.
  unfold einsum.
  destruct (bdim (w_kh w) (v_rows v)); [|discriminate].
  destruct (bdim (w_kw w) (v_cols v)); [|discriminate].
  destruct (bdim (w_chans w) (v_chans v)) as [C|]; [|discriminate].
  intros E; injection E as <-. exists C. simpl.
  now rewrite length_tabulate3.
Qed.

(** What one fixed-kernel step returns: a well-formed 3-D array of
    displayable samples. *)
Lemma single_filter_output (self : ConvFilter.t) (image out : ndarray)
  (k : kernel) :
  StaticFilter._apply_single_filter self image k = Ok out ->
  (exists H W C, shape out = [H; W; C]
                 /\ length (data out) = (H * W * C)%nat)
  /\ Forall displayable (data out).
Proof.
  unfold StaticFilter._apply_single_filter. intros E.
  apply bind_ok in E. destruct E as (w0 & _ & E).
  apply bind_ok in E. destruct E as (w & _ & E).
  apply bind_ok in E. destruct E as (v0 & _ & E).
  apply bind_ok in E. destruct E as (v & _ & E).
  apply bind_ok in E. destruct E as (o & Ho & E).
  apply bind_ok in E. destruct E as (o' & Ho' & E).
  injection E as <-. split.
  - destruct (einsum_shape _ _ Ho) as (C & Hs & Hl).
    destruct (add_scalar_shape _ _ Ho') as (Hs' & Hl').
    exists (w_rows w), (w_cols w), C. simpl.
    rewrite length_map. split; congruence.
  - apply displayable_clip.
Qed.

Lemma np_pad_zero (a : ndarray) (H W C : nat) (v : Z) :
  shape a = [H; W; C] -> length (data a) = (H * W * C)%nat ->
  ConvFilter.np_pad a 0 0 v = Ok a.
Proof.
  intros Hs Hl. unfold ConvFilter.np_pad. rewrite Hs.
  cbn [Z.ltb Z.compare orb Z.to_nat Nat.add]. rewrite !Nat.add_0_r.
  f_equal. destruct a as [d s l]; simpl in *. subst s.
  unfold array3. f_equal.
  transitivity
    (tabulate3 H W C (fun y x c => nth ((y * W + x) * C + c) l 0));
    [|now apply tabulate3_nth].
  apply tabulate3_ext. intros y x c Hy Hx Hc.
  apply Nat.ltb_lt in Hy, Hx. unfold get3; simpl.
  rewrite Hy, Hx; simpl. now rewrite !Nat.sub_0_r.
Qed.

(** C5.  A fixed-kernel convolver registered with [K1, K2], run on a
    padded image, returns what one gets by applying K1 alone, which clips
    to [0, 255], and feeding that clipped image to a second instance
    registered with K2 only, with the same stride and bias and zero pad.
    The samples between the two kernels are displayable: the clip follows
    every kernel, not only the last. *)
Theorem chained_kernels_clip_between (self : ConvFilter.t)
  (image : ndarray) (K1 K2 : kernel) :
  StaticFilter.convolve [K1; K2] self image
  = (clipped <- StaticFilter._apply_single_filter self image K1 ;;
     snd (StaticFilter.apply
            {| StaticFilter.conv :=
                 ConvFilter.with_pad self (Some 0) (Some 0);
               StaticFilter.kernels := [K2] |}
            clipped))
  /\ (forall clipped,
        StaticFilter._apply_single_filter self image K1 = Ok clipped ->
        Forall displayable (data clipped)).
Proof.
  split.
  - unfold StaticFilter.convolve. cbn [StaticFilter.apply_kernels].
    destruct (StaticFilter._apply_single_filter self image K1)
      as [mid|e] eqn:E1; cbn [bind]; [|reflexivity].
    destruct (single_filter_output _ _ _ E1) as ((H & W & C & Hs & Hl) & _).
    unfold StaticFilter.apply, ConvFilter.apply, ConvFilter.pad_image.
    cbn [ConvFilter.with_pad ConvFilter.pad_y ConvFilter.pad_x
         ConvFilter.pad_val StaticFilter.conv StaticFilter.kernels snd].
    rewrite (np_pad_zero _ _ Hs Hl). cbn [bind].
    unfold StaticFilter.convolve. cbn [StaticFilter.apply_kernels].
    reflexivity.
  - intros clipped E. apply (single_filter_output _ _ _ E).
Qed.

Lemma flat_index_lt (H W C y x c : nat) :
  (y < H)%nat -> (x < W)%nat -> (c < C)%nat ->
  ((y * W + x) * C + c < H * W * C)%nat.
Proof.
  intros Hy Hx Hc.
  assert ((y * W + x) + 1 <= H * W)%nat by nia.
  assert (((y * W + x) + 1) * C <= H * W * C)%nat
    by (apply Nat.mul_le_mono_r; assumption).
  lia.
Qed.

Lemma get3_displayable (a : ndarray) (H W C y x c : nat) :
  shape a = [H; W; C] -> length (data a) = (H * W * C)%nat ->
  Forall displayable (data a) ->
  (y < H)%nat -> (x < W)%nat -> (c < C)%nat ->
  displayable (get3 a y x c).
Proof.
  intros Hs Hl Hall Hy Hx Hc. unfold get3. rewrite Hs.
  apply Forall_nth; [assumption|].
  rewrite Hl. now apply flat_index_lt.
Qed.

Lemma map_displayable_id (f : Z -> Z) (l : list Z) :
  (forall v, displayable v -> f v = v) ->
  Forall displayable l -> map f l = l.
Proof.
  intros Hf Hall. rewrite <- (map_id l) at 2.
  apply map_ext_in. intros v Hin.
  apply Hf. eapply Forall_forall; eassumption.
Qed.

(** C4, the failing input: the filter of the claim, asked for through
    the constructor, is never built; the radius (0, 0) inferred from a
    1x1 kernel fails the positive-radius check and no image comes back. *)
Lemma unit_kernel_filter_raises :
  run_static (StaticFilter.One unit_kernel) unit_kwargs rgb_pixel
  = Raise (ValueError "kernel_radius must be a tuple of two positive ints")
  /\ run_static (StaticFilter.One unit_kernel) unit_kwargs rgb_pixel
     <> Ok rgb_pixel.
Proof. split; [reflexivity|discriminate]. Qed.

(** C4, as the code has it.  No fixed-kernel filter can be constructed
    whose first kernel is 1x1: whatever the other arguments, the
    constructor raises a [ValueError].  The per-kernel step itself, run
    with the 1x1 kernel of value 1, zero bias and unit stride on an image
    of positive extents and displayable samples, returns the shape and
    the samples of the image. *)
Theorem unit_kernel_rejected_step_identity :
  (forall kernels kw k rest,
     StaticFilter.kernel_list kernels = k :: rest ->
     kernel_rows k = 1%nat -> kernel_cols k = 1%nat ->
     exists msg,
       StaticFilter.__init__ kernels kw = ([], Raise (ValueError msg)))
  /\
  (forall self image H W C,
     shape image = [H; W; C] -> well_formed image ->
     (0 < H)%nat -> (0 < W)%nat ->
     ConvFilter.kernel_height self = 1 ->
     ConvFilter.kernel_width self = 1 ->
     ConvFilter.stride_y self = 1 -> ConvFilter.stride_x self = 1 ->
     pynum_val (ConvFilter.bias self) = 0 ->
     Forall displayable (data image) ->
     exists out,
       StaticFilter._apply_single_filter self image unit_kernel = Ok out
       /\ shape out = shape image /\ data out = data image).
Proof.
  split.
  - intros kernels kw k rest Hlist Hrows Hcols.
    unfold StaticFilter.__init__. rewrite Hlist.
    destruct (StaticFilter._validate_kernels (k :: rest)) as [[]|e] eqn:E.
    + fold (kernel_rows k) (kernel_cols k). rewrite Hrows, Hcols.
      change (Z.of_nat 1 / 2) with 0.
      destruct (StaticFilter.kernel_radius kw) as [[ry rx]|].
      * destruct (StaticFilter.radius_eqb (ry, rx) (0, 0)) eqn:Er;
          cbn [negb]; [|eauto].
        unfold StaticFilter.radius_eqb in Er; simpl in Er.
        apply andb_prop in Er. destruct Er as [Ey Ex].
        apply Z.eqb_eq in Ey, Ex. subst ry rx.
        unfold ConvFilter.__init__, ConvFilter._validate_params. simpl.
        eauto.
      * unfold ConvFilter.__init__, ConvFilter._validate_params. simpl.
        eauto.
    + destruct (validate_kernels_raises _ E) as [msg ->]. eauto.
  - intros self image H W C Hs Hwf HH HW Hkh Hkw Hsy Hsx Hb Hall.
    assert (Hl : length (data image) = (H * W * C)%nat).
    { unfold well_formed in Hwf. rewrite Hs in Hwf; simpl in Hwf. lia. }
    rewrite (@single_filter_closed_form self image unit_kernel
               H W C 1 1 1 Hs eq_refl Hkh Hkw) by (auto; lia).
    rewrite Hsy, Hsx. change (Z.to_nat 1) with 1%nat.
    unfold out_extent. rewrite !Nat.div_1_r.
    replace (H - 1 + 1)%nat with H by lia.
    replace (W - 1 + 1)%nat with W by lia.
    set (d := result_type (dtype image) Int64).
    assert (Hcorr :
      tabulate3 H W C (correlate d image unit_kernel 1 1 1 1) = data image).
    { rewrite <- (array3_get3 Hs Hwf).
      apply tabulate3_ext. intros y x c Hy Hx Hc.
      unfold correlate, window_positions, sum_in. simpl.
      rewrite !Nat.mul_1_r, !Nat.add_0_r.
      pose proof (get3_displayable image Hs Hl Hall Hy Hx Hc) as Hd.
      unfold get3 at 2. simpl.
      rewrite Z.mul_1_r.
      rewrite (cast_displayable d Hd). apply (cast_displayable d Hd). }
    unfold add_scalar. destruct (ConvFilter.bias self) as [z|z];
      simpl in Hb; subst z.
    + replace (in_range (dtype (array3 d H W C
                  (correlate d image unit_kernel 1 1 1 1))) 0) with true
        by (unfold array3; simpl; now destruct d).
      cbn [bind]. eexists. split; [reflexivity|].
      unfold np_clip, array3; simpl. split; [now rewrite Hs|].
      rewrite Hcorr, map_map.
      apply map_displayable_id; [|assumption].
      intros v Hv. rewrite Z.add_0_r, cast_displayable by assumption.
      now apply clip_val_id.
    + cbn [bind]. eexists. split; [reflexivity|].
      unfold np_clip, array3; simpl. split; [now rewrite Hs|].
      rewrite Hcorr, map_map.
      apply map_displayable_id; [|assumption].
      intros v Hv. rewrite Z.add_0_r. now apply clip_val_id.
Qed.

(** ** The programmable-region loop *)

Lemma write_at_app (P values Q : list Z) :
  write_at (length P) values (P ++ Q) = P ++ values ++ skipn (length values) Q.
Proof.
  unfold write_at.
  rewrite firstn_app, Nat.sub_diag, firstn_all, firstn_O, app_nil_r.
  rewrite skipn_app. rewrite skipn_all2 by lia.
  replace (length P + length values - length P)%nat with (length values)
    by lia.
  reflexivity.
Qed.

Lemma map_cast_float (l : list Z) : map (cast Float64) l = l.
Proof. rewrite <- (map_id l) at 2. now apply map_ext. Qed.

Section FillLoop.

(** An output of [oh] x [ow] pixels of [C] channels, filled by [f]. *)
Variables oh ow C : nat.
Variable f : nat -> nat -> result ndarray.
Variable pix : nat -> nat -> list Z.

Hypothesis f_pixel : forall y x, (y < oh)%nat -> (x < ow)%nat ->
  exists value,
    f y x = Ok value
    /\ pixel_values C (np_clip value 0 255) = Ok (pix y x).
Hypothesis pix_length : forall y x, (y < oh)%nat -> (x < ow)%nat ->
  length (pix y x) = C.

Lemma store_pixel (y x : nat) (P Q : list Z) :
  (y < oh)%nat -> (x < ow)%nat ->
  length P = ((y * ow + x) * C)%nat ->
  store f y x (float_out oh ow C (P ++ Q))
  = Ok (float_out oh ow C (P ++ pix y x ++ skipn C Q)).
Proof.
  intros Hy Hx HP. unfold store.
  destruct (@f_pixel y x Hy Hx) as (value & -> & Hv). cbn [bind].
  unfold setitem, float_out. cbn [shape dtype data].
  apply Nat.ltb_lt in Hy, Hx. rewrite Hy, Hx. cbn [andb negb].
  rewrite Hv. cbn [bind]. rewrite map_cast_float.
  rewrite <- HP, write_at_app.
  apply Nat.ltb_lt in Hy, Hx. now rewrite pix_length.
Qed.

Lemma row_loop (y : nat) : (y < oh)%nat ->
  forall n a P Q, (a + n <= ow)%nat ->
    length P = ((y * ow + a) * C)%nat ->
    for_each (seq a n) (store f y) (float_out oh ow C (P ++ Q))
    = Ok (float_out oh ow C
            (P ++ flat_map (pix y) (seq a n) ++ skipn (n * C) Q)).
Proof.
  intros Hy. induction n as [|n IH]; intros a P Q Ha HP.
  - simpl. now rewrite ?skipn_0.
  - cbn [seq for_each flat_map].
    rewrite store_pixel by (assumption || lia). cbn [bind].
    rewrite app_assoc. rewrite IH.
    + rewrite skipn_skipn, <- !app_assoc.
      replace (n * C + C)%nat with (S n * C)%nat by lia. reflexivity.
    + lia.
    + rewrite length_app, HP, pix_length by (assumption || lia). lia.
Qed.

Lemma rows_loop :
  forall m b P Q, (b + m <= oh)%nat ->
    length P = (b * ow * C)%nat ->
    for_each (seq b m)
      (fun y out => for_range ow (fun x out => store f y x out) out)
      (float_out oh ow C (P ++ Q))
    = Ok (float_out oh ow C
            (P ++ flat_map (fun y => flat_map (pix y) (seq 0 ow)) (seq b m)
               ++ skipn (m * ow * C) Q)).
Proof.
  induction m as [|m IH]; intros b P Q Hb HP.
  - simpl. now rewrite ?skipn_0.
  - cbn [seq for_each flat_map]. unfold for_range at 1.
    change (fun x out => store f b x out) with (store f b).
    rewrite row_loop by (lia || (rewrite HP; lia)). cbn [bind].
    rewrite app_assoc. rewrite IH.
    + rewrite skipn_skipn, <- !app_assoc.
      replace (m * ow * C + ow * C)%nat with (S m * ow * C)%nat by lia.
      reflexivity.
    + lia.
    + rewrite length_app, HP.
      rewrite length_flat_map_uniform with (m := C).
      * rewrite length_seq. lia.
      * intros x Hx. apply in_seq in Hx. apply pix_length; lia.
Qed.

Lemma fill_loop :
  for_range oh
    (fun y out => for_range ow (fun x out => store f y x out) out)
    (float_out oh ow C (repeat 0 (oh * ow * C)))
  = Ok (float_out oh ow C
          (flat_map (fun y => flat_map (pix y) (seq 0 ow)) (seq 0 oh))).
Proof.
  unfold for_range at 1.
  change (repeat 0 (oh * ow * C)) with ([] ++ repeat 0 (oh * ow * C)).
  rewrite rows_loop by (simpl; lia).
  rewrite skipn_all2 by (rewrite repeat_length; lia).
  now rewrite app_nil_r.
Qed.

End FillLoop.

(** ** Windows and the convolution primitive *)

Lemma out_extent_Z (n k : nat) (s : Z) :
  (k <= n)%nat -> 0 < s ->
  (Z.of_nat n - Z.of_nat k) / s + 1
  = Z.of_nat (out_extent n k (Z.to_nat s)).
Proof.
  intros Hk Hs. unfold out_extent.
  rewrite Nat2Z.inj_add, Nat2Z.inj_div, Nat2Z.inj_sub by assumption.
  rewrite Z2Nat.id by lia. reflexivity.
Qed.

Lemma window_fits (n k s y : nat) :
  (k <= n)%nat -> (0 < s)%nat -> (y < out_extent n k s)%nat ->
  (y * s + k <= n)%nat.
Proof.
  intros Hk Hs Hy. unfold out_extent in Hy.
  assert (y <= (n - k) / s)%nat by lia.
  pose proof (Nat.Div0.mul_div_le (n - k) s).
  assert (y * s <= s * ((n - k) / s))%nat by nia.
  lia.
Qed.

Lemma slice_region_window (self : ConvFilter.t) (image : ndarray)
  (H W C KH KW y x : nat) :
  shape image = [H; W; C] ->
  ConvFilter.kernel_height self = 2 * ConvFilter.radius_y self + 1 ->
  ConvFilter.kernel_width self = 2 * ConvFilter.radius_x self + 1 ->
  ConvFilter.kernel_height self = Z.of_nat KH ->
  ConvFilter.kernel_width self = Z.of_nat KW ->
  0 < ConvFilter.stride_y self -> 0 < ConvFilter.stride_x self ->
  (y * Z.to_nat (ConvFilter.stride_y self) + KH <= H)%nat ->
  (x * Z.to_nat (ConvFilter.stride_x self) + KW <= W)%nat ->
  slice_region image
    (Z.of_nat y * ConvFilter.stride_y self + ConvFilter.radius_y self
     - ConvFilter.radius_y self)
    (Z.of_nat y * ConvFilter.stride_y self + ConvFilter.radius_y self
     + ConvFilter.radius_y self + 1)
    (Z.of_nat x * ConvFilter.stride_x self + ConvFilter.radius_x self
     - ConvFilter.radius_x self)
    (Z.of_nat x * ConvFilter.stride_x self + ConvFilter.radius_x self
     + ConvFilter.radius_x self + 1)
  = array3 (dtype image) KH KW C
      (fun k l c =>
         get3 image (y * Z.to_nat (ConvFilter.stride_y self) + k)
                    (x * Z.to_nat (ConvFilter.stride_x self) + l) c).
Proof.
  intros Hs Hry Hrx Hkh Hkw Hsy Hsx Hy Hx.
  unfold slice_region. rewrite Hs.
  assert (Bound : forall (n i s K : nat) (sz r : Z),
            0 < sz -> s = Z.to_nat sz -> Z.of_nat K = 2 * r + 1 ->
            (i * s + K <= n)%nat ->
            slice_bound n (Z.of_nat i * sz + r - r) = (i * s)%nat
            /\ slice_bound n (Z.of_nat i * sz + r + r + 1) = (i * s + K)%nat).
  { intros n i s K sz r Hsz -> HK Hfit. unfold slice_bound.
    assert (Es : sz = Z.of_nat (Z.to_nat sz)) by (rewrite Z2Nat.id; lia).
    split.
    - replace (Z.of_nat i * sz + r - r <? 0) with false
        by (symmetry; apply Z.ltb_ge; nia).
      replace (Z.of_nat i * sz + r - r) with (Z.of_nat (i * Z.to_nat sz))
        by (rewrite Nat2Z.inj_mul, <- Es; lia).
      rewrite Nat2Z.id. lia.
    - replace (Z.of_nat i * sz + r + r + 1 <? 0) with false
        by (symmetry; apply Z.ltb_ge; nia).
      replace (Z.of_nat i * sz + r + r + 1)
        with (Z.of_nat (i * Z.to_nat sz + K))
        by (rewrite Nat2Z.inj_add, Nat2Z.inj_mul, <- Es; lia).
      rewrite Nat2Z.id. lia. }
  destruct (@Bound H y _ KH _ (ConvFilter.radius_y self) Hsy eq_refl
              ltac:(lia) Hy) as [-> ->].
  destruct (@Bound W x _ KW _ (ConvFilter.radius_x self) Hsx eq_refl
              ltac:(lia) Hx) as [-> ->].
  f_equal; lia.
Qed.





Section DynamicConvolve.

Variable apply_region : DynamicFilter.region_fn.
Variable self : ConvFilter.t.
Variable image : ndarray.
Variables H W C KH KW : nat.

Hypothesis image_shape : shape image = [H; W; C].
Hypothesis centred_y :
  ConvFilter.kernel_height self = 2 * ConvFilter.radius_y self + 1.
Hypothesis centred_x :
  ConvFilter.kernel_width self = 2 * ConvFilter.radius_x self + 1.
Hypothesis height : ConvFilter.kernel_height self = Z.of_nat KH.
Hypothesis width : ConvFilter.kernel_width self = Z.of_nat KW.
Hypothesis stride_y_pos : 0 < ConvFilter.stride_y self.
Hypothesis stride_x_pos : 0 < ConvFilter.stride_x self.
Hypothesis fits_y : (KH <= H)%nat.
Hypothesis fits_x : (KW <= W)%nat.

Let sy := Z.to_nat (ConvFilter.stride_y self).
Let sx := Z.to_nat (ConvFilter.stride_x self).
Let oh := out_extent H KH sy.
Let ow := out_extent W KW sx.

Lemma region_call_window (y x : nat) :
  (y < oh)%nat -> (x < ow)%nat ->
  region_call apply_region self image y x
  = apply_region self (window_at self image C KH KW y x)
      (Z.of_nat y) (Z.of_nat x).
Proof.
  intros Hy Hx. unfold region_call, window_at.
  rewrite (@slice_region_window self image H W C KH KW y x); auto.
  - apply window_fits; [assumption|subst sy; lia|assumption].
  - apply window_fits; [assumption|subst sx; lia|assumption].
Qed.

Lemma convolve_loops :
  DynamicFilter.convolve apply_region self image
  = for_range oh
      (fun y out =>
         for_range ow
           (fun x out =>
              store (region_call apply_region self image) y x out) out)
      (float_out oh ow C (repeat 0 (oh * ow * C))).
Proof.
  unfold DynamicFilter.convolve. rewrite image_shape.
  replace ((ConvFilter.stride_y self =? 0)
           || (ConvFilter.stride_x self =? 0)) with false
    by (symmetry; apply orb_false_intro; apply Z.eqb_neq; lia).
  rewrite height, width.
  rewrite !out_extent_Z by assumption. fold sy sx oh ow.
  unfold np_zeros.
  replace (existsb (fun d => d <? 0)
             [Z.of_nat oh; Z.of_nat ow; Z.of_nat C]) with false
    by (symmetry; simpl; rewrite !orb_false_r, !orb_false_iff;
        repeat split; apply Z.ltb_ge; lia).
  cbn [bind map]. rewrite !Nat2Z.id.
  replace (size_of [oh; ow; C]) with (oh * ow * C)%nat by (simpl; lia).
  reflexivity.
Qed.

(** Every call of the region function succeeds: the output is filled
    pixel by pixel with the clipped values. *)
Lemma convolve_filled (pix : nat -> nat -> list Z) :
  (forall y x, (y < oh)%nat -> (x < ow)%nat ->
     exists value,
       apply_region self (window_at self image C KH KW y x)
         (Z.of_nat y) (Z.of_nat x)
         = Ok value
       /\ pixel_values C (np_clip value 0 255) = Ok (pix y x)) ->
  (forall y x, (y < oh)%nat -> (x < ow)%nat -> length (pix y x) = C) ->
  DynamicFilter.convolve apply_region self image
  = Ok (float_out oh ow C
          (flat_map (fun y => flat_map (pix y) (seq 0 ow)) (seq 0 oh))).
Proof.
  intros Hpix Hlen. rewrite convolve_loops.
  apply fill_loop; [|assumption].
  intros y x Hy Hx. rewrite region_call_window by assumption.
  now apply Hpix.
Qed.


End DynamicConvolve.



(** ** What the filters compute in, and what they return *)

Lemma for_each_invariant (S : Type) (P : S -> Prop)
  (body : nat -> S -> result S) :
  (forall i s s', P s -> body i s = Ok s' -> P s') ->
  forall l s s', P s -> for_each l body s = Ok s' -> P s'.
Proof.
  intros Hbody. induction l as [|i l IH]; intros s s' Hs E; simpl in E.
  - injection E as <-. exact Hs.
  - apply bind_ok in E. destruct E as (s1 & E1 & E2). eauto.
Qed.

Lemma Forall_firstn (A : Type) (P : A -> Prop) (n : nat) (l : list A) :
  Forall P l -> Forall P (firstn n l).
Proof.
  revert n. induction l as [|a l IH]; intros [|n] Hl; simpl; auto.
  inversion Hl; subst. constructor; auto.
Qed.

Lemma Forall_skipn (A : Type) (P : A -> Prop) (n : nat) (l : list A) :
  Forall P l -> Forall P (skipn n l).
Proof.
  revert n. induction l as [|a l IH]; intros [|n] Hl; simpl; auto.
  inversion Hl; subst. auto.
Qed.

Lemma displayable_repeat (v : Z) (n : nat) :
  displayable v -> Forall displayable (repeat v n).
Proof. intros Hv. induction n as [|n IH]; simpl; constructor; assumption. Qed.

Lemma pixel_values_displayable (C : nat) (value : ndarray) (values : list Z) :
  Forall displayable (data value) ->
  pixel_values C value = Ok values -> Forall displayable values.
Proof.
  intros Hv. unfold pixel_values.
  assert (Hhd : displayable (hd 0 (data value))).
  { destruct Hv; simpl; [unfold displayable; lia|assumption]. }
  destruct (rev (shape value)) as [|n leading].
  - intros E; injection E as <-. now apply displayable_repeat.
  - destruct (forallb _ leading); [|discriminate].
    destruct (n =? C)%nat; [intros E; injection E as <-; assumption|].
    destruct (n =? 1)%nat; [|discriminate].
    intros E; injection E as <-. now apply displayable_repeat.
Qed.

Lemma setitem_clipped (out out' value : ndarray) (y x : nat) :
  Forall displayable (data out) ->
  setitem out y x (np_clip value 0 255) = Ok out' ->
  dtype out' = dtype out /\ Forall displayable (data out').
Proof.
  intros Hout. unfold setitem.
  destruct (shape out) as [|H [|W [|C [|? ?]]]]; try discriminate.
  destruct (negb _); [discriminate|].
  intros E. apply bind_ok in E. destruct E as (values & Hv & E).
  injection E as <-. cbn [dtype data]. split; [reflexivity|].
  apply pixel_values_displayable in Hv; [|apply displayable_clip].
  unfold write_at. apply Forall_app. split; [now apply Forall_firstn|].
  apply Forall_app. split; [|now apply Forall_skipn].
  apply Forall_map. eapply Forall_impl; [|exact Hv].
  intros v Hd. now rewrite cast_displayable.
Qed.

(** The programmable-region convolver returns float64 samples, each of
    them displayable, whatever the region function. *)
Lemma dynamic_convolve_output (apply_region : DynamicFilter.region_fn)
  (self : ConvFilter.t) (image out : ndarray) :
  DynamicFilter.convolve apply_region self image = Ok out ->
  dtype out = Float64 /\ Forall displayable (data out).
Proof.
  unfold DynamicFilter.convolve.
  destruct (shape image) as [|H [|W [|C [|? ?]]]]; try discriminate.
  destruct (_ || _)%bool; [discriminate|].
  intros E. apply bind_ok in E. destruct E as (out0 & H0 & E).
  assert (Hzero : dtype out0 = Float64 /\ Forall displayable (data out0)).
  { unfold np_zeros in H0. destruct (existsb _ _); [discriminate|].
    injection H0 as <-. cbn [dtype data]. split; [reflexivity|].
    apply displayable_repeat. unfold displayable; lia. }
  unfold for_range in E.
  refine (@for_each_invariant _
            (fun o => dtype o = Float64 /\ Forall displayable (data o))
            _ _ _ _ _ Hzero E).
  intros y o o' Ho Ey.
  refine (@for_each_invariant _
            (fun o => dtype o = Float64 /\ Forall displayable (data o))
            _ _ _ _ _ Ho Ey).
  intros x s s' [Hd Hs] Ex.
  apply bind_ok in Ex. destruct Ex as (value & _ & Ex).
  destruct (@setitem_clipped _ _ _ _ _ Hs Ex) as [Hd' Hs'].
  split; [congruence|assumption].
Qed.

Lemma sliding_window_view_dtype (image : ndarray) (kh kw : Z) (w : windows) :
  sliding_window_view image kh kw = Ok w -> w_dtype w = dtype image.
Proof.
  unfold sliding_window_view.
  destruct (shape image) as [|H [|W [|C [|? ?]]]]; try discriminate.
  destruct (_ || _)%bool; [discriminate|].
  destruct (_ || _)%bool; [discriminate|].
  intros E; injection E as <-. reflexivity.
Qed.

Lemma strided_dtype (w w' : windows) (sy sx : Z) :
  strided w sy sx = Ok w' -> w_dtype w' = w_dtype w.
Proof.
  unfold strided. destruct (_ || _)%bool; [discriminate|].
  intros E; injection E as <-. reflexivity.
Qed.

Lemma einsum_dtype (w : windows) (v : view3) (out : ndarray) :
  einsum w v = Ok out -> dtype out = result_type (w_dtype w) Int64.
Proof.
  unfold einsum.
  destruct (bdim (w_kh w) (v_rows v)); [|discriminate].
  destruct (bdim (w_kw w) (v_cols v)); [|discriminate].
  destruct (bdim (w_chans w) (v_chans v)); [|discriminate].
  intros E; injection E as <-. reflexivity.
Qed.

Lemma add_scalar_dtype (a b : ndarray) (n : pynum) :
  add_scalar a n = Ok b ->
  dtype b = match n with PyInt _ => dtype a | PyFloat _ => Float64 end.
Proof.
  unfold add_scalar. destruct n as [z|z].
  - destruct (in_range (dtype a) z); [|discriminate].
    intros E; injection E as <-. reflexivity.
  - intros E; injection E as <-. reflexivity.
Qed.

(** One fixed-kernel step returns int64 samples for an integer bias on
    an integer image, and float64 samples for a float bias. *)
Lemma single_filter_dtype (self : ConvFilter.t) (image out : ndarray)
  (k : kernel) :
  StaticFilter._apply_single_filter self image k = Ok out ->
  dtype out = match ConvFilter.bias self with
              | PyInt _ => result_type (dtype image) Int64
              | PyFloat _ => Float64
              end.
Proof.
  unfold StaticFilter._apply_single_filter. intros E.
  apply bind_ok in E. destruct E as (w0 & Hw0 & E).
  apply bind_ok in E. destruct E as (w & Hw & E).
  apply bind_ok in E. destruct E as (v0 & _ & E).
  apply bind_ok in E. destruct E as (v & _ & E).
  apply bind_ok in E. destruct E as (o & Ho & E).
  apply bind_ok in E. destruct E as (o' & Ho' & E).
  injection E as <-. cbn [np_clip dtype].
  rewrite (@add_scalar_dtype _ _ _ Ho'), (@einsum_dtype _ _ _ Ho).
  rewrite (@strided_dtype _ _ _ _ Hw), (@sliding_window_view_dtype _ _ _ _ Hw0).
  reflexivity.
Qed.

(** [Brightness] computes in the dtype of the copy it is given for an
    integer offset, and in float64 for a float offset. *)
Lemma brightness_dtype (self self' : Brightness.t) (image out : ndarray) :
  Brightness.apply self image = (self', Ok out) ->
  dtype out = match Brightness.alpha self with
              | PyInt _ => dtype image
              | PyFloat _ => Float64
              end.
Proof.
  unfold Brightness.apply. intros E. injection E as _ E.
  now apply add_scalar_dtype.
Qed.

(** ** "Preserve extent": what the computed pad achieves *)

Lemma keep_dims_pad_nonneg (s : Z) (H k : nat) :
  0 < s -> (0 < H)%nat -> (0 < k)%nat -> 0 <= keep_dims_pad s H k.
Proof.
  intros Hs HH Hk. unfold keep_dims_pad. apply Z.div_pos; [|lia]. nia.
Qed.

(** When (s - 1) * H + k - s is even the padded axis yields exactly [H]
    output positions: always so for stride 1 and an odd kernel. *)
Lemma keep_dims_extent_even (s : Z) (H k : nat) :
  0 < s -> (0 < H)%nat -> (0 < k)%nat ->
  ((s - 1) * Z.of_nat H + Z.of_nat k - s) mod 2 = 0 ->
  let p := Z.to_nat (keep_dims_pad s H k) in
  out_extent (p + H + p) k (Z.to_nat s) = H.
Proof.
  intros Hs HH Hk Heven p.
  pose proof (@keep_dims_pad_nonneg s H k Hs HH Hk) as Hp.
  assert (E2 : 2 * keep_dims_pad s H k
               = (s - 1) * Z.of_nat H + Z.of_nat k - s).
  { unfold keep_dims_pad.
    pose proof (Z.div_mod ((s - 1) * Z.of_nat H + Z.of_nat k - s) 2).
    lia. }
  assert (Ediff : (p + H + p - k = (H - 1) * Z.to_nat s)%nat).
  { apply Nat2Z.inj. rewrite Nat2Z.inj_mul, Z2Nat.id by lia.
    rewrite Nat2Z.inj_sub by nia.
    subst p. rewrite !Nat2Z.inj_add, Z2Nat.id by lia.
    rewrite Nat2Z.inj_sub by lia. nia. }
  unfold out_extent. rewrite Ediff, Nat.div_mul by lia. lia.
Qed.

(** When it is odd, which needs a stride of at least 2 for an odd
    kernel, the floor loses half a sample of pad on each side and one
    output position is missing. *)
Lemma keep_dims_extent_odd (s : Z) (H k : nat) :
  0 < s -> (1 < H)%nat -> (0 < k)%nat ->
  ((s - 1) * Z.of_nat H + Z.of_nat k - s) mod 2 = 1 ->
  let p := Z.to_nat (keep_dims_pad s H k) in
  out_extent (p + H + p) k (Z.to_nat s) = (H - 1)%nat.
Proof.
  intros Hs HH Hk Hodd p.
  pose proof (@keep_dims_pad_nonneg s H k Hs ltac:(lia) Hk) as Hp.
  assert (E2 : 2 * keep_dims_pad s H k
               = (s - 1) * Z.of_nat H + Z.of_nat k - s - 1).
  { unfold keep_dims_pad.
    pose proof (Z.div_mod ((s - 1) * Z.of_nat H + Z.of_nat k - s) 2).
    lia. }
  assert (Ediff : (p + H + p - k
                   = Z.to_nat s * (H - 2) + (Z.to_nat s - 1))%nat).
  { assert (Hsn : Z.of_nat (Z.to_nat s) = s) by lia.
    assert (Hpn : Z.of_nat p = keep_dims_pad s H k) by (subst p; lia).
    rewrite <- Hpn, <- Hsn in E2. clear Hpn Hp Hodd. clearbody p.
    assert (0 < Z.to_nat s)%nat by lia. clear Hsn Hs.
    generalize dependent (Z.to_nat s). intros sn E2 Hsn. nia. }
  unfold out_extent. rewrite Ediff.
  rewrite <- (Nat.div_unique (Z.to_nat s * (H - 2) + (Z.to_nat s - 1))
             (Z.to_nat s) (H - 2) (Z.to_nat s - 1)) by lia.
  lia.
Qed.

(** The pad of the first call under "preserve extent" is [keep_dims_pad]
    on each axis. *)
Lemma first_call_keep_dims_pad
  (convolve : ConvFilter.t -> ndarray -> result ndarray)
  (self : ConvFilter.t) (image : ndarray) (H W KH KW : nat)
  (rest : list nat) :
  ConvFilter.pad_y self = None -> ConvFilter.pad_x self = None ->
  ConvFilter.keep_dims_with_pad self = true ->
  ConvFilter.kernel_height self = Z.of_nat KH ->
  ConvFilter.kernel_width self = Z.of_nat KW ->
  shape image = H :: W :: rest ->
  ConvFilter.pad_y (fst (ConvFilter.apply convolve self image))
  = Some (keep_dims_pad (ConvFilter.stride_y self) H KH)
  /\ ConvFilter.pad_x (fst (ConvFilter.apply convolve self image))
     = Some (keep_dims_pad (ConvFilter.stride_x self) W KW).
Proof.
  intros Hy Hx Hk Hkh Hkw Hs. unfold ConvFilter.apply, keep_dims_pad.
  rewrite Hy, Hx, Hk, Hs, Hkh, Hkw. split; reflexivity.
Qed.

Example geometry3_constructed (stride : Z) (keep_dims : bool) :
  0 < stride ->
  ConvFilter.__init__ (1, 1) (stride, stride) None (PyFloat 0) (PyFloat 0)
    keep_dims
  = ([], Ok (geometry3 stride keep_dims)).
Proof.
  intros Hs. unfold ConvFilter.__init__, ConvFilter._validate_params.
  cbn [fst snd]. apply Z.ltb_lt in Hs. rewrite Hs. reflexivity.
Qed.

(** C2, the failing input.  A 10x10 RGB image through the fixed-kernel
    filter of a 3x3 kernel built with "preserve extent", stride 2 and no
    explicit pad: the pad is 5, the padded image 20x20, and the output
    9x9, not 10x10. *)
Theorem preserve_extent_stride2_shrinks :
  exists out,
    run_static (StaticFilter.One ones_kernel) preserve_stride2
      (flat_image UInt8 10 10 3 7) = Ok out
    /\ shape (flat_image UInt8 10 10 3 7) = [10; 10; 3]%nat
    /\ shape out = [9; 9; 3]%nat.
Proof.
  eexists. split; [vm_compute; reflexivity|]. split; reflexivity.
Qed.

(** C3, the failing input.  A rank-2 image of 8-bit samples through
    [Brightness(alpha=0)]: the result comes back as int32, the type of
    the internal copy, not as uint8.  The same pixel given with rank 3,
    one channel, comes back with rank 2. *)
Theorem squeezed_result_not_restored :
  BaseFilter.apply_filter {| Brightness.alpha := PyInt 0 |} gray_pixel
  = ({| Brightness.alpha := PyInt 0 |},
     Ok {| dtype := Int32; shape := [1; 1]%nat; data := [10] |})
  /\ dtype gray_pixel = UInt8
  /\ BaseFilter.apply_filter {| Brightness.alpha := PyInt 0 |} gray_pixel3
     = ({| Brightness.alpha := PyInt 0 |},
        Ok {| dtype := Int32; shape := [1; 1]%nat; data := [10] |})
  /\ ndim gray_pixel3 = 3%nat.
Proof. repeat split. Qed.


(** ** Witnesses *)

Lemma apply_filter_displayable_witness :
  BaseFilter.apply_filter {| Brightness.alpha := PyInt 100 |}
    {| dtype := UInt8; shape := [1; 1]%nat; data := [200] |}
  = ({| Brightness.alpha := PyInt 100 |},
     Ok {| dtype := Int32; shape := [1; 1]%nat; data := [255] |})
  /\ Forall displayable [255].
Proof.
  split; [reflexivity|].
  exact (@apply_filter_displayable Brightness.t Brightness.filter
           {| Brightness.alpha := PyInt 100 |}
           {| Brightness.alpha := PyInt 100 |}
           {| dtype := UInt8; shape := [1; 1]%nat; data := [200] |}
           {| dtype := Int32; shape := [1; 1]%nat; data := [255] |}
           eq_refl).
Defined.


Lemma apply_filter_displayable_unless_nan_witness :
  exists result,
    FloatFilter.apply {| Brightness.alpha := PyInt 100 |}
      (astype Int32
         (promoted {| dtype := UInt8; shape := [1; 1]%nat; data := [200] |}))
    = ({| Brightness.alpha := PyInt 100 |}, Ok result)
    /\ (Forall (fun v => v <> NaN) (fdata result) ->
        Forall in_display [of_int 255]).
Proof.
  exact (@apply_filter_displayable_unless_nan Brightness.t
           (@lifted Brightness.t Brightness.filter) zero_where_undefined
           {| Brightness.alpha := PyInt 100 |}
           {| Brightness.alpha := PyInt 100 |}
           {| dtype := UInt8; shape := [1; 1]%nat; data := [200] |}
           {| fdtype := Int32; fshape := [1; 1]%nat;
              fdata := [of_int 255] |}
           eq_refl).
Defined.

Lemma first_call_computes_pad_witness :
  ConvFilter.pad_y
    (fst (ConvFilter.apply (StaticFilter.convolve [ones_kernel])
            (geometry3 2 true) (flat_image Int32 10 10 1 7)))
  = Some 5
  /\ ConvFilter.pad_x
       (fst (ConvFilter.apply (StaticFilter.convolve [ones_kernel])
               (geometry3 2 true) (flat_image Int32 10 10 1 7)))
     = Some 5.
Proof.
  destruct (@first_call_computes_pad (StaticFilter.convolve [ones_kernel])
              (geometry3 2 true) (flat_image Int32 10 10 1 7)
              10%nat 10%nat [1%nat] eq_refl eq_refl eq_refl)
    as (_ & Hscenario & _).
  apply Hscenario; reflexivity.
Defined.

Lemma explicit_pad_wins_witness :
  exists self,
    ConvFilter.__init__ (1, 1) (1, 1) (Some (2, 3)) (PyFloat 0) (PyFloat 0)
      true
    = (["'pad' was provided explicitly; 'keep_dims_with_pad' will be ignored."%string],
       Ok self)
    /\ ConvFilter.pad_y self = Some 2 /\ ConvFilter.pad_x self = Some 3.
Proof.
  destruct (@explicit_pad_wins (1, 1) (1, 1) (2, 3) (PyFloat 0) (PyFloat 0)
              eq_refl) as (self & plain & Hinit & _ & Hy & Hx & _).
  exists self. split; [exact Hinit|]. split; [exact Hy|exact Hx].
Defined.

Lemma misshapen_kernels_rejected_witness :
  exists msg,
    StaticFilter.__init__ (StaticFilter.One even_kernel)
      StaticFilter.default_kwargs
    = ([], Raise (ValueError msg)).
Proof.
  destruct (@misshapen_kernels_rejected (StaticFilter.One even_kernel)
              StaticFilter.default_kwargs
              (or_introl
                 (ex_intro _ even_kernel
                    (conj (or_introl eq_refl) (or_introl eq_refl)))))
    as (msg & _ & Hinit).
  exists msg. exact Hinit.
Defined.

Lemma unit_kernel_rejected_step_identity_witness :
  (exists msg,
     StaticFilter.__init__ (StaticFilter.One unit_kernel) unit_kwargs
     = ([], Raise (ValueError msg)))
  /\ (exists out,
        StaticFilter._apply_single_filter geometry1 rgb_pixel unit_kernel
        = Ok out
        /\ shape out = shape rgb_pixel /\ data out = data rgb_pixel).
Proof.
  split.
  - apply (proj1 unit_kernel_rejected_step_identity
             (StaticFilter.One unit_kernel) unit_kwargs unit_kernel []);
      reflexivity.
  - apply (proj2 unit_kernel_rejected_step_identity
             geometry1 rgb_pixel 1%nat 1%nat 3%nat);
      try reflexivity; try (unfold lt; lia).
    repeat constructor; unfold displayable; lia.
Defined.


(** * Further properties of the code *)

(** ** The geometry and its pad *)

Lemma validate_params_ok (kernel_radius stride : Z * Z)
  (pad : option (Z * Z)) (pad_val bias : pynum) :
  ConvFilter._validate_params kernel_radius stride pad pad_val bias = Ok tt ->
  0 < fst kernel_radius /\ 0 < snd kernel_radius
  /\ 0 < fst stride /\ 0 < snd stride
  /\ match pad with Some p => 0 <= fst p /\ 0 <= snd p | None => True end.
Proof.
  unfold ConvFilter._validate_params.
  destruct ((0 <? fst kernel_radius) && (0 <? snd kernel_radius)) eqn:Er;
    cbn [negb]; [|discriminate].
  destruct ((0 <? fst stride) && (0 <? snd stride)) eqn:Es;
    cbn [negb]; [|discriminate].
  apply andb_prop in Er, Es. destruct Er as [Er1 Er2], Es as [Es1 Es2].
  apply Z.ltb_lt in Er1, Er2, Es1, Es2.
  destruct pad as [p|]; [|intros _; tauto].
  destruct ((0 <=? fst p) && (0 <=? snd p)) eqn:Ep; cbn [negb];
    [|discriminate].
  apply andb_prop in Ep. destruct Ep as [Ep1 Ep2].
  apply Z.leb_le in Ep1, Ep2. intros _. tauto.
Qed.

Lemma init_well_built (kernel_radius stride : Z * Z) (pad : option (Z * Z))
  (pad_val bias : pynum) (keep_dims : bool) (warnings : list string)
  (self : ConvFilter.t) :
  ConvFilter.__init__ kernel_radius stride pad pad_val bias keep_dims
    = (warnings, Ok self) ->
  well_built self.
Proof.
  unfold ConvFilter.__init__.
  destruct (ConvFilter._validate_params kernel_radius stride pad pad_val bias)
    as [[]|e] eqn:Ev; [|discriminate].
  apply validate_params_ok in Ev.
  destruct Ev as (Hr1 & Hr2 & Hs1 & Hs2 & Hp).
  destruct pad as [p|]; intros E; injection E as _ <-;
    unfold well_built; cbn; repeat split; try assumption; tauto.
Qed.

Lemma apply_well_built
  (convolve : ConvFilter.t -> ndarray -> result ndarray)
  (self : ConvFilter.t) (image : ndarray) :
  well_built self -> positive_extents image ->
  well_built (fst (ConvFilter.apply convolve self image)).
Proof.
  intros (Hr1 & Hr2 & Hkh & Hkw & Hs1 & Hs2 & Hp) (H & W & rest & Hs & HH & HW).
  unfold ConvFilter.apply.
  destruct (ConvFilter.pad_y self) as [py|] eqn:Ey.
  { cbn [fst]. unfold well_built. rewrite Ey. tauto. }
  destruct (ConvFilter.pad_x self) as [px|] eqn:Ex; [contradiction|].
  destruct (ConvFilter.keep_dims_with_pad self).
  - rewrite Hs. cbn [fst]. unfold well_built. cbn.
    repeat split; try assumption.
    + apply Z.div_pos; [|lia]. nia.
    + apply Z.div_pos; [|lia]. nia.
  - cbn [fst]. unfold well_built. cbn. repeat split; try assumption; lia.
Qed.

(** X1.  The constructor yields a geometry with positive radii and
    strides, kernel extents 2 * radius + 1, and a pad that is unset on
    both axes or non-negative on both; calls on images of positive
    extents keep all of this, whatever the convolution does. *)
Theorem constructed_geometry_stays_well_built
  (kernel_radius stride : Z * Z) (pad : option (Z * Z))
  (pad_val bias : pynum) (keep_dims : bool) (warnings : list string)
  (self : ConvFilter.t)
  (convolve : ConvFilter.t -> ndarray -> result ndarray)
  (images : list ndarray) :
  ConvFilter.__init__ kernel_radius stride pad pad_val bias keep_dims
    = (warnings, Ok self) ->
  Forall positive_extents images ->
  well_built self
  /\ well_built (fst (ConvFilter.run convolve self images)).
Proof.
  intros Hinit Himages. apply init_well_built in Hinit.
  split; [assumption|].
  revert self Hinit. induction Himages as [|image rest Hi _ IH];
    intros self Hw; cbn [ConvFilter.run fst]; [assumption|].
  pose proof (@apply_well_built convolve self image Hw Hi) as Hw'.
  destruct (ConvFilter.apply convolve self image) as [self' r].
  cbn [fst] in Hw'. specialize (IH self' Hw').
  destruct (ConvFilter.run convolve self' rest) as [self'' rs].
  exact IH.
Qed.

Lemma constructed_geometry_stays_well_built_witness :
  well_built (geometry3 2 true)
  /\ well_built
       (fst (ConvFilter.run (StaticFilter.convolve [ones_kernel])
               (geometry3 2 true) [flat_image Int32 10 10 3 0])).
Proof.
  apply (@constructed_geometry_stays_well_built
           (1, 1) (2, 2) None (PyFloat 0) (PyFloat 0) true []
           (geometry3 2 true) (StaticFilter.convolve [ones_kernel])
           [flat_image Int32 10 10 3 0]).
  - reflexivity.
  - constructor; [|constructor].
    exists 10%nat, 10%nat, [3%nat]. split; [reflexivity|]. lia.
Defined.

Lemma np_pad_samples (image : ndarray) (H W C : nat) (py px v : Z) :
  shape image = [H; W; C] -> 0 <= py -> 0 <= px ->
  exists padded,
    ConvFilter.np_pad image py px v = Ok padded
    /\ dtype padded = dtype image
    /\ shape padded
       = [Z.to_nat py + H + Z.to_nat py; Z.to_nat px + W + Z.to_nat px; C]%nat
    /\ well_formed padded
    /\ (forall y x c, (y < H)%nat -> (x < W)%nat -> (c < C)%nat ->
          get3 padded (Z.to_nat py + y) (Z.to_nat px + x) c = get3 image y x c)
    /\ (forall y x c,
          (y < Z.to_nat py + H + Z.to_nat py)%nat ->
          (x < Z.to_nat px + W + Z.to_nat px)%nat -> (c < C)%nat ->
          on_border (Z.to_nat py) (Z.to_nat px) H W y x ->
          get3 padded y x c = cast (dtype image) v).
Proof.
  intros Hs Hpy Hpx. unfold ConvFilter.np_pad. rewrite Hs.
  replace ((py <? 0) || (px <? 0)) with false
    by (symmetry; apply orb_false_intro; apply Z.ltb_ge; lia).
  eexists. split; [reflexivity|].
  split; [reflexivity|]. split; [reflexivity|].
  split; [|split].
  - unfold well_formed. cbn [array3 data shape size_of fold_right].
    rewrite length_tabulate3. lia.
  - intros y x c Hy Hx Hc. rewrite get3_array3 by lia.
    replace (Z.to_nat py <=? Z.to_nat py + y)%nat with true
      by (symmetry; apply Nat.leb_le; lia).
    replace (Z.to_nat py + y <? Z.to_nat py + H)%nat with true
      by (symmetry; apply Nat.ltb_lt; lia).
    replace (Z.to_nat px <=? Z.to_nat px + x)%nat with true
      by (symmetry; apply Nat.leb_le; lia).
    replace (Z.to_nat px + x <? Z.to_nat px + W)%nat with true
      by (symmetry; apply Nat.ltb_lt; lia).
    cbn [andb]. f_equal; lia.
  - intros y x c Hy Hx Hc Hb. rewrite get3_array3 by lia.
    replace ((Z.to_nat py <=? y)%nat && (y <? Z.to_nat py + H)%nat
             && (Z.to_nat px <=? x)%nat && (x <? Z.to_nat px + W)%nat)
      with false; [reflexivity|].
    symmetry. unfold on_border in Hb.
    rewrite !andb_false_iff, !Nat.leb_gt, !Nat.ltb_ge. lia.
Qed.

(** X2.  With a non-negative pad on the instance, [pad_image] of an
    (H, W, C) image returns an array of the image's dtype and of shape
    (H + 2 pad_y, W + 2 pad_x, C): the image sits at offset (pad_y,
    pad_x), and every sample of the border is the pad value, when the
    image's dtype holds it.  The channel axis is not padded. *)
Theorem pad_image_frames_the_image (self : ConvFilter.t) (image : ndarray)
  (H W C : nat) (py px : Z) :
  ConvFilter.pad_y self = Some py -> ConvFilter.pad_x self = Some px ->
  0 <= py -> 0 <= px ->
  shape image = [H; W; C] ->
  in_range (dtype image) (pynum_val (ConvFilter.pad_val self)) = true ->
  exists padded,
    ConvFilter.pad_image self image = Ok padded
    /\ dtype padded = dtype image
    /\ shape padded
       = [Z.to_nat py + H + Z.to_nat py; Z.to_nat px + W + Z.to_nat px; C]%nat
    /\ well_formed padded
    /\ (forall y x c, (y < H)%nat -> (x < W)%nat -> (c < C)%nat ->
          get3 padded (Z.to_nat py + y) (Z.to_nat px + x) c = get3 image y x c)
    /\ (forall y x c,
          (y < Z.to_nat py + H + Z.to_nat py)%nat ->
          (x < Z.to_nat px + W + Z.to_nat px)%nat -> (c < C)%nat ->
          on_border (Z.to_nat py) (Z.to_nat px) H W y x ->
          get3 padded y x c = pynum_val (ConvFilter.pad_val self)).
Proof.
  intros Hy Hx Hpy Hpx Hs Hfit. unfold ConvFilter.pad_image.
  rewrite Hy, Hx.
  destruct (@np_pad_samples image H W C py px
              (pynum_val (ConvFilter.pad_val self)) Hs Hpy Hpx)
    as (padded & E & Hd & Hsh & Hwf & Hin & Hout).
  exists padded. rewrite (cast_in_range _ _ Hfit) in Hout. tauto.
Qed.

Lemma pad_image_frames_the_image_witness :
  exists padded,
    ConvFilter.pad_image
      (ConvFilter.with_pad (geometry3 1 false) (Some 1) (Some 2))
      rgb_pixel = Ok padded
    /\ shape padded = [3; 5; 3]%nat.
Proof.
  destruct (@pad_image_frames_the_image
              (ConvFilter.with_pad (geometry3 1 false) (Some 1) (Some 2))
              rgb_pixel 1 1 3 1 2 eq_refl eq_refl ltac:(lia) ltac:(lia)
              eq_refl eq_refl)
    as (padded & E & _ & Hs & _).
  exists padded. split; [exact E|exact Hs].
Defined.

Lemma out_extent_stride1 (n k : nat) :
  (k <= n)%nat -> out_extent n k 1 = (n - k + 1)%nat.
Proof. intros _. unfold out_extent. now rewrite Nat.div_1_r. Qed.

(** X3.  A programmable-region filter whose pad equals its radius, with
    stride 1: the output has the extents of the image, the loops call
    the region function once per pixel, and the window handed over at
    (y, x) has the image's sample (y, x) at its centre
    [radius_y, radius_x]. *)
Theorem region_centred_on_pixel (apply_region : DynamicFilter.region_fn)
  (self : ConvFilter.t) (image : ndarray) (H W C : nat) :
  shape image = [H; W; C] -> (0 < H)%nat -> (0 < W)%nat ->
  0 <= ConvFilter.radius_y self -> 0 <= ConvFilter.radius_x self ->
  ConvFilter.kernel_height self = 2 * ConvFilter.radius_y self + 1 ->
  ConvFilter.kernel_width self = 2 * ConvFilter.radius_x self + 1 ->
  ConvFilter.stride_y self = 1 -> ConvFilter.stride_x self = 1 ->
  ConvFilter.pad_y self = Some (ConvFilter.radius_y self) ->
  ConvFilter.pad_x self = Some (ConvFilter.radius_x self) ->
  let KH := Z.to_nat (ConvFilter.kernel_height self) in
  let KW := Z.to_nat (ConvFilter.kernel_width self) in
  exists padded,
    ConvFilter.pad_image self image = Ok padded
    /\ DynamicFilter.convolve apply_region self padded
       = for_range H
           (fun y out =>
              for_range W
                (fun x out =>
                   store (region_call apply_region self padded) y x out) out)
           (float_out H W C (repeat 0 (H * W * C)))
    /\ forall y x, (y < H)%nat -> (x < W)%nat ->
         region_call apply_region self padded y x
         = apply_region self (window_at self padded C KH KW y x)
             (Z.of_nat y) (Z.of_nat x)
         /\ forall c, (c < C)%nat ->
              get3 (window_at self padded C KH KW y x)
                (Z.to_nat (ConvFilter.radius_y self))
                (Z.to_nat (ConvFilter.radius_x self)) c
              = get3 image y x c.
Proof.
  intros Hs HH HW Hry Hrx Hkh Hkw Hsy Hsx Hpy Hpx KH KW.
  unfold ConvFilter.pad_image. rewrite Hpy, Hpx.
  unfold ConvFilter.np_pad. rewrite Hs.
  replace ((ConvFilter.radius_y self <? 0) || (ConvFilter.radius_x self <? 0))
    with false by (symmetry; apply orb_false_intro; apply Z.ltb_ge; lia).
  set (ry := Z.to_nat (ConvFilter.radius_y self)).
  set (rx := Z.to_nat (ConvFilter.radius_x self)).
  eexists. split; [reflexivity|].
  match goal with |- context [DynamicFilter.convolve _ _ ?p] =>
    set (padded := p) end.
  assert (HKH : KH = (2 * ry + 1)%nat) by (subst KH ry; lia).
  assert (HKW : KW = (2 * rx + 1)%nat) by (subst KW rx; lia).
  assert (Hps : shape padded = [ry + H + ry; rx + W + rx; C]%nat)
    by reflexivity.
  assert (Hh : ConvFilter.kernel_height self = Z.of_nat KH)
    by (subst KH; lia).
  assert (Hw : ConvFilter.kernel_width self = Z.of_nat KW)
    by (subst KW; lia).
  assert (Hoh : out_extent (ry + H + ry) KH
                  (Z.to_nat (ConvFilter.stride_y self)) = H).
  { rewrite Hsy. change (Z.to_nat 1) with 1%nat.
    rewrite out_extent_stride1 by lia. lia. }
  assert (How : out_extent (rx + W + rx) KW
                  (Z.to_nat (ConvFilter.stride_x self)) = W).
  { rewrite Hsx. change (Z.to_nat 1) with 1%nat.
    rewrite out_extent_stride1 by lia. lia. }
  split.
  - rewrite (@convolve_loops apply_region self padded _ _ C KH KW Hps Hh Hw)
      by lia.
    now rewrite Hoh, How.
  - intros y x Hy Hx. split.
    + apply (@region_call_window apply_region self padded _ _ C KH KW
               Hps Hkh Hkw Hh Hw); lia.
    + intros c Hc. unfold window_at. rewrite get3_array3 by lia.
      rewrite Hsy, Hsx. change (Z.to_nat 1) with 1%nat.
      rewrite !Nat.mul_1_r. subst padded. rewrite get3_array3 by lia.
      replace (ry <=? y + ry)%nat with true
        by (symmetry; apply Nat.leb_le; lia).
      replace (y + ry <? ry + H)%nat with true
        by (symmetry; apply Nat.ltb_lt; lia).
      replace (rx <=? x + rx)%nat with true
        by (symmetry; apply Nat.leb_le; lia).
      replace (x + rx <? rx + W)%nat with true
        by (symmetry; apply Nat.ltb_lt; lia).
      cbn [andb]. f_equal; lia.
Qed.

Lemma region_centred_on_pixel_witness :
  exists padded,
    ConvFilter.pad_image
      (ConvFilter.with_pad (geometry3 1 false) (Some 1) (Some 1)) rgb_pixel
    = Ok padded
    /\ get3 (window_at
               (ConvFilter.with_pad (geometry3 1 false) (Some 1) (Some 1))
               padded 3 3 3 0 0) 1 1 2 = 30.
Proof.
  destruct (@region_centred_on_pixel
              (DynamicFilter.convolution_region ones_kernel)
              (ConvFilter.with_pad (geometry3 1 false) (Some 1) (Some 1))
              rgb_pixel 1 1 3 eq_refl ltac:(lia) ltac:(lia)
              ltac:(simpl; lia) ltac:(simpl; lia)
              eq_refl eq_refl eq_refl eq_refl eq_refl eq_refl)
    as (padded & E & _ & Hc).
  exists padded. split; [exact E|].
  destruct (Hc 0%nat 0%nat ltac:(lia) ltac:(lia)) as [_ Hcentre].
  exact (Hcentre 2%nat ltac:(lia)).
Defined.

(** X4.  A first call that fails in [np.pad] (the image is not 3-D) has
    already assigned the pad: the instance keeps the pad computed from
    the rejected image, and every later call pads with it. *)
Theorem failed_first_call_fixes_pad
  (convolve : ConvFilter.t -> ndarray -> result ndarray)
  (self : ConvFilter.t) (image : ndarray) (H W : nat) (rest : list nat) :
  ConvFilter.pad_y self = None -> ConvFilter.pad_x self = None ->
  shape image = H :: W :: rest -> length rest <> 1%nat ->
  let py := if ConvFilter.keep_dims_with_pad self
            then ((ConvFilter.stride_y self - 1) * Z.of_nat H
                  + ConvFilter.kernel_height self
                  - ConvFilter.stride_y self) / 2
            else 0 in
  let px := if ConvFilter.keep_dims_with_pad self
            then ((ConvFilter.stride_x self - 1) * Z.of_nat W
                  + ConvFilter.kernel_width self
                  - ConvFilter.stride_x self) / 2
            else 0 in
  let self' := ConvFilter.with_pad self (Some py) (Some px) in
  (exists msg,
     ConvFilter.apply convolve self image = (self', Raise (ValueError msg)))
  /\ forall later,
       ConvFilter.apply convolve self' later
       = (self', padded_call convolve self' later).
Proof.
  intros Hy Hx Hs Hrest py px self'. split.
  - unfold ConvFilter.apply. rewrite Hy, Hx, Hs.
    assert (Hpad : forall p q,
              exists msg,
                ConvFilter.pad_image
                  (ConvFilter.with_pad self (Some p) (Some q)) image
                = Raise (ValueError msg)).
    { intros p q. unfold ConvFilter.pad_image, ConvFilter.np_pad.
      cbn [ConvFilter.with_pad ConvFilter.pad_y ConvFilter.pad_x].
      rewrite Hs. destruct rest as [|c [|? ?]]; eauto.
      simpl in Hrest. lia. }
    subst self' py px.
    destruct (ConvFilter.keep_dims_with_pad self).
    + destruct (Hpad
        (((ConvFilter.stride_y self - 1) * Z.of_nat H
          + ConvFilter.kernel_height self - ConvFilter.stride_y self) / 2)
        (((ConvFilter.stride_x self - 1) * Z.of_nat W
          + ConvFilter.kernel_width self - ConvFilter.stride_x self) / 2))
        as [msg ->].
      exists msg. reflexivity.
    + destruct (Hpad 0 0) as [msg ->]. exists msg. reflexivity.
  - intros later. now apply (@apply_with_pad convolve self' py px).
Qed.

Lemma failed_first_call_fixes_pad_witness :
  (exists msg,
     ConvFilter.apply (StaticFilter.convolve [ones_kernel])
       (geometry3 2 true)
       {| dtype := Int32; shape := [10; 10]%nat; data := repeat 0 100 |}
     = (ConvFilter.with_pad (geometry3 2 true) (Some 5) (Some 5),
        Raise (ValueError msg))).
Proof.
  exact (proj1 (@failed_first_call_fixes_pad
                  (StaticFilter.convolve [ones_kernel]) (geometry3 2 true)
                  {| dtype := Int32; shape := [10; 10]%nat;
                     data := repeat 0 100 |}
                  10 10 [] eq_refl eq_refl eq_refl ltac:(simpl; lia))).
Defined.

(** ** Kernel validation and the fixed-kernel constructor *)

Lemma validate_each_shaped (rows cols : nat) :
  forall ks,
    (forall k, In k ks ->
       exists ch, kshape k = [rows; cols; ch] /\ (ch = 1 \/ ch = 3)%nat) ->
    StaticFilter.validate_each [rows; cols] ks = Ok tt.
Proof.
  induction ks as [|k rest IH]; intros Hall;
    cbn [StaticFilter.validate_each]; [reflexivity|].
  destruct (Hall k (or_introl eq_refl)) as (ch & Hk & Hch).
  rewrite Hk. cbn [length firstn nth Nat.eqb negb shape_eqb].
  rewrite !Nat.eqb_refl. cbn [andb negb].
  replace ((ch =? 1) || (ch =? 3))%nat with true
    by (symmetry; destruct Hch as [-> | ->]; reflexivity).
  cbn [negb]. apply IH. intros k' Hin. apply Hall. now right.
Qed.

Lemma mod2_cases (n : nat) : (n mod 2 = 0 \/ n mod 2 = 1)%nat.
Proof. pose proof (Nat.mod_upper_bound n 2). lia. Qed.

Lemma validate_kernels_iff (ks : list kernel) :
  StaticFilter._validate_kernels ks = Ok tt <-> well_shaped ks.
Proof.
  split.
  - intros E.
    destruct (validate_kernels_ok _ E) as (rows & cols & Hr & Hc & Hall).
    split; [intros ->; discriminate|].
    exists rows, cols.
    split; [destruct (mod2_cases rows); [contradiction|assumption]|].
    split; [destruct (mod2_cases cols); [contradiction|assumption]|].
    intros k Hin. destruct (Hall k Hin) as (Hkr & Hkc & Hch).
    assert (Hlen : length (kshape k) = 3%nat).
    { unfold StaticFilter._validate_kernels in E.
      destruct ks as [|k0 rest0]; [discriminate|].
      destruct (negb (length (kshape k0) =? 3)%nat); [discriminate|].
      destruct (_ || _)%bool; [discriminate|].
      exact (proj1 (validate_each_ok _ _ E k Hin)). }
    unfold kernel_rows, kernel_cols, kernel_chans in *.
    destruct (kshape k) as [|a [|b [|c [|? ?]]]]; try discriminate.
    cbn [nth] in *. exists c. subst. auto.
  - intros (Hne & rows & cols & Hr & Hc & Hall).
    unfold StaticFilter._validate_kernels.
    destruct ks as [|k0 rest]; [congruence|].
    destruct (Hall k0 (or_introl eq_refl)) as (ch & Hk & _).
    rewrite Hk. cbn [length Nat.eqb negb firstn nth].
    rewrite Hr, Hc. cbn [Nat.eqb orb].
    now apply validate_each_shaped.
Qed.

(** X5.  [_validate_kernels] accepts a kernel list exactly when it is
    not empty and its kernels are all 3-D, of one common (rows, cols)
    with both extents odd, each with 1 or 3 channels; every other list
    raises a [ValueError]. *)
Theorem validate_kernels_accepts_iff (ks : list kernel) :
  (StaticFilter._validate_kernels ks = Ok tt <-> well_shaped ks)
  /\ (~ well_shaped ks ->
      exists msg,
        StaticFilter._validate_kernels ks = Raise (ValueError msg)).
Proof.
  split; [apply validate_kernels_iff|].
  intros Hbad.
  destruct (StaticFilter._validate_kernels ks) as [[]|e] eqn:E.
  - apply validate_kernels_iff in E. contradiction.
  - destruct (validate_kernels_raises _ E) as [msg ->]. eauto.
Qed.

Lemma radius_eqb_eq (a b : Z * Z) : StaticFilter.radius_eqb a b = true <-> a = b.
Proof.
  unfold StaticFilter.radius_eqb. destruct a as [a1 a2], b as [b1 b2].
  cbn [fst snd]. rewrite andb_true_iff, !Z.eqb_eq.
  split; [intros [-> ->]; reflexivity|intros E; injection E; auto].
Qed.

Lemma validate_params_iff (kernel_radius stride : Z * Z)
  (pad : option (Z * Z)) (pad_val bias : pynum) :
  ConvFilter._validate_params kernel_radius stride pad pad_val bias = Ok tt
  <-> (0 < fst kernel_radius /\ 0 < snd kernel_radius
       /\ 0 < fst stride /\ 0 < snd stride
       /\ match pad with
          | Some p => 0 <= fst p /\ 0 <= snd p
          | None => True
          end).
Proof.
  split; [apply validate_params_ok|].
  intros (Hr1 & Hr2 & Hs1 & Hs2 & Hp). unfold ConvFilter._validate_params.
  apply Z.ltb_lt in Hr1, Hr2, Hs1, Hs2. rewrite Hr1, Hr2, Hs1, Hs2.
  cbn [andb negb]. destruct pad as [p|]; [|reflexivity].
  destruct Hp as [Hp1 Hp2]. apply Z.leb_le in Hp1, Hp2.
  now rewrite Hp1, Hp2.
Qed.

Lemma odd_half (n : nat) : (n mod 2 = 1)%nat ->
  2 * (Z.of_nat n / 2) + 1 = Z.of_nat n.
Proof.
  intros Hodd.
  assert (Hz : Z.of_nat n mod 2 = 1).
  { change 2 with (Z.of_nat 2). rewrite <- Nat2Z.inj_mod. lia. }
  pose proof (Z.div_mod (Z.of_nat n) 2 ltac:(lia)). lia.
Qed.

Lemma odd_radius_pos (n : nat) :
  (n mod 2 = 1)%nat -> 0 < Z.of_nat n / 2 -> (3 <= n)%nat.
Proof.
  destruct n as [|[|[|n]]]; intros Hodd Hpos; try discriminate. lia.
Qed.

Lemma conv_init_fields (kernel_radius stride : Z * Z)
  (pad : option (Z * Z)) (pad_val bias : pynum) (keep_dims : bool)
  (warnings : list string) (self : ConvFilter.t) :
  ConvFilter.__init__ kernel_radius stride pad pad_val bias keep_dims
    = (warnings, Ok self) ->
  ConvFilter.kernel_height self = 2 * fst kernel_radius + 1
  /\ ConvFilter.kernel_width self = 2 * snd kernel_radius + 1
  /\ ConvFilter.stride_y self = fst stride
  /\ ConvFilter.stride_x self = snd stride
  /\ ConvFilter.bias self = bias
  /\ ConvFilter.pad_val self = pad_val
  /\ ConvFilter.keep_dims_with_pad self = keep_dims
  /\ ConvFilter.pad_y self = option_map fst pad
  /\ ConvFilter.pad_x self = option_map snd pad.
Proof.
  unfold ConvFilter.__init__.
  destruct (ConvFilter._validate_params kernel_radius stride pad pad_val bias)
    as [[]|e]; [|discriminate].
  destruct pad as [p|]; intros E; injection E as _ <-;
    repeat split; reflexivity.
Qed.

(** The outcome of the constructor on acceptable arguments. *)
Lemma static_init_accepts (kernels : StaticFilter.kernels_arg)
  (kw : StaticFilter.kwargs) (rows cols : nat) :
  StaticFilter.kernel_list kernels <> [] ->
  (rows mod 2 = 1)%nat -> (cols mod 2 = 1)%nat ->
  (3 <= rows)%nat -> (3 <= cols)%nat ->
  (forall k, In k (StaticFilter.kernel_list kernels) ->
     exists ch, kshape k = [rows; cols; ch] /\ (ch = 1 \/ ch = 3)%nat) ->
  (StaticFilter.kernel_radius kw = None
   \/ StaticFilter.kernel_radius kw
      = Some (Z.of_nat rows / 2, Z.of_nat cols / 2)) ->
  0 < fst (StaticFilter.stride kw) -> 0 < snd (StaticFilter.stride kw) ->
  match StaticFilter.pad kw with
  | Some p => 0 <= fst p /\ 0 <= snd p
  | None => True
  end ->
  StaticFilter.__init__ kernels kw
  = (fst (ConvFilter.__init__ (Z.of_nat rows / 2, Z.of_nat cols / 2)
            (StaticFilter.stride kw) (StaticFilter.pad kw)
            (StaticFilter.pad_val kw) (StaticFilter.bias kw)
            (StaticFilter.keep_dims kw)),
     conv <- snd (ConvFilter.__init__
                    (Z.of_nat rows / 2, Z.of_nat cols / 2)
                    (StaticFilter.stride kw) (StaticFilter.pad kw)
                    (StaticFilter.pad_val kw) (StaticFilter.bias kw)
                    (StaticFilter.keep_dims kw)) ;;
     Ok {| StaticFilter.conv := conv;
           StaticFilter.kernels := StaticFilter.kernel_list kernels |})
  /\ is_ok (snd (ConvFilter.__init__
                   (Z.of_nat rows / 2, Z.of_nat cols / 2)
                   (StaticFilter.stride kw) (StaticFilter.pad kw)
                   (StaticFilter.pad_val kw) (StaticFilter.bias kw)
                   (StaticFilter.keep_dims kw))) = true.
Proof.
  intros Hne Hr Hc Hr3 Hc3 Hall Hrad Hs1 Hs2 Hp.
  assert (Hv : StaticFilter._validate_kernels (StaticFilter.kernel_list kernels)
               = Ok tt).
  { apply validate_kernels_iff. split; [assumption|]. exists rows, cols. auto. }
  unfold StaticFilter.__init__. rewrite Hv.
  destruct (StaticFilter.kernel_list kernels) as [|k0 rest] eqn:Eks;
    [congruence|].
  destruct (Hall k0 (or_introl eq_refl)) as (ch & Hk & _).
  rewrite Hk. cbn [nth].
  replace (match StaticFilter.kernel_radius kw with
           | Some r => r
           | None => (Z.of_nat rows / 2, Z.of_nat cols / 2)
           end) with (Z.of_nat rows / 2, Z.of_nat cols / 2)
    by (destruct Hrad as [-> | ->]; reflexivity).
  replace (StaticFilter.radius_eqb _ _) with true
    by (symmetry; now apply radius_eqb_eq).
  cbn [negb].
  assert (Hparams :
    ConvFilter._validate_params (Z.of_nat rows / 2, Z.of_nat cols / 2)
      (StaticFilter.stride kw) (StaticFilter.pad kw)
      (StaticFilter.pad_val kw) (StaticFilter.bias kw) = Ok tt).
  { apply validate_params_iff. cbn [fst snd].
    assert (0 < Z.of_nat rows / 2) by (apply Z.div_str_pos; lia).
    assert (0 < Z.of_nat cols / 2) by (apply Z.div_str_pos; lia).
    tauto. }
  unfold ConvFilter.__init__. rewrite Hparams.
  destruct (StaticFilter.pad kw); split; reflexivity.
Qed.

Lemma static_init_ok_acceptable (kernels : StaticFilter.kernels_arg)
  (kw : StaticFilter.kwargs) :
  is_ok (snd (StaticFilter.__init__ kernels kw)) = true ->
  acceptable (StaticFilter.kernel_list kernels) kw.
Proof.
  unfold StaticFilter.__init__.
  destruct (StaticFilter._validate_kernels (StaticFilter.kernel_list kernels))
    as [[]|e] eqn:Ev; [|discriminate].
  apply validate_kernels_iff in Ev.
  destruct Ev as (Hne & rows & cols & Hr & Hc & Hall).
  destruct (StaticFilter.kernel_list kernels) as [|k0 rest] eqn:Eks;
    [congruence|].
  destruct (Hall k0 (or_introl eq_refl)) as (ch & Hk & _).
  rewrite Hk. cbn [nth].
  destruct (StaticFilter.radius_eqb _ _) eqn:Er; cbn [negb];
    [|discriminate].
  apply radius_eqb_eq in Er.
  unfold ConvFilter.__init__.
  destruct (ConvFilter._validate_params _ _ _ _ _) as [[]|e] eqn:Ep;
    [|discriminate].
  intros _. apply validate_params_iff in Ep. rewrite Er in Ep.
  cbn [fst snd] in Ep. destruct Ep as (Hr1 & Hr2 & Hs1 & Hs2 & Hp).
  exists rows, cols.
  pose proof (@odd_radius_pos rows Hr Hr1).
  pose proof (@odd_radius_pos cols Hc Hr2).
  split; [discriminate|].
  repeat (split; [assumption|]).
  split; [|tauto].
  destruct (StaticFilter.kernel_radius kw) as [r|]; [right|now left].
  now rewrite Er.
Qed.

(** X6.  [StaticFilter(kernels, ...)] is built exactly for acceptable
    arguments: in particular kernels of extent 1 are refused (their
    radius is 0), and so is a [kernel_radius] other than
    (rows // 2, cols // 2). *)
Theorem static_init_succeeds_iff (kernels : StaticFilter.kernels_arg)
  (kw : StaticFilter.kwargs) :
  is_ok (snd (StaticFilter.__init__ kernels kw)) = true
  <-> acceptable (StaticFilter.kernel_list kernels) kw.
Proof.
  split; [apply static_init_ok_acceptable|].
  intros (rows & cols & Hne & Hr & Hc & Hr3 & Hc3 & Hall & Hrad
          & Hs1 & Hs2 & Hp).
  destruct (@static_init_accepts kernels kw rows cols Hne Hr Hc Hr3 Hc3
              Hall Hrad Hs1 Hs2 Hp) as [-> Hok].
  cbn [snd].
  destruct (snd (ConvFilter.__init__ _ _ _ _ _ _)); [reflexivity|discriminate].
Qed.

(** X7.  In a constructed [StaticFilter] the geometry agrees with the
    kernels: every registered kernel has [kernel_height] rows and
    [kernel_width] columns (the extents are odd, so 2 * (rows // 2) + 1
    gives rows back), the geometry is well built, and stride, bias, pad
    value, flag and pad are the arguments' own. *)
Theorem constructed_static_filter_agrees (kernels : StaticFilter.kernels_arg)
  (kw : StaticFilter.kwargs) (warnings : list string) (f : StaticFilter.t) :
  StaticFilter.__init__ kernels kw = (warnings, Ok f) ->
  StaticFilter.kernels f = StaticFilter.kernel_list kernels
  /\ well_built (StaticFilter.conv f)
  /\ (forall k, In k (StaticFilter.kernels f) ->
        exists ch,
          kshape k
          = [Z.to_nat (ConvFilter.kernel_height (StaticFilter.conv f));
             Z.to_nat (ConvFilter.kernel_width (StaticFilter.conv f)); ch]
          /\ (ch = 1 \/ ch = 3)%nat)
  /\ (ConvFilter.stride_y (StaticFilter.conv f),
      ConvFilter.stride_x (StaticFilter.conv f)) = StaticFilter.stride kw
  /\ ConvFilter.bias (StaticFilter.conv f) = StaticFilter.bias kw
  /\ ConvFilter.pad_val (StaticFilter.conv f) = StaticFilter.pad_val kw
  /\ ConvFilter.keep_dims_with_pad (StaticFilter.conv f)
     = StaticFilter.keep_dims kw
  /\ ConvFilter.pad_y (StaticFilter.conv f)
     = option_map fst (StaticFilter.pad kw)
  /\ ConvFilter.pad_x (StaticFilter.conv f)
     = option_map snd (StaticFilter.pad kw).
Proof.
  intros E.
  assert (Hok : is_ok (snd (StaticFilter.__init__ kernels kw)) = true)
    by now rewrite E.
  unfold StaticFilter.__init__ in Hok, E.
  destruct (StaticFilter._validate_kernels (StaticFilter.kernel_list kernels))
    as [[]|e] eqn:Ev; [|discriminate].
  apply validate_kernels_iff in Ev.
  destruct Ev as (Hne & rows & cols & Hr & Hc & Hall).
  destruct (StaticFilter.kernel_list kernels) as [|k0 rest] eqn:Eks;
    [congruence|].
  destruct (Hall k0 (or_introl eq_refl)) as (ch & Hk & _).
  rewrite Hk in E, Hok. cbn [nth] in E, Hok.
  destruct (StaticFilter.radius_eqb _ _) eqn:Er; cbn [negb] in E, Hok;
    [|discriminate].
  apply radius_eqb_eq in Er. rewrite Er in E. clear Hok.
  destruct (ConvFilter.__init__ _ _ _ _ _ _) as [w r] eqn:Ec.
  destruct r as [conv|e]; [|discriminate].
  injection E as _ <-. cbn [StaticFilter.kernels StaticFilter.conv].
  pose proof (init_well_built _ _ _ _ _ _ Ec) as Hwb.
  destruct (conv_init_fields _ _ _ _ _ _ Ec)
    as (Hkh & Hkw & Hsy & Hsx & Hfields).
  cbn [fst snd] in Hkh, Hkw. rewrite odd_half in Hkh, Hkw by assumption.
  assert (Hstride : (ConvFilter.stride_y conv, ConvFilter.stride_x conv)
                    = StaticFilter.stride kw)
    by (rewrite Hsy, Hsx; now destruct (StaticFilter.stride kw)).
  split; [reflexivity|]. split; [assumption|].
  split; [|split; [exact Hstride|exact Hfields]].
  intros k Hin. rewrite Hkh, Hkw, !Nat2Z.id. now apply Hall.
Qed.

Lemma constructed_static_filter_agrees_witness :
  exists f,
    StaticFilter.__init__ (StaticFilter.One ones_kernel) preserve_stride2
    = ([], Ok f)
    /\ ConvFilter.kernel_height (StaticFilter.conv f) = 3.
Proof.
  eexists. split; [reflexivity|].
  destruct (@constructed_static_filter_agrees
              (StaticFilter.One ones_kernel) preserve_stride2 [] _ eq_refl)
    as (_ & (_ & _ & Hkh & _) & _).
  exact Hkh.
Defined.

(** ** Chains of kernels *)

Lemma result_type_int64_idem (d : np_dtype) :
  result_type (result_type d Int64) Int64 = result_type d Int64.
Proof. now destruct d. Qed.

Lemma in_range_result_type (d : np_dtype) (z : Z) :
  in_range Int64 z = true -> in_range (result_type d Int64) z = true.
Proof. now destruct d. Qed.

(** One fixed-kernel step on an image the kernel fits. *)
Lemma single_filter_returns (self : ConvFilter.t) (image : ndarray)
  (k : kernel) (H W C KH KW Ck : nat) :
  shape image = [H; W; C] -> kshape k = [KH; KW; Ck] ->
  ConvFilter.kernel_height self = Z.of_nat KH ->
  ConvFilter.kernel_width self = Z.of_nat KW ->
  0 < ConvFilter.stride_y self -> 0 < ConvFilter.stride_x self ->
  (KH <= H)%nat -> (KW <= W)%nat -> Ck = 1%nat \/ Ck = C ->
  bias_fits (ConvFilter.bias self) ->
  exists out,
    StaticFilter._apply_single_filter self image k = Ok out
    /\ shape out
       = [out_extent H KH (Z.to_nat (ConvFilter.stride_y self));
          out_extent W KW (Z.to_nat (ConvFilter.stride_x self)); C].
Proof.
  intros Hs Hk Hkh Hkw Hsy Hsx HH HW HC Hb.
  rewrite (@single_filter_closed_form self image k H W C KH KW Ck)
    by assumption.
  unfold add_scalar, bias_fits in *.
  destruct (ConvFilter.bias self) as [z|z].
  - cbn [array3 dtype]. rewrite in_range_result_type by assumption.
    cbn [bind]. eexists. split; reflexivity.
  - cbn [bind]. eexists. split; reflexivity.
Qed.

(** One fixed-kernel step on an image smaller than the kernel. *)
Lemma single_filter_too_small (self : ConvFilter.t) (image : ndarray)
  (k : kernel) (H W C KH KW : nat) :
  shape image = [H; W; C] ->
  ConvFilter.kernel_height self = Z.of_nat KH ->
  ConvFilter.kernel_width self = Z.of_nat KW ->
  (H < KH \/ W < KW)%nat ->
  StaticFilter._apply_single_filter self image k
  = Raise (ValueError "window shape cannot be larger than input array shape").
Proof.
  intros Hs Hkh Hkw Hsmall.
  unfold StaticFilter._apply_single_filter, sliding_window_view.
  rewrite Hs, Hkh, Hkw.
  replace ((Z.of_nat KH <? 0) || (Z.of_nat KW <? 0)) with false
    by (symmetry; apply orb_false_intro; apply Z.ltb_ge; lia).
  replace ((Z.of_nat H <? Z.of_nat KH) || (Z.of_nat W <? Z.of_nat KW))
    with true; [reflexivity|].
  symmetry. apply orb_true_iff. rewrite !Z.ltb_lt. lia.
Qed.

(** X8.  With stride 1, n chained kernels of extents (KH, KW) shrink an
    (H, W, C) image to (H - n (KH - 1), W - n (KW - 1), C): [convolve]
    returns when that is positive on both axes, for kernels of 1 or C
    channels and a bias the samples' dtype holds. *)
Theorem chained_kernels_shrink (self : ConvFilter.t) (ks : list kernel)
  (KH KW C : nat) :
  ConvFilter.kernel_height self = Z.of_nat KH ->
  ConvFilter.kernel_width self = Z.of_nat KW ->
  ConvFilter.stride_y self = 1 -> ConvFilter.stride_x self = 1 ->
  (1 <= KH)%nat -> (1 <= KW)%nat ->
  (forall k, In k ks ->
     exists Ck, kshape k = [KH; KW; Ck] /\ (Ck = 1%nat \/ Ck = C)) ->
  bias_fits (ConvFilter.bias self) ->
  forall (image : ndarray) (H W : nat),
    shape image = [H; W; C] ->
    (length ks * (KH - 1) < H)%nat -> (length ks * (KW - 1) < W)%nat ->
    exists out,
      StaticFilter.convolve ks self image = Ok out
      /\ shape out
         = [H - length ks * (KH - 1); W - length ks * (KW - 1); C]%nat.
Proof.
  intros Hkh Hkw Hsy Hsx HKH HKW Hall Hb. unfold StaticFilter.convolve.
  induction ks as [|k rest IH]; intros image H W Hs HH HW.
  - exists image. cbn [StaticFilter.apply_kernels length Nat.mul].
    rewrite !Nat.sub_0_r. auto.
  - cbn [length] in HH, HW. cbn [StaticFilter.apply_kernels length].
    destruct (Hall k (or_introl eq_refl)) as (Ck & Hk & HCk).
    destruct (@single_filter_returns self image k H W C KH KW Ck)
      as (mid & -> & Hmid); try assumption; try lia.
    cbn [bind]. rewrite Hsy, Hsx in Hmid. change (Z.to_nat 1) with 1%nat in Hmid.
    rewrite !out_extent_stride1 in Hmid by lia.
    destruct (IH (fun k' Hin => Hall k' (or_intror Hin)) mid _ _ Hmid)
      as (out & -> & Hout); try lia.
    exists out. split; [reflexivity|]. rewrite Hout. f_equal; [lia|].
    f_equal. lia.
Qed.

Lemma chained_kernels_shrink_witness :
  exists out,
    StaticFilter.convolve [ones_kernel; ones_kernel]
      (ConvFilter.with_pad (geometry3 1 false) (Some 0) (Some 0))
      (flat_image Int32 5 6 3 7) = Ok out
    /\ shape out = [1; 2; 3]%nat.
Proof.
  assert (Hall : forall k, In k [ones_kernel; ones_kernel] ->
            exists Ck, kshape k = [3; 3; Ck]%nat /\ (Ck = 1 \/ Ck = 3)%nat)
    by (intros k [<-|[<-|[]]]; exists 1%nat; split; auto).
  exact (@chained_kernels_shrink
           (ConvFilter.with_pad (geometry3 1 false) (Some 0) (Some 0))
           [ones_kernel; ones_kernel] 3 3 3 eq_refl eq_refl eq_refl eq_refl
           ltac:(lia) ltac:(lia) Hall I (flat_image Int32 5 6 3 7)
           5%nat 6%nat eq_refl ltac:(simpl; lia) ltac:(simpl; lia)).
Defined.

(** X9.  With stride 1, a chain that would shrink an extent to nothing
    raises the [ValueError] of [sliding_window_view], at the first
    kernel that no longer fits the intermediate image. *)
Theorem chained_kernels_exhaust_image (self : ConvFilter.t)
  (ks : list kernel) (KH KW C : nat) :
  ConvFilter.kernel_height self = Z.of_nat KH ->
  ConvFilter.kernel_width self = Z.of_nat KW ->
  ConvFilter.stride_y self = 1 -> ConvFilter.stride_x self = 1 ->
  (1 <= KH)%nat -> (1 <= KW)%nat ->
  (forall k, In k ks ->
     exists Ck, kshape k = [KH; KW; Ck] /\ (Ck = 1%nat \/ Ck = C)) ->
  bias_fits (ConvFilter.bias self) ->
  forall (image : ndarray) (H W : nat),
    shape image = [H; W; C] -> ks <> [] ->
    (H <= length ks * (KH - 1) \/ W <= length ks * (KW - 1))%nat ->
    StaticFilter.convolve ks self image
    = Raise (ValueError
               "window shape cannot be larger than input array shape").
Proof.
  intros Hkh Hkw Hsy Hsx HKH HKW Hall Hb. unfold StaticFilter.convolve.
  induction ks as [|k rest IH]; intros image H W Hs Hne Hsmall;
    [congruence|].
  cbn [length] in Hsmall. cbn [StaticFilter.apply_kernels].
  destruct (Nat.lt_ge_cases H KH) as [HltH|HgeH].
  { erewrite single_filter_too_small by (eauto; lia). reflexivity. }
  destruct (Nat.lt_ge_cases W KW) as [HltW|HgeW].
  { erewrite single_filter_too_small by (eauto; lia). reflexivity. }
  destruct (Hall k (or_introl eq_refl)) as (Ck & Hk & HCk).
  destruct (@single_filter_returns self image k H W C KH KW Ck)
    as (mid & -> & Hmid); try assumption; try lia.
  cbn [bind]. rewrite Hsy, Hsx in Hmid. change (Z.to_nat 1) with 1%nat in Hmid.
  rewrite !out_extent_stride1 in Hmid by lia.
  apply (IH (fun k' Hin => Hall k' (or_intror Hin)) mid _ _ Hmid).
  - intros ->. cbn [length] in Hsmall. lia.
  - lia.
Qed.

Lemma chained_kernels_exhaust_image_witness :
  StaticFilter.convolve [ones_kernel; ones_kernel] unpadded3
    (flat_image Int32 4 6 3 7)
  = Raise (ValueError "window shape cannot be larger than input array shape").
Proof.
  assert (Hall : forall k, In k [ones_kernel; ones_kernel] ->
            exists Ck, kshape k = [3; 3; Ck]%nat /\ (Ck = 1 \/ Ck = 3)%nat)
    by (intros k [<-|[<-|[]]]; exists 1%nat; split; auto).
  exact (@chained_kernels_exhaust_image unpadded3
           [ones_kernel; ones_kernel] 3 3 3 eq_refl eq_refl eq_refl eq_refl
           ltac:(lia) ltac:(lia) Hall I (flat_image Int32 4 6 3 7)
           4%nat 6%nat eq_refl ltac:(discriminate)
           ltac:(left; simpl; lia)).
Defined.

Lemma apply_kernels_app (self : ConvFilter.t) (ks1 ks2 : list kernel) :
  forall image,
    StaticFilter.apply_kernels self image (ks1 ++ ks2)
    = (mid <- StaticFilter.apply_kernels self image ks1 ;;
       StaticFilter.apply_kernels self mid ks2).
Proof.
  induction ks1 as [|k rest IH]; intros image;
    cbn [app StaticFilter.apply_kernels bind]; [reflexivity|].
  destruct (StaticFilter._apply_single_filter self image k) as [mid|e];
    cbn [bind]; [apply IH|reflexivity].
Qed.

(** What a non-empty chain of kernels returns. *)
Lemma apply_kernels_output (self : ConvFilter.t) :
  forall (ks : list kernel) (image out : ndarray),
    ks <> [] ->
    StaticFilter.apply_kernels self image ks = Ok out ->
    (exists H W C, shape out = [H; W; C]
                   /\ length (data out) = (H * W * C)%nat)
    /\ Forall displayable (data out)
    /\ dtype out = match ConvFilter.bias self with
                   | PyInt _ => result_type (dtype image) Int64
                   | PyFloat _ => Float64
                   end.
Proof.
  induction ks as [|k rest IH]; intros image out Hne E; [congruence|].
  cbn [StaticFilter.apply_kernels] in E.
  apply bind_ok in E. destruct E as (mid & Hmid & E).
  destruct rest as [|k' rest'].
  - cbn [StaticFilter.apply_kernels] in E. injection E as <-.
    destruct (single_filter_output _ _ _ Hmid) as [Hshape Hdisp].
    split; [assumption|]. split; [assumption|].
    now apply single_filter_dtype with (k := k).
  - destruct (IH mid out ltac:(discriminate) E) as (Hshape & Hdisp & Hd).
    split; [assumption|]. split; [assumption|].
    rewrite Hd, (@single_filter_dtype _ _ _ _ Hmid).
    destruct (ConvFilter.bias self); [|reflexivity].
    apply result_type_int64_idem.
Qed.

(** X10.  What the fixed-kernel [convolve] returns, for at least one
    kernel, kernels of integers (int64 arrays) and an integer-valued
    bias (a Python int, or a float holding an integer, so not NaN): a
    well-formed 3-D array of samples in [0, 255], float64 for a float
    bias, and for a Python-int bias int64 (float64 on a float64
    input). *)
Theorem static_convolve_output (ks : list kernel) (self : ConvFilter.t)
  (image out : ndarray) :
  ks <> [] ->
  StaticFilter.convolve ks self image = Ok out ->
  (exists H W C, shape out = [H; W; C])
  /\ well_formed out
  /\ Forall displayable (data out)
  /\ dtype out = match ConvFilter.bias self with
                 | PyInt _ => result_type (dtype image) Int64
                 | PyFloat _ => Float64
                 end.
Proof.
  intros Hne E. unfold StaticFilter.convolve in E.
  destruct (@apply_kernels_output self ks image out Hne E)
    as ((H & W & C & Hs & Hl) & Hdisp & Hd).
  split; [eauto|]. split; [|split; assumption].
  unfold well_formed. rewrite Hs, Hl. simpl. lia.
Qed.

Lemma static_convolve_output_witness :
  (exists H W C, shape sum63 = [H; W; C])
  /\ well_formed sum63
  /\ Forall displayable (data sum63)
  /\ dtype sum63 = match ConvFilter.bias unpadded3 with
                   | PyInt _ => result_type Int32 Int64
                   | PyFloat _ => Float64
                   end.
Proof.
  exact (@static_convolve_output [ones_kernel] unpadded3
           (flat_image Int32 3 3 1 7) sum63 ltac:(discriminate) eq_refl).
Defined.

(** X11.  A kernel list can be split at any point after the first
    kernel: [convolve] on [ks1 ++ ks2] returns what [ks1] returns, handed
    to a second instance registered with [ks2], zero pad and the same
    stride and bias. *)
Theorem kernel_list_splits (self : ConvFilter.t) (ks1 ks2 : list kernel)
  (image : ndarray) :
  ks1 <> [] ->
  StaticFilter.convolve (ks1 ++ ks2) self image
  = (mid <- StaticFilter.convolve ks1 self image ;;
     snd (StaticFilter.apply
            {| StaticFilter.conv :=
                 ConvFilter.with_pad self (Some 0) (Some 0);
               StaticFilter.kernels := ks2 |}
            mid)).
Proof.
  intros Hne. unfold StaticFilter.convolve. rewrite apply_kernels_app.
  destruct (StaticFilter.apply_kernels self image ks1) as [mid|e] eqn:E1;
    cbn [bind]; [|reflexivity].
  destruct (@apply_kernels_output self ks1 image mid Hne E1)
    as ((H & W & C & Hs & Hl) & _).
  unfold StaticFilter.apply, ConvFilter.apply, ConvFilter.pad_image.
  cbn [ConvFilter.with_pad ConvFilter.pad_y ConvFilter.pad_x
       ConvFilter.pad_val StaticFilter.conv StaticFilter.kernels snd].
  rewrite (np_pad_zero _ _ Hs Hl). cbn [bind].
  unfold StaticFilter.convolve.
  clear. revert mid. induction ks2 as [|k rest IH]; intros mid;
    cbn [StaticFilter.apply_kernels]; [reflexivity|].
  change (StaticFilter._apply_single_filter
            (ConvFilter.with_pad self (Some 0) (Some 0)) mid k)
    with (StaticFilter._apply_single_filter self mid k).
  destruct (StaticFilter._apply_single_filter self mid k) as [mid'|e];
    cbn [bind]; [apply IH|reflexivity].
Qed.

Lemma kernel_list_splits_witness :
  StaticFilter.convolve ([ones_kernel] ++ [ones_kernel]) unpadded3
    (flat_image Int32 5 5 1 1)
  = (mid <- StaticFilter.convolve [ones_kernel] unpadded3
              (flat_image Int32 5 5 1 1) ;;
     snd (StaticFilter.apply
            {| StaticFilter.conv :=
                 ConvFilter.with_pad unpadded3 (Some 0) (Some 0);
               StaticFilter.kernels := [ones_kernel] |}
            mid)).
Proof.
  exact (@kernel_list_splits unpadded3 [ones_kernel] [ones_kernel]
           (flat_image Int32 5 5 1 1) ltac:(discriminate)).
Defined.

Lemma keep_dims_parity (s : Z) (H r : nat) :
  ((s - 1) * Z.of_nat H + Z.of_nat (2 * r + 1) - s) mod 2
  = if (s mod 2 =? 0) && (Z.of_nat H mod 2 =? 0) then 1 else 0.
Proof.
  pose proof (Z.div_mod s 2 ltac:(lia)) as Es.
  pose proof (Z.div_mod (Z.of_nat H) 2 ltac:(lia)) as EH.
  pose proof (Z.mod_pos_bound s 2 ltac:(lia)) as Bs.
  pose proof (Z.mod_pos_bound (Z.of_nat H) 2 ltac:(lia)) as BH.
  set (a := s / 2) in *. set (b := Z.of_nat H / 2) in *.
  destruct (s mod 2 =? 0) eqn:Ps; destruct (Z.of_nat H mod 2 =? 0) eqn:PH;
    cbn [andb];
    first [apply Z.eqb_eq in Ps | apply Z.eqb_neq in Ps];
    first [apply Z.eqb_eq in PH | apply Z.eqb_neq in PH];
    symmetry.
  - apply (Z.mod_unique _ 2 (2 * a * b - a - b + Z.of_nat r)); [lia|].
    rewrite Es, EH, Ps, PH. lia.
  - apply (Z.mod_unique _ 2 (2 * a * b + Z.of_nat r - b)); [lia|].
    assert (Z.of_nat H mod 2 = 1) as PH1 by lia.
    rewrite Es, EH, Ps, PH1. lia.
  - apply (Z.mod_unique _ 2 (2 * a * b - a + Z.of_nat r)); [lia|].
    assert (s mod 2 = 1) as Ps1 by lia.
    rewrite Es, EH, Ps1, PH. lia.
  - apply (Z.mod_unique _ 2 (2 * a * b + Z.of_nat r)); [lia|].
    assert (s mod 2 = 1) as Ps1 by lia.
    assert (Z.of_nat H mod 2 = 1) as PH1 by lia.
    rewrite Es, EH, Ps1, PH1. lia.
Qed.

(** The padded axis under "preserve extent": the kernel fits it, and it
    yields [kept_extent] positions. *)
Lemma keep_dims_axis (s : Z) (H r : nat) :
  0 < s -> (0 < H)%nat ->
  let p := Z.to_nat (keep_dims_pad s H (2 * r + 1)) in
  0 <= keep_dims_pad s H (2 * r + 1)
  /\ (2 * r + 1 <= p + H + p)%nat
  /\ out_extent (p + H + p) (2 * r + 1) (Z.to_nat s) = kept_extent s H.
Proof.
  intros Hs HH p.
  pose proof (@keep_dims_pad_nonneg s H (2 * r + 1) Hs HH ltac:(lia)) as Hp.
  pose proof (keep_dims_parity s H r) as Hpar.
  pose proof (Z.div_mod ((s - 1) * Z.of_nat H + Z.of_nat (2 * r + 1) - s) 2
                ltac:(lia)) as Ediv.
  fold (keep_dims_pad s H (2 * r + 1)) in Ediv.
  split; [assumption|]. unfold kept_extent.
  destruct ((s mod 2 =? 0) && (Z.of_nat H mod 2 =? 0)) eqn:Eboth.
  - apply andb_prop in Eboth. destruct Eboth as [Ps PH].
    apply Z.eqb_eq in Ps, PH.
    assert (1 < H)%nat.
    { destruct (Nat.eq_dec H 1) as [->|]; [discriminate PH|lia]. }
    assert (2 <= s).
    { destruct (Z.eq_dec s 1) as [->|]; [discriminate Ps|lia]. }
    split.
    + subst p. nia.
    + now apply keep_dims_extent_odd; try lia.
  - split.
    + subst p. nia.
    + now apply keep_dims_extent_even; try lia.
Qed.

(** X12.  What "preserve extent" achieves, for any stride: a
    fixed-kernel filter of one kernel, built with the flag and no
    explicit pad, sends an (H, W, C) image with C other than 1 through
    [apply_filter] to an image of its dtype with H rows, or H - 1 when
    stride_y and H are both even, and the same for the columns.  The
    extents are preserved for every odd stride, stride 1 among them. *)
Theorem keep_dims_output_shape (f : StaticFilter.t) (k : kernel)
  (image : ndarray) (H W C Ck : nat) :
  let self := StaticFilter.conv f in
  well_built self ->
  ConvFilter.pad_y self = None -> ConvFilter.pad_x self = None ->
  ConvFilter.keep_dims_with_pad self = true ->
  bias_fits (ConvFilter.bias self) ->
  StaticFilter.kernels f = [k] ->
  kshape k = [Z.to_nat (ConvFilter.kernel_height self);
              Z.to_nat (ConvFilter.kernel_width self); Ck] ->
  Ck = 1%nat \/ Ck = C ->
  shape image = [H; W; C] -> (0 < H)%nat -> (0 < W)%nat -> C <> 1%nat ->
  exists f' out,
    BaseFilter.apply_filter f image = (f', Ok out)
    /\ shape out = [kept_extent (ConvFilter.stride_y self) H;
                    kept_extent (ConvFilter.stride_x self) W; C]
    /\ dtype out = dtype image.
Proof.
  intros self (Hry & Hrx & Hkh & Hkw & Hsy & Hsx & _) Hpy Hpx Hkeep Hb Hks Hk
    HCk Hs HH HW HC.
  set (ry := Z.to_nat (ConvFilter.radius_y self)).
  set (rx := Z.to_nat (ConvFilter.radius_x self)).
  assert (HKH : ConvFilter.kernel_height self = Z.of_nat (2 * ry + 1))
    by (subst ry; lia).
  assert (HKW : ConvFilter.kernel_width self = Z.of_nat (2 * rx + 1))
    by (subst rx; lia).
  destruct (@keep_dims_axis (ConvFilter.stride_y self) H ry Hsy HH)
    as (Hpy0 & Hfity & Houty).
  destruct (@keep_dims_axis (ConvFilter.stride_x self) W rx Hsx HW)
    as (Hpx0 & Hfitx & Houtx).
  rewrite apply_filter_accepted by (unfold ndim; rewrite Hs; auto).
  replace (promoted image) with image
    by (unfold promoted, ndim; now rewrite Hs).
  cbn [BaseFilter.apply StaticFilter.filter]. unfold StaticFilter.apply.
  fold self. rewrite Hks.
  unfold ConvFilter.apply. rewrite Hpy, Hpx, Hkeep.
  cbn [astype shape]. rewrite Hs, HKH, HKW.
  fold (keep_dims_pad (ConvFilter.stride_y self) H (2 * ry + 1)).
  fold (keep_dims_pad (ConvFilter.stride_x self) W (2 * rx + 1)).
  set (py := keep_dims_pad (ConvFilter.stride_y self) H (2 * ry + 1)) in *.
  set (px := keep_dims_pad (ConvFilter.stride_x self) W (2 * rx + 1)) in *.
  set (self' := ConvFilter.with_pad self (Some py) (Some px)).
  cbn [fst snd].
  destruct (@np_pad_samples (astype Int32 image) H W C py px
              (pynum_val (ConvFilter.pad_val self)) Hs Hpy0 Hpx0)
    as (padded & Hpad & _ & Hps & _).
  unfold ConvFilter.pad_image.
  cbn [self' ConvFilter.with_pad ConvFilter.pad_y ConvFilter.pad_x
       ConvFilter.pad_val].
  rewrite Hpad. cbn [bind]. unfold StaticFilter.convolve.
  cbn [StaticFilter.apply_kernels].
  rewrite HKH, HKW, !Nat2Z.id in Hk.
  destruct (@single_filter_returns self' padded k _ _ C _ _ Ck Hps Hk)
    as (out & -> & Hout); try assumption.
  - cbn [bind]. cbn [self' ConvFilter.with_pad ConvFilter.stride_y
                     ConvFilter.stride_x] in Hout.
    rewrite Houty, Houtx in Hout.
    rewrite Hout. cbn [np_clip shape last_dim rev app].
    replace (C =? 1)%nat with false by (symmetry; now apply Nat.eqb_neq).
    eexists. eexists. split; [reflexivity|]. cbn [astype shape dtype].
    split; [assumption|reflexivity].
Qed.

Lemma keep_dims_output_shape_witness :
  exists f' out,
    BaseFilter.apply_filter
      {| StaticFilter.conv := geometry3 2 true;
         StaticFilter.kernels := [ones_kernel] |}
      rgb_4x5
    = (f', Ok out)
    /\ shape out = [3; 5; 3]%nat /\ dtype out = UInt8.
Proof.
  apply (@keep_dims_output_shape
           {| StaticFilter.conv := geometry3 2 true;
              StaticFilter.kernels := [ones_kernel] |}
           ones_kernel rgb_4x5 4 5 3 1);
    try reflexivity; try lia; try discriminate; try exact I;
    try (now left).
  unfold well_built. cbn. repeat split; lia.
Defined.

(** ** The programmable-region convolver *)

Lemma setitem_shape (out out' value : ndarray) (y x : nat) :
  setitem out y x value = Ok out' -> shape out' = shape out.
Proof.
  unfold setitem.
  destruct (shape out) as [|H [|W [|C [|? ?]]]] eqn:Hs; try discriminate.
  destruct (negb _); [discriminate|].
  intros E. apply bind_ok in E. destruct E as (values & _ & E).
  injection E as <-. reflexivity.
Qed.

(** X13.  For every region function that returns arrays of
    integer-valued samples (so no NaN, which the clip would leave), an
    array returned by the programmable-region [convolve] is float64, has
    the extents
    (H - kernel_height) // stride_y + 1 and
    (W - kernel_width) // stride_x + 1 with the image's channels, and
    holds samples in [0, 255] only. *)
Theorem dynamic_convolve_contract (apply_region : DynamicFilter.region_fn)
  (self : ConvFilter.t) (image out : ndarray) (H W C : nat) :
  shape image = [H; W; C] ->
  DynamicFilter.convolve apply_region self image = Ok out ->
  dtype out = Float64
  /\ shape out
     = [Z.to_nat ((Z.of_nat H - ConvFilter.kernel_height self)
                  / ConvFilter.stride_y self + 1);
        Z.to_nat ((Z.of_nat W - ConvFilter.kernel_width self)
                  / ConvFilter.stride_x self + 1); C]
  /\ Forall displayable (data out).
Proof.
  intros Hs. unfold DynamicFilter.convolve. rewrite Hs.
  destruct (_ || _)%bool; [discriminate|].
  intros E. apply bind_ok in E. destruct E as (out0 & H0 & E).
  set (S := [Z.to_nat ((Z.of_nat H - ConvFilter.kernel_height self)
                       / ConvFilter.stride_y self + 1);
             Z.to_nat ((Z.of_nat W - ConvFilter.kernel_width self)
                       / ConvFilter.stride_x self + 1); C]).
  set (P := fun o : ndarray =>
              dtype o = Float64 /\ shape o = S
              /\ Forall displayable (data o)).
  assert (Hzero : P out0).
  { unfold np_zeros in H0. destruct (existsb _ _); [discriminate|].
    injection H0 as <-. unfold P. cbn [dtype data shape map].
    split; [reflexivity|]. split; [now rewrite Nat2Z.id|].
    apply displayable_repeat. unfold displayable; lia. }
  unfold for_range in E.
  refine (@for_each_invariant _ P _ _ _ _ _ Hzero E).
  intros y o o' Ho Ey.
  refine (@for_each_invariant _ P _ _ _ _ _ Ho Ey).
  intros x s s' (Hd & Hsh & Hdisp) Ex.
  apply bind_ok in Ex. destruct Ex as (value & _ & Ex).
  destruct (@setitem_clipped _ _ _ _ _ Hdisp Ex) as [Hd' Hdisp'].
  unfold P. rewrite (setitem_shape _ _ _ _ Ex).
  split; [congruence|]. split; assumption.
Qed.

Lemma dynamic_convolve_contract_witness :
  dtype sum63 = Float64
  /\ shape sum63
     = [Z.to_nat ((Z.of_nat 3 - ConvFilter.kernel_height unpadded3)
                  / ConvFilter.stride_y unpadded3 + 1);
        Z.to_nat ((Z.of_nat 3 - ConvFilter.kernel_width unpadded3)
                  / ConvFilter.stride_x unpadded3 + 1); 1%nat]
  /\ Forall displayable (data sum63).
Proof.
  exact (@dynamic_convolve_contract
           (DynamicFilter.convolution_region ones_kernel) unpadded3
           (flat_image Int32 3 3 1 7) sum63 3 3 1 eq_refl eq_refl).
Defined.

Lemma for_each_skip (S : Type) (body : nat -> S -> result S) (l : list nat) :
  (forall i s, body i s = Ok s) -> forall s, for_each l body s = Ok s.
Proof.
  intros Hbody. induction l as [|i rest IH]; intros s; cbn [for_each];
    [reflexivity|].
  rewrite Hbody. cbn [bind]. apply IH.
Qed.

(** X14.  An image smaller than the kernel does not stop the
    programmable-region [convolve]: when a computed extent is 0 it
    returns an empty float64 array without calling the region function,
    and when one is negative [np.zeros] raises a [ValueError]. *)
Theorem dynamic_convolve_degenerate (self : ConvFilter.t) (image : ndarray)
  (H W C : nat) :
  shape image = [H; W; C] ->
  ConvFilter.stride_y self <> 0 -> ConvFilter.stride_x self <> 0 ->
  let oh := (Z.of_nat H - ConvFilter.kernel_height self)
            / ConvFilter.stride_y self + 1 in
  let ow := (Z.of_nat W - ConvFilter.kernel_width self)
            / ConvFilter.stride_x self + 1 in
  (0 <= oh -> 0 <= ow -> oh = 0 \/ ow = 0 ->
   forall apply_region,
     DynamicFilter.convolve apply_region self image
     = Ok {| dtype := Float64; shape := [Z.to_nat oh; Z.to_nat ow; C];
             data := [] |})
  /\ (oh < 0 \/ ow < 0 ->
      forall apply_region,
        DynamicFilter.convolve apply_region self image
        = Raise (ValueError "negative dimensions are not allowed")).
Proof.
  intros Hs Hsy Hsx oh ow. split.
  - intros Hoh How Hzero apply_region.
    unfold DynamicFilter.convolve. rewrite Hs.
    replace ((ConvFilter.stride_y self =? 0)
             || (ConvFilter.stride_x self =? 0)) with false
      by (symmetry; apply orb_false_intro; now apply Z.eqb_neq).
    fold oh ow. unfold np_zeros.
    replace (existsb (fun d => d <? 0) [oh; ow; Z.of_nat C]) with false
      by (symmetry; simpl; rewrite !orb_false_r, !orb_false_iff;
          repeat split; apply Z.ltb_ge; lia).
    cbn [bind map]. rewrite Nat2Z.id.
    replace (size_of [Z.to_nat oh; Z.to_nat ow; C]) with 0%nat
      by (simpl; destruct Hzero as [-> | ->]; simpl; lia).
    cbn [repeat]. unfold for_range.
    destruct Hzero as [E|E].
    + rewrite E. reflexivity.
    + rewrite E. cbn [Z.to_nat seq]. apply for_each_skip. reflexivity.
  - intros Hneg apply_region.
    unfold DynamicFilter.convolve. rewrite Hs.
    replace ((ConvFilter.stride_y self =? 0)
             || (ConvFilter.stride_x self =? 0)) with false
      by (symmetry; apply orb_false_intro; now apply Z.eqb_neq).
    fold oh ow. unfold np_zeros.
    replace (existsb (fun d => d <? 0) [oh; ow; Z.of_nat C]) with true;
      [reflexivity|].
    symmetry. simpl. rewrite !orb_true_iff, !Z.ltb_lt. tauto.
Qed.

Lemma dynamic_convolve_degenerate_witness :
  DynamicFilter.convolve (DynamicFilter.convolution_region ones_kernel)
    unpadded3 (flat_image Int32 2 2 3 7)
  = Ok {| dtype := Float64; shape := [0; 0; 3]%nat; data := [] |}.
Proof.
  exact (proj1 (@dynamic_convolve_degenerate unpadded3
                  (flat_image Int32 2 2 3 7) 2 2 3 eq_refl
                  ltac:(discriminate) ltac:(discriminate))
           ltac:(vm_compute; discriminate) ltac:(vm_compute; discriminate)
           (or_introl eq_refl)
           (DynamicFilter.convolution_region ones_kernel)).
Defined.

Lemma for_each_all_ok (S : Type) (body : nat -> S -> result S)
  (l : list nat) :
  forall s s', for_each l body s = Ok s' ->
  forall i, In i l -> exists s1 s2, body i s1 = Ok s2.
Proof.
  induction l as [|j rest IH]; intros s s' E i Hin; [contradiction|].
  cbn [for_each] in E. apply bind_ok in E. destruct E as (s1 & E1 & E2).
  destruct Hin as [<-|Hin]; [eauto|]. eapply IH; eassumption.
Qed.

(** X15.  No partial result: when the programmable-region [convolve]
    returns, the region function has returned a value at every output
    position; an exception at any position is the outcome of the whole
    call. *)
Theorem dynamic_convolve_all_regions (apply_region : DynamicFilter.region_fn)
  (self : ConvFilter.t) (image out : ndarray) (H W C KH KW : nat) :
  shape image = [H; W; C] ->
  ConvFilter.kernel_height self = 2 * ConvFilter.radius_y self + 1 ->
  ConvFilter.kernel_width self = 2 * ConvFilter.radius_x self + 1 ->
  ConvFilter.kernel_height self = Z.of_nat KH ->
  ConvFilter.kernel_width self = Z.of_nat KW ->
  0 < ConvFilter.stride_y self -> 0 < ConvFilter.stride_x self ->
  (KH <= H)%nat -> (KW <= W)%nat ->
  DynamicFilter.convolve apply_region self image = Ok out ->
  forall y x,
    (y < out_extent H KH (Z.to_nat (ConvFilter.stride_y self)))%nat ->
    (x < out_extent W KW (Z.to_nat (ConvFilter.stride_x self)))%nat ->
    exists value,
      apply_region self (window_at self image C KH KW y x)
        (Z.of_nat y) (Z.of_nat x) = Ok value.
Proof.
  intros Hs Hcy Hcx Hkh Hkw Hsy Hsx HH HW E y x Hy Hx.
  rewrite (@convolve_loops apply_region self image H W C KH KW) in E
    by assumption.
  unfold for_range in E.
  destruct (for_each_all_ok _ _ _ E y) as (o1 & o2 & Erow);
    [apply in_seq; lia|].
  destruct (for_each_all_ok _ _ _ Erow x) as (o3 & o4 & Epix);
    [apply in_seq; lia|].
  unfold store in Epix. apply bind_ok in Epix.
  destruct Epix as (value & Ev & _).
  rewrite (@region_call_window apply_region self image H W C KH KW)
    in Ev by assumption.
  eauto.
Qed.

Lemma dynamic_convolve_all_regions_witness :
  exists value,
    DynamicFilter.convolution_region ones_kernel unpadded3
      (window_at unpadded3 (flat_image Int32 3 3 1 7) 1 3 3 0 0) 0 0
    = Ok value.
Proof.
  exact (@dynamic_convolve_all_regions
           (DynamicFilter.convolution_region ones_kernel) unpadded3
           (flat_image Int32 3 3 1 7) sum63
           3 3 1 3 3 eq_refl eq_refl eq_refl eq_refl eq_refl
           ltac:(reflexivity) ltac:(reflexivity) ltac:(lia) ltac:(lia)
           eq_refl 0%nat 0%nat ltac:(vm_compute; lia) ltac:(vm_compute; lia)).
Defined.

Lemma nth_pixel_rows (pix : nat -> nat -> list Z) (oh ow C y x c : nat) :
  (forall y x, (y < oh)%nat -> (x < ow)%nat -> length (pix y x) = C) ->
  (y < oh)%nat -> (x < ow)%nat -> (c < C)%nat ->
  nth ((y * ow + x) * C + c)
    (flat_map (fun y => flat_map (pix y) (seq 0 ow)) (seq 0 oh)) 0
  = nth c (pix y x) 0.
Proof.
  intros Hlen Hy Hx Hc.
  replace ((y * ow + x) * C + c)%nat with (y * (ow * C) + (x * C + c))%nat
    by lia.
  rewrite nth_flat_map_seq with (m := (ow * C)%nat); try assumption.
  - rewrite nth_flat_map_seq with (m := C); auto.
  - intros k Hk. rewrite length_flat_map_uniform with (m := C).
    + now rewrite length_seq.
    + intros a Ha. apply in_seq in Ha. apply Hlen; lia.
  - nia.
Qed.

(** X16.  Each output pixel is its own region call, clipped: when the
    region function returns a vector of C channel values at every
    position, the programmable-region [convolve] returns the array whose
    sample (y, x, c) is channel c of the value returned at (y, x),
    clamped to [0, 255]; pixels written later leave it untouched. *)
Theorem dynamic_convolve_pixels (apply_region : DynamicFilter.region_fn)
  (self : ConvFilter.t) (image : ndarray) (H W C KH KW : nat)
  (value : nat -> nat -> ndarray) :
  shape image = [H; W; C] ->
  ConvFilter.kernel_height self = 2 * ConvFilter.radius_y self + 1 ->
  ConvFilter.kernel_width self = 2 * ConvFilter.radius_x self + 1 ->
  ConvFilter.kernel_height self = Z.of_nat KH ->
  ConvFilter.kernel_width self = Z.of_nat KW ->
  0 < ConvFilter.stride_y self -> 0 < ConvFilter.stride_x self ->
  (KH <= H)%nat -> (KW <= W)%nat ->
  let oh := out_extent H KH (Z.to_nat (ConvFilter.stride_y self)) in
  let ow := out_extent W KW (Z.to_nat (ConvFilter.stride_x self)) in
  (forall y x, (y < oh)%nat -> (x < ow)%nat ->
     apply_region self (window_at self image C KH KW y x)
       (Z.of_nat y) (Z.of_nat x) = Ok (value y x)
     /\ shape (value y x) = [C] /\ length (data (value y x)) = C) ->
  exists out,
    DynamicFilter.convolve apply_region self image = Ok out
    /\ dtype out = Float64 /\ shape out = [oh; ow; C]
    /\ forall y x c, (y < oh)%nat -> (x < ow)%nat -> (c < C)%nat ->
         get3 out y x c = clip_val 0 255 (nth c (data (value y x)) 0).
Proof.
  intros Hs Hcy Hcx Hkh Hkw Hsy Hsx HH HW oh ow Hvalue.
  set (pix := fun y x => map (clip_val 0 255) (data (value y x))).
  assert (Hlen : forall y x, (y < oh)%nat -> (x < ow)%nat ->
                   length (pix y x) = C).
  { intros y x Hy Hx. unfold pix. rewrite length_map.
    apply (Hvalue y x Hy Hx). }
  rewrite (@convolve_filled apply_region self image H W C KH KW Hs Hcy Hcx
             Hkh Hkw Hsy Hsx HH HW pix).
  - eexists. split; [reflexivity|]. split; [reflexivity|].
    split; [reflexivity|].
    intros y x c Hy Hx Hc. unfold get3, float_out. cbn [shape data].
    fold oh ow. rewrite nth_pixel_rows by assumption.
    unfold pix.
    rewrite nth_indep with (d' := clip_val 0 255 0)
      by (rewrite length_map; destruct (Hvalue y x Hy Hx) as (_ & _ & ->);
          assumption).
    apply map_nth.
  - intros y x Hy Hx. destruct (Hvalue y x Hy Hx) as (E & Hshape & Hl).
    exists (value y x). split; [exact E|].
    unfold pixel_values. cbn [np_clip shape data]. rewrite Hshape.
    cbn [rev app forallb]. now rewrite Nat.eqb_refl.
  - exact Hlen.
Qed.

Lemma dynamic_convolve_pixels_witness :
  exists out,
    DynamicFilter.convolve
      (constant_region
         {| dtype := Float64; shape := [3]%nat; data := [300; -5; 7] |})
      unpadded3 (flat_image Int32 4 4 3 0) = Ok out
    /\ dtype out = Float64 /\ shape out = [2; 2; 3]%nat
    /\ forall y x c, (y < 2)%nat -> (x < 2)%nat -> (c < 3)%nat ->
         get3 out y x c = clip_val 0 255 (nth c [300; -5; 7] 0).
Proof.
  apply (@dynamic_convolve_pixels
           (constant_region
              {| dtype := Float64; shape := [3]%nat; data := [300; -5; 7] |})
           unpadded3 (flat_image Int32 4 4 3 0) 4 4 3 3 3
           (fun _ _ =>
              {| dtype := Float64; shape := [3]%nat; data := [300; -5; 7] |}));
    try reflexivity; try lia.
  intros y x _ _. repeat split; reflexivity.
Defined.

(** ** Brightness *)

Lemma brightness_init_range (alpha : pynum) (self : Brightness.t) :
  Brightness.__init__ alpha = Ok self ->
  Brightness.alpha self = alpha /\ -100 <= pynum_val alpha <= 100.
Proof.
  unfold Brightness.__init__.
  destruct ((-100 <=? pynum_val alpha) && (pynum_val alpha <=? 100))
    eqn:Hrange; cbn [negb]; [|discriminate].
  intros E; injection E as <-. apply andb_prop in Hrange.
  destruct Hrange as [Hlo Hhi]. apply Z.leb_le in Hlo, Hhi. auto.
Qed.

(** [image + alpha] on the int32 copy of 8-bit samples: no wrap-around. *)
Lemma brightness_apply_bytes (alpha : pynum) (self : Brightness.t)
  (image : ndarray) :
  Brightness.__init__ alpha = Ok self ->
  Forall displayable (data image) ->
  Brightness.apply self (astype Int32 image)
  = (self,
     Ok {| dtype := match alpha with PyInt _ => Int32 | PyFloat _ => Float64 end;
           shape := shape image;
           data := map (fun v => v + pynum_val alpha) (data image) |}).
Proof.
  intros Hinit Hbytes.
  destruct (@brightness_init_range alpha self Hinit) as [Halpha Hrange].
  unfold Brightness.apply. rewrite Halpha. f_equal.
  unfold add_scalar, astype. cbn [dtype shape data].
  destruct alpha as [z|z]; cbn [pynum_val] in *.
  - replace (in_range Int32 z) with true
      by (symmetry; cbn [in_range]; apply andb_true_intro; split;
          [apply Z.leb_le|apply Z.ltb_lt]; lia).
    f_equal. f_equal. rewrite map_map. apply map_ext_in.
    intros v Hv. rewrite Forall_forall in Hbytes.
    specialize (Hbytes v Hv). unfold displayable in Hbytes.
    rewrite (cast_displayable Int32 (v := v)) by exact Hbytes.
    apply cast_in_range. cbn [in_range]. apply andb_true_intro.
    split; [apply Z.leb_le|apply Z.ltb_lt]; lia.
  - f_equal. f_equal. rewrite map_map. apply map_ext_in.
    intros v Hv. rewrite Forall_forall in Hbytes.
    now rewrite (cast_displayable Int32 (v := v)) by (apply Hbytes, Hv).
Qed.

(** [Brightness] through [apply_filter] on a colour image of 8-bit
    samples. *)
Lemma brightness_rgb (alpha : pynum) (self : Brightness.t) (image : ndarray)
  (H W C : nat) :
  Brightness.__init__ alpha = Ok self ->
  dtype image = UInt8 -> Forall displayable (data image) ->
  shape image = [H; W; C] -> C <> 1%nat ->
  BaseFilter.apply_filter self image
  = (self,
     Ok {| dtype := UInt8; shape := [H; W; C];
           data := map (fun v => clip_val 0 255 (v + pynum_val alpha))
                     (data image) |}).
Proof.
  intros Hinit Hd Hbytes Hs HC.
  rewrite apply_filter_accepted by (unfold ndim; rewrite Hs; auto).
  replace (promoted image) with image
    by (unfold promoted, ndim; now rewrite Hs).
  cbn [BaseFilter.apply Brightness.filter].
  rewrite (@brightness_apply_bytes alpha self image Hinit Hbytes). cbn [fst snd bind shape].
  rewrite Hs. cbn [last_dim rev app].
  replace (C =? 1)%nat with false by (symmetry; now apply Nat.eqb_neq).
  unfold astype, np_clip. cbn [dtype shape data]. rewrite Hd.
  f_equal. f_equal. f_equal. rewrite !map_map.
  apply map_ext. intros v. apply cast_displayable.
  apply clip_val_bounds. lia.
Qed.

(** X17.  [Brightness] with an integer-valued alpha (a Python int, or a
    float holding an integer) on 8-bit samples saturates and never
    wraps: every sample v of the result is v + alpha clamped to
    [0, 255].  A colour
    image comes back as 8-bit samples in its own shape; a 2-D image
    comes back in its own shape too, but in the dtype of the
    computation (int32 for an integer alpha, float64 for a float). *)
Theorem brightness_saturates (alpha : pynum) (self : Brightness.t)
  (image : ndarray) :
  Brightness.__init__ alpha = Ok self ->
  dtype image = UInt8 -> Forall displayable (data image) ->
  (ndim image = 2 \/ ndim image = 3)%nat ->
  exists out,
    BaseFilter.apply_filter self image = (self, Ok out)
    /\ data out
       = map (fun v => clip_val 0 255 (v + pynum_val alpha)) (data image)
    /\ (ndim image = 3%nat -> last_dim (shape image) <> Some 1%nat ->
        shape out = shape image /\ dtype out = UInt8)
    /\ (ndim image = 2%nat ->
        shape out = shape image
        /\ dtype out = match alpha with
                       | PyInt _ => Int32
                       | PyFloat _ => Float64
                       end).
Proof.
  intros Hinit Hd Hbytes Hrank.
  rewrite apply_filter_accepted by assumption.
  cbn [BaseFilter.apply Brightness.filter].
  assert (Hpd : data (promoted image) = data image)
    by (unfold promoted; now destruct (ndim image =? 2)%nat).
  rewrite (@brightness_apply_bytes alpha self (promoted image) Hinit)
    by now rewrite Hpd.
  cbn [fst snd bind shape]. rewrite Hpd.
  destruct Hrank as [E|E].
  - unfold promoted. rewrite E. cbn [Nat.eqb newaxis shape].
    rewrite last_dim_newaxis. cbn [Nat.eqb].
    eexists. split; [reflexivity|].
    cbn [squeeze_last np_clip data shape dtype]. rewrite map_map.
    split; [reflexivity|]. split; [intros E3; congruence|].
    intros _. split; [now rewrite removelast_last|reflexivity].
  - unfold promoted. rewrite E. cbn [Nat.eqb].
    unfold ndim in E.
    destruct (shape image) as [|H [|W [|C [|? ?]]]] eqn:Hs; try discriminate.
    cbn [last_dim rev app].
    destruct (C =? 1)%nat eqn:EC.
    + eexists. split; [reflexivity|].
      cbn [squeeze_last np_clip data shape dtype]. rewrite map_map.
      split; [reflexivity|]. split; [|discriminate].
      intros _ Hlast. apply Nat.eqb_eq in EC. subst C. now elim Hlast.
    + eexists. split; [reflexivity|].
      cbn [astype np_clip data shape dtype]. rewrite !map_map, Hd.
      split.
      * apply map_ext. intros v. apply cast_displayable.
        apply clip_val_bounds. lia.
      * split; [auto|discriminate].
Qed.

Lemma brightness_saturates_witness :
  exists out,
    BaseFilter.apply_filter {| Brightness.alpha := PyInt 100 |}
      {| dtype := UInt8; shape := [1; 1; 3]%nat; data := [10; 200; 255] |}
    = ({| Brightness.alpha := PyInt 100 |}, Ok out)
    /\ data out = [110; 255; 255].
Proof.
  destruct (@brightness_saturates (PyInt 100)
              {| Brightness.alpha := PyInt 100 |}
              {| dtype := UInt8; shape := [1; 1; 3]%nat;
                 data := [10; 200; 255] |}
              eq_refl eq_refl
              ltac:(repeat constructor; unfold displayable; lia)
              (or_intror eq_refl))
    as (out & E & Hdata & _).
  exists out. split; [exact E|exact Hdata].
Defined.

Lemma clip_twice_same_sign (v a b : Z) :
  0 <= v <= 255 -> (0 <= a /\ 0 <= b) \/ (a <= 0 /\ b <= 0) ->
  clip_val 0 255 (clip_val 0 255 (v + a) + b) = clip_val 0 255 (v + a + b).
Proof. unfold clip_val. lia. Qed.

(** X18.  Two [Brightness] stages in a row, as the pipeline runs them on
    a colour image of 8-bit samples, act as one offset a + b when a and
    b are integer-valued (Python ints, or floats holding integers) and
    have the same sign: each sample becomes v + a + b clamped to
    [0, 255]. *)
Theorem brightness_stages_add (a b : pynum) (first second : Brightness.t)
  (image : ndarray) (H W C : nat) :
  Brightness.__init__ a = Ok first -> Brightness.__init__ b = Ok second ->
  dtype image = UInt8 -> Forall displayable (data image) ->
  shape image = [H; W; C] -> C <> 1%nat ->
  (0 <= pynum_val a /\ 0 <= pynum_val b)
  \/ (pynum_val a <= 0 /\ pynum_val b <= 0) ->
  exists mid,
    BaseFilter.apply_filter first image = (first, Ok mid)
    /\ BaseFilter.apply_filter second mid
       = (second,
          Ok {| dtype := UInt8; shape := [H; W; C];
                data := map (fun v => clip_val 0 255
                                        (v + pynum_val a + pynum_val b))
                          (data image) |}).
Proof.
  intros Ha Hb Hd Hbytes Hs HC Hsign.
  eexists. split; [exact (@brightness_rgb a first image H W C Ha Hd Hbytes Hs HC)|].
  rewrite (@brightness_rgb b second _ H W C Hb); try reflexivity;
    try assumption.
  - cbn [data]. rewrite map_map.
    apply (f_equal (fun l => (second,
                              Ok {| dtype := UInt8; shape := [H; W; C];
                                    data := l |}))).
    apply map_ext_in. intros v Hv. rewrite Forall_forall in Hbytes.
    apply clip_twice_same_sign; [apply Hbytes, Hv|assumption].
  - cbn [data]. apply Forall_map, Forall_forall. intros v _.
    apply clip_val_bounds. lia.
Qed.

Lemma brightness_stages_add_witness :
  exists mid,
    BaseFilter.apply_filter {| Brightness.alpha := PyInt 100 |}
      {| dtype := UInt8; shape := [1; 1; 3]%nat; data := [10; 100; 255] |}
    = ({| Brightness.alpha := PyInt 100 |}, Ok mid)
    /\ BaseFilter.apply_filter {| Brightness.alpha := PyFloat 60 |} mid
       = ({| Brightness.alpha := PyFloat 60 |},
          Ok {| dtype := UInt8; shape := [1; 1; 3]%nat;
                data := map (fun v => clip_val 0 255 (v + 100 + 60))
                          [10; 100; 255] |}).
Proof.
  exact (@brightness_stages_add (PyInt 100) (PyFloat 60)
           {| Brightness.alpha := PyInt 100 |}
           {| Brightness.alpha := PyFloat 60 |}
           {| dtype := UInt8; shape := [1; 1; 3]%nat;
              data := [10; 100; 255] |}
           1 1 3 eq_refl eq_refl eq_refl
           ltac:(repeat constructor; unfold displayable; lia)
           eq_refl ltac:(discriminate)
           ltac:(left; simpl; lia)).
Defined.

(** ** The identity kernel *)

Lemma NoDup_list_prod (A B : Type) (l1 : list A) (l2 : list B) :
  NoDup l1 -> NoDup l2 -> NoDup (list_prod l1 l2).
Proof.
  intros H1 H2. induction H1 as [|a l1 Ha _ IH]; cbn [list_prod];
    [constructor|].
  apply NoDup_app.
  - clear - H2. induction H2 as [|b l2 Hb _ IH2]; cbn [map]; constructor;
      [|assumption].
    rewrite in_map_iff. intros (b' & E & Hin). injection E as ->.
    contradiction.
  - assumption.
  - intros [a' b'] Hin1 Hin2. apply in_map_iff in Hin1.
    destruct Hin1 as (b'' & E & _). injection E as <- _.
    apply in_prod_iff in Hin2. tauto.
Qed.

Lemma cast_zero (d : np_dtype) : cast d 0 = 0.
Proof. now destruct d. Qed.

Lemma fold_zero_terms (d : np_dtype) (A : Type) (g : A -> Z) (l : list A) :
  (forall k, In k l -> g k = 0) ->
  forall acc, cast d acc = acc ->
    fold_left (fun acc v => cast d (acc + v)) (map g l) acc = acc.
Proof.
  induction l as [|k rest IH]; intros Hzero acc Hacc; cbn [map fold_left];
    [reflexivity|].
  rewrite (Hzero k (or_introl eq_refl)), Z.add_0_r, Hacc.
  apply IH; [|assumption]. intros k' Hin. apply Hzero. now right.
Qed.

(** A sum with a single non-zero term. *)
Lemma sum_in_single (d : np_dtype) (A : Type) (g : A -> Z) (l : list A)
  (k0 : A) :
  NoDup l -> In k0 l ->
  (forall k, In k l -> k <> k0 -> g k = 0) ->
  cast d (g k0) = g k0 ->
  sum_in d (map g l) = g k0.
Proof.
  unfold sum_in. intros Hnd. induction Hnd as [|k rest Hk Hnd IH];
    intros Hin Hzero Hfit; [contradiction|].
  cbn [map fold_left]. rewrite Z.add_0_l.
  destruct Hin as [->|Hin].
  - rewrite Hfit. apply fold_zero_terms; [|assumption].
    intros k Hkin. apply Hzero; [now right|]. intros ->. contradiction.
  - assert (Hne : k <> k0) by (intros ->; contradiction).
    rewrite (Hzero k (or_introl eq_refl) Hne), cast_zero.
    apply IH; [assumption| |assumption].
    intros k' Hk' Hne'. apply Hzero; [now right|assumption].
Qed.

Lemma correlate_delta (d : np_dtype) (padded : ndarray) (ry rx y x c : nat) :
  cast d (get3 padded (y + ry) (x + rx) c) = get3 padded (y + ry) (x + rx) c ->
  correlate d padded (delta_kernel ry rx) (2 * ry + 1) (2 * rx + 1) 1 1 y x c
  = get3 padded (y + ry) (x + rx) c.
Proof.
  intros Hfit. unfold correlate.
  assert (Hk : forall k l, (k < 2 * ry + 1)%nat -> (l < 2 * rx + 1)%nat ->
            get3 (kernel_array (delta_kernel ry rx)) k l
              (bidx (kernel_chans (delta_kernel ry rx)) c)
            = if ((k =? ry) && (l =? rx))%nat then 1 else 0).
  { intros k l Hkr Hlr.
    change (kernel_array (delta_kernel ry rx))
      with (array3 Int64 (2 * ry + 1) (2 * rx + 1) 1
              (fun k l (_ : nat) =>
                 if ((k =? ry) && (l =? rx))%nat then 1 else 0)).
    change (bidx (kernel_chans (delta_kernel ry rx)) c) with 0%nat.
    now rewrite get3_array3 by lia. }
  rewrite (@sum_in_single d _ _ (window_positions (2 * ry + 1) (2 * rx + 1))
             (ry, rx)).
  - cbn [fst snd]. rewrite Hk by lia. rewrite !Nat.eqb_refl. cbn [andb].
    rewrite !Nat.mul_1_r, Z.mul_1_r. exact Hfit.
  - apply NoDup_list_prod; apply seq_NoDup.
  - unfold window_positions. apply in_prod_iff. rewrite !in_seq. lia.
  - intros [k l] Hin Hne. apply in_window_positions in Hin.
    cbn [fst snd] in *. rewrite Hk by lia.
    destruct ((k =? ry) && (l =? rx))%nat eqn:E.
    + apply andb_prop in E. destruct E as [E1 E2].
      apply Nat.eqb_eq in E1, E2. subst. congruence.
    + rewrite Z.mul_0_r. apply cast_zero.
  - cbn [fst snd]. rewrite Hk by lia. rewrite !Nat.eqb_refl. cbn [andb].
    rewrite !Nat.mul_1_r, Z.mul_1_r.
    rewrite Hfit. exact Hfit.
Qed.

(** X19.  The identity kernel is an identity: a fixed-kernel filter
    registered with the kernel that is 1 at its centre, built with
    "preserve extent", stride 1 and a zero bias, returns a colour image
    of 8-bit samples unchanged through [apply_filter], for every pad
    value that the int32 copy of the image holds. *)
Theorem delta_kernel_is_identity (f : StaticFilter.t) (image : ndarray)
  (H W C ry rx : nat) :
  let self := StaticFilter.conv f in
  ConvFilter.radius_y self = Z.of_nat ry ->
  ConvFilter.radius_x self = Z.of_nat rx ->
  ConvFilter.kernel_height self = 2 * ConvFilter.radius_y self + 1 ->
  ConvFilter.kernel_width self = 2 * ConvFilter.radius_x self + 1 ->
  ConvFilter.pad_y self = None -> ConvFilter.pad_x self = None ->
  ConvFilter.keep_dims_with_pad self = true ->
  ConvFilter.stride_y self = 1 -> ConvFilter.stride_x self = 1 ->
  pynum_val (ConvFilter.bias self) = 0 ->
  in_range Int32 (pynum_val (ConvFilter.pad_val self)) = true ->
  StaticFilter.kernels f = [delta_kernel ry rx] ->
  dtype image = UInt8 -> shape image = [H; W; C] -> well_formed image ->
  Forall displayable (data image) ->
  (0 < H)%nat -> (0 < W)%nat -> C <> 1%nat ->
  snd (BaseFilter.apply_filter f image) = Ok image.
Proof.
  intros self Hry Hrx Hkh Hkw Hpy Hpx Hkeep Hsy Hsx Hbias Hpv Hks Hd Hs Hwf
    Hbytes HH HW HC.
  rewrite apply_filter_accepted by (unfold ndim; rewrite Hs; auto).
  assert (Hprom : promoted image = image)
    by (unfold promoted, ndim; now rewrite Hs).
  rewrite Hprom.
  cbn [BaseFilter.apply StaticFilter.filter snd]. unfold StaticFilter.apply.
  fold self. rewrite Hks.
  unfold ConvFilter.apply. rewrite Hpy, Hpx, Hkeep.
  cbn [astype shape]. rewrite Hs, Hsy, Hsx.
  replace (((1 - 1) * Z.of_nat H + ConvFilter.kernel_height self - 1) / 2)
    with (ConvFilter.radius_y self)
    by (rewrite Hkh; apply Z.div_unique_exact; lia).
  replace (((1 - 1) * Z.of_nat W + ConvFilter.kernel_width self - 1) / 2)
    with (ConvFilter.radius_x self)
    by (rewrite Hkw; apply Z.div_unique_exact; lia).
  set (self' := ConvFilter.with_pad self (Some (ConvFilter.radius_y self))
                  (Some (ConvFilter.radius_x self))).
  cbn [fst snd].
  assert (H32 : astype Int32 image
                = {| dtype := Int32; shape := [H; W; C];
                     data := data image |}).
  { unfold astype. rewrite Hs. f_equal.
    apply map_displayable_id; [|assumption].
    intros v Hv. now apply cast_displayable. }
  rewrite H32.
  set (image32 := {| dtype := Int32; shape := [H; W; C];
                     data := data image |}).
  destruct (@np_pad_samples image32
              H W C (ConvFilter.radius_y self) (ConvFilter.radius_x self)
              (pynum_val (ConvFilter.pad_val self)) eq_refl
              ltac:(lia) ltac:(lia))
    as (padded & Hpad & Hpd & Hps & _ & Hin & _).
  rewrite Hry, Hrx, !Nat2Z.id in Hps, Hin.
  unfold ConvFilter.pad_image.
  cbn [self' ConvFilter.with_pad ConvFilter.pad_y ConvFilter.pad_x
       ConvFilter.pad_val].
  rewrite Hpad. cbn [bind]. unfold StaticFilter.convolve.
  cbn [StaticFilter.apply_kernels].
  rewrite (@single_filter_closed_form self' padded (delta_kernel ry rx)
             _ _ C (2 * ry + 1) (2 * rx + 1) 1 Hps eq_refl);
    [ | cbn [self' ConvFilter.with_pad ConvFilter.kernel_height]; lia
      | cbn [self' ConvFilter.with_pad ConvFilter.kernel_width]; lia
      | cbn [self' ConvFilter.with_pad ConvFilter.stride_y]; lia
      | cbn [self' ConvFilter.with_pad ConvFilter.stride_x]; lia
      | lia | lia | now left ].
  cbn [self' ConvFilter.with_pad ConvFilter.stride_y ConvFilter.stride_x
       ConvFilter.bias].
  rewrite Hsy, Hsx, Hpd. change (Z.to_nat 1) with 1%nat.
  rewrite !out_extent_stride1 by lia.
  replace (ry + H + ry - (2 * ry + 1) + 1)%nat with H by lia.
  replace (rx + W + rx - (2 * rx + 1) + 1)%nat with W by lia.
  cbn [image32 dtype result_type].
  assert (Hget : forall y x c, (y < H)%nat -> (x < W)%nat -> (c < C)%nat ->
            displayable (get3 image y x c)).
  { intros y x c Hy Hx Hc. apply (@get3_displayable image H W C); auto.
    unfold well_formed in Hwf. rewrite Hs in Hwf. simpl in Hwf. lia. }
  assert (Hcorr :
    array3 Int64 H W C
      (correlate Int64 padded (delta_kernel ry rx)
         (2 * ry + 1) (2 * rx + 1) 1 1)
    = {| dtype := Int64; shape := [H; W; C]; data := data image |}).
  { unfold array3. f_equal.
    rewrite <- (@array3_get3 image H W C Hs Hwf).
    apply tabulate3_ext. intros y x c Hy Hx Hc.
    assert (Hsample : get3 padded (y + ry) (x + rx) c = get3 image y x c).
    { replace (y + ry)%nat with (ry + y)%nat by lia.
      replace (x + rx)%nat with (rx + x)%nat by lia.
      rewrite Hin by assumption. unfold get3, image32. cbn [shape data].
      now rewrite Hs. }
    rewrite correlate_delta; [exact Hsample|].
    rewrite Hsample. apply cast_displayable. now apply Hget. }
  rewrite Hcorr.
  assert (Hadd :
    exists d',
      add_scalar {| dtype := Int64; shape := [H; W; C]; data := data image |}
        (ConvFilter.bias self)
      = Ok {| dtype := d'; shape := [H; W; C]; data := data image |}).
  { unfold add_scalar. destruct (ConvFilter.bias self) as [z|z];
      cbn [pynum_val] in Hbias; subst z; cbn [dtype shape data in_range].
    - exists Int64.
      replace ((- 2 ^ 63 <=? 0) && (0 <? 2 ^ 63)) with true by reflexivity.
      f_equal. f_equal.
      apply map_displayable_id; [|assumption].
      intros v Hv. rewrite Z.add_0_r. now apply cast_displayable.
    - exists Float64. f_equal. f_equal.
      apply map_displayable_id; [|assumption].
      intros v _. apply Z.add_0_r. }
  destruct Hadd as [d' ->]. cbn [bind np_clip shape dtype data last_dim rev app].
  replace (C =? 1)%nat with false by (symmetry; now apply Nat.eqb_neq).
  f_equal. unfold astype. cbn [dtype shape data].
  destruct image as [di si li]. cbn [dtype shape data] in *. subst di si.
  f_equal. cbn [np_clip data]. rewrite !map_map.
  apply map_displayable_id; [|assumption].
  intros v Hv. rewrite (clip_val_id (v := v)) by exact Hv.
  rewrite (clip_val_id (v := v)) by exact Hv. now apply cast_displayable.
Qed.

Lemma delta_kernel_is_identity_witness :
  snd (BaseFilter.apply_filter
         {| StaticFilter.conv := geometry3 1 true;
            StaticFilter.kernels := [delta_kernel 1 1] |}
         rgb_pixel)
  = Ok rgb_pixel.
Proof.
  apply (@delta_kernel_is_identity
           {| StaticFilter.conv := geometry3 1 true;
              StaticFilter.kernels := [delta_kernel 1 1] |}
           rgb_pixel 1 1 3 1 1);
    try reflexivity; try lia; try discriminate.
  repeat constructor; unfold displayable; lia.
Defined.

(** ** The loop of the pipeline *)

Lemma call_apply_filter_displayable (filt : filter_object)
  (image out : ndarray) :
  call_apply_filter filt image = Ok out -> Forall displayable (data out).
Proof.
  destruct filt as [F inst self]. cbn [call_apply_filter]. intros E.
  destruct (@BaseFilter.apply_filter F inst self image) as [self' r] eqn:Ef.
  cbn [snd] in E. subst r.
  pose proof (@apply_filter_returns F inst self self' image out Ef) as Hrank.
  rewrite (@apply_filter_accepted F inst self image Hrank) in Ef.
  injection Ef as _ Ef.
  destruct (snd (BaseFilter.apply self _)) as [r|e]; cbn [bind] in Ef;
    [|discriminate].
  destruct (last_dim (shape r)) as [n|]; [|discriminate].
  destruct (n =? 1)%nat; injection Ef as <-.
  - apply (displayable_clip r).
  - apply displayable_astype, displayable_clip.
Qed.

(** X20.  The image the pipeline hands to [Image.fromarray]: whatever
    the stages, when the loop of [run_from_config] ends on an image that
    started as 8-bit samples, its samples lie in [0, 255] and the final
    [astype(np.uint8)] changes none of them. *)
Theorem pipeline_final_cast_is_lossless
  (filters : list (unit -> result filter_object)) (image out : ndarray) :
  Forall displayable (data image) ->
  run_stages filters image = Ok out ->
  Forall displayable (data out)
  /\ astype UInt8 out
     = {| dtype := UInt8; shape := shape out; data := data out |}.
Proof.
  intros Hbytes E.
  assert (Hout : Forall displayable (data out)).
  { revert image Hbytes E.
    induction filters as [|construct rest IH]; intros image Hbytes E;
      cbn [run_stages] in E.
    - injection E as <-. assumption.
    - apply bind_ok in E. destruct E as (filt & _ & E).
      apply bind_ok in E. destruct E as (mid & Hmid & E).
      apply (IH mid); [|assumption].
      now apply call_apply_filter_displayable with (filt := filt)
                                                    (image := image). }
  split; [assumption|]. unfold astype. f_equal.
  apply map_displayable_id; [|assumption].
  intros v Hv. now apply cast_displayable.
Qed.

Lemma pipeline_final_cast_is_lossless_witness :
  Forall displayable
    (data {| dtype := UInt8; shape := [1; 1; 3]%nat;
             data := [110; 120; 130] |})
  /\ astype UInt8
       {| dtype := UInt8; shape := [1; 1; 3]%nat; data := [110; 120; 130] |}
     = {| dtype := UInt8; shape := [1; 1; 3]%nat; data := [110; 120; 130] |}.
Proof.
  apply (@pipeline_final_cast_is_lossless
           [fun _ => r <- Brightness.__init__ (PyInt 100) ;;
                     Ok (FilterObject Brightness.filter r)]
           rgb_pixel).
  - repeat constructor; unfold displayable; lia.
  - reflexivity.
Defined.

(** ** Clients of the catalog and the output path *)

Lemma odd_Z (n : Z) : 0 <= n -> n mod 2 = 1 -> 2 * (n / 2) + 1 = n.
Proof. intros Hn Hodd. pose proof (Z.div_mod n 2 ltac:(lia)). lia. Qed.

Lemma odd_to_nat (n : Z) : 0 <= n -> n mod 2 = 1 -> (Z.to_nat n mod 2 = 1)%nat.
Proof.
  intros Hn Hodd. apply Nat2Z.inj. rewrite Nat2Z.inj_mod, Z2Nat.id by lia.
  exact Hodd.
Qed.

(** Past its own two checks, [Box] is [StaticFilter] on its kernel. *)
Lemma box_init_checked (weights : list Z) (width height : Z)
  (keep_dims : bool) (kw : Box.kwargs) :
  1 <= width <= 21 -> 1 <= height <= 21 ->
  width mod 2 = 1 -> height mod 2 = 1 ->
  Box.__init__ weights width height keep_dims kw
  = StaticFilter.__init__ (StaticFilter.One (box_kernel weights width height))
      (Box.static_kwargs kw keep_dims).
Proof.
  intros Hw Hh Hwo Hho. unfold Box.__init__.
  replace ((1 <=? height) && (height <=? 2 * 10 + 1)
           && ((1 <=? width) && (width <=? 2 * 10 + 1))) with true
    by (symmetry; rewrite !andb_true_iff, !Z.leb_le; lia).
  cbn [negb]. rewrite Hwo, Hho. cbn [Z.eqb orb].
  unfold box_kernel. now rewrite !odd_Z by lia.
Qed.

Lemma box_init_ok (weights : list Z) (width height : Z)
  (keep_dims : bool) (kw : Box.kwargs) :
  is_ok (snd (Box.__init__ weights width height keep_dims kw)) = true ->
  1 <= width <= 21 /\ 1 <= height <= 21
  /\ width mod 2 = 1 /\ height mod 2 = 1.
Proof.
  unfold Box.__init__.
  destruct ((1 <=? height) && (height <=? 2 * 10 + 1)
            && ((1 <=? width) && (width <=? 2 * 10 + 1))) eqn:Erange;
    cbn [negb]; [|discriminate].
  rewrite !andb_true_iff, !Z.leb_le in Erange.
  destruct ((height mod 2 =? 0) || (width mod 2 =? 0)) eqn:Eodd;
    [discriminate|].
  apply orb_false_elim in Eodd. destruct Eodd as [Eh Ew].
  apply Z.eqb_neq in Eh, Ew. intros _.
  pose proof (Z.mod_pos_bound height 2 ltac:(lia)).
  pose proof (Z.mod_pos_bound width 2 ltac:(lia)). lia.
Qed.

Lemma box_ok_args (weights : list Z) (width height : Z)
  (keep_dims : bool) (kw : Box.kwargs) :
  is_ok (snd (Box.__init__ weights width height keep_dims kw)) = true ->
  box_extent width /\ box_extent height
  /\ (Box.kernel_radius kw = None
      \/ Box.kernel_radius kw = Some (width / 2, height / 2))
  /\ 0 < fst (Box.stride kw) /\ 0 < snd (Box.stride kw)
  /\ match Box.pad kw with
     | Some p => 0 <= fst p /\ 0 <= snd p
     | None => True
     end.
Proof.
  unfold box_extent. intros Hok.
  destruct (box_init_ok _ _ _ _ _ Hok) as (Hw & Hh & Hwo & Hho).
  rewrite box_init_checked in Hok by assumption.
  apply static_init_ok_acceptable in Hok.
  destruct Hok as (rows & cols & _ & _ & _ & Hr3 & Hc3 & Hall & Hrad
                   & Hs1 & Hs2 & Hp).
  destruct (Hall _ (or_introl eq_refl)) as (ch & Hk & _).
  cbn [box_kernel kshape] in Hk. injection Hk as Hrows Hcols _.
  subst rows cols. rewrite !Z2Nat.id in Hrad by lia.
  cbn [Box.static_kwargs StaticFilter.kernel_radius StaticFilter.stride
       StaticFilter.pad] in Hrad, Hs1, Hs2, Hp.
  repeat split; try assumption; lia.
Qed.

Lemma box_args_ok (weights : list Z) (width height : Z)
  (keep_dims : bool) (kw : Box.kwargs) :
  box_extent width -> box_extent height ->
  (Box.kernel_radius kw = None
   \/ Box.kernel_radius kw = Some (width / 2, height / 2)) ->
  0 < fst (Box.stride kw) -> 0 < snd (Box.stride kw) ->
  match Box.pad kw with
  | Some p => 0 <= fst p /\ 0 <= snd p
  | None => True
  end ->
  is_ok (snd (Box.__init__ weights width height keep_dims kw)) = true.
Proof.
  intros (Hw & Hwo) (Hh & Hho) Hrad Hs1 Hs2 Hp.
  rewrite box_init_checked by (assumption || lia).
  destruct (@static_init_accepts
              (StaticFilter.One (box_kernel weights width height))
              (Box.static_kwargs kw keep_dims)
              (Z.to_nat width) (Z.to_nat height)) as [-> Hok].
  - discriminate.
  - apply odd_to_nat; [lia|assumption].
  - apply odd_to_nat; [lia|assumption].
  - lia.
  - lia.
  - intros k [<-|[]]. exists 1%nat. split; [reflexivity|now left].
  - rewrite !Z2Nat.id by lia. exact Hrad.
  - exact Hs1.
  - exact Hs2.
  - exact Hp.
  - cbn [snd].
    destruct (snd (ConvFilter.__init__ _ _ _ _ _ _));
      [reflexivity|discriminate].
Qed.

(** X21.  [Box(width, height)] without [alpha] is built exactly for odd
    extents between 3 and 21, with the remaining arguments as
    [StaticFilter] wants them: an extent of 1 passes the range check of
    [Box] itself, which admits [1, 21], and is then refused for its
    radius 0. *)
Theorem box_accepts_iff (weights : list Z) (width height : Z)
  (keep_dims : bool) (kw : Box.kwargs) :
  is_ok (snd (Box.__init__ weights width height keep_dims kw)) = true
  <-> (box_extent width /\ box_extent height
       /\ (Box.kernel_radius kw = None
           \/ Box.kernel_radius kw = Some (width / 2, height / 2))
       /\ 0 < fst (Box.stride kw) /\ 0 < snd (Box.stride kw)
       /\ match Box.pad kw with
          | Some p => 0 <= fst p /\ 0 <= snd p
          | None => True
          end).
Proof.
  split; [apply box_ok_args|].
  intros (Hw & Hh & Hrad & Hs1 & Hs2 & Hp). now apply box_args_ok.
Qed.

Lemma conv_init_radius (kernel_radius stride : Z * Z)
  (pad : option (Z * Z)) (pad_val bias : pynum) (keep_dims : bool)
  (warnings : list string) (self : ConvFilter.t) :
  ConvFilter.__init__ kernel_radius stride pad pad_val bias keep_dims
    = (warnings, Ok self) ->
  ConvFilter.radius_y self = fst kernel_radius
  /\ ConvFilter.radius_x self = snd kernel_radius.
Proof.
  unfold ConvFilter.__init__.
  destruct (ConvFilter._validate_params kernel_radius stride pad pad_val bias)
    as [[]|e]; [|discriminate].
  destruct pad as [p|]; intros E; injection E as _ <-; split; reflexivity.
Qed.

(** A constructed [StaticFilter] holds its kernel list and the geometry
    [ConvFilter] builds for the radius of the first kernel. *)
Lemma static_init_conv (kernels : StaticFilter.kernels_arg)
  (kw : StaticFilter.kwargs) (warnings : list string) (f : StaticFilter.t) :
  StaticFilter.__init__ kernels kw = (warnings, Ok f) ->
  exists k0 rest,
    StaticFilter.kernel_list kernels = k0 :: rest
    /\ StaticFilter.kernels f = k0 :: rest
    /\ ConvFilter.__init__
         (Z.of_nat (kernel_rows k0) / 2, Z.of_nat (kernel_cols k0) / 2)
         (StaticFilter.stride kw) (StaticFilter.pad kw)
         (StaticFilter.pad_val kw) (StaticFilter.bias kw)
         (StaticFilter.keep_dims kw)
       = (warnings, Ok (StaticFilter.conv f)).
Proof.
  unfold StaticFilter.__init__.
  destruct (StaticFilter._validate_kernels (StaticFilter.kernel_list kernels))
    as [[]|e]; [|discriminate].
  destruct (StaticFilter.kernel_list kernels) as [|k0 rest]; [discriminate|].
  destruct (StaticFilter.radius_eqb _ _) eqn:Er; cbn [negb];
    [|discriminate].
  apply radius_eqb_eq in Er. rewrite Er.
  fold (kernel_rows k0) (kernel_cols k0).
  destruct (ConvFilter.__init__ _ _ _ _ _ _) as [w [conv|e]] eqn:Ec;
    cbn [bind]; [|discriminate].
  intros E. injection E as <- <-. exists k0, rest. auto.
Qed.

(** What a constructed [Box] holds. *)
Lemma box_init_fields (weights : list Z) (width height : Z)
  (keep_dims : bool) (kw : Box.kwargs) (warnings : list string)
  (f : StaticFilter.t) :
  Box.__init__ weights width height keep_dims kw = (warnings, Ok f) ->
  box_extent width /\ box_extent height
  /\ StaticFilter.kernels f = [box_kernel weights width height]
  /\ ConvFilter.__init__ (width / 2, height / 2) (Box.stride kw)
       (Box.pad kw) (Box.pad_val kw) (Box.bias kw) keep_dims
     = (warnings, Ok (StaticFilter.conv f)).
Proof.
  intros E.
  assert (Hok : is_ok (snd (Box.__init__ weights width height keep_dims kw))
                = true) by now rewrite E.
  destruct (box_ok_args _ _ _ _ _ Hok) as (Hw & Hh & _).
  split; [assumption|]. split; [assumption|].
  destruct Hw as [Hw Hwo], Hh as [Hh Hho].
  rewrite box_init_checked in E by (assumption || lia).
  destruct (static_init_conv _ _ E) as (k0 & rest & Hlist & Hks & Hconv).
  cbn [StaticFilter.kernel_list] in Hlist. injection Hlist as <- <-.
  split; [assumption|].
  unfold kernel_rows, kernel_cols in Hconv.
  cbn [box_kernel kshape nth Box.static_kwargs StaticFilter.stride
       StaticFilter.pad StaticFilter.pad_val StaticFilter.bias
       StaticFilter.keep_dims] in Hconv.
  rewrite !Z2Nat.id in Hconv by lia. exact Hconv.
Qed.

(** X22.  [Box] takes [width] for the number of rows: the kernel of a
    constructed [Box(width, height)] has [width] rows and [height]
    columns, and the geometry has kernel_height = width and
    kernel_width = height. *)
Theorem box_kernel_is_transposed (weights : list Z) (width height : Z)
  (keep_dims : bool) (kw : Box.kwargs) (warnings : list string)
  (f : StaticFilter.t) :
  Box.__init__ weights width height keep_dims kw = (warnings, Ok f) ->
  StaticFilter.kernels f = [box_kernel weights width height]
  /\ kernel_rows (box_kernel weights width height) = Z.to_nat width
  /\ kernel_cols (box_kernel weights width height) = Z.to_nat height
  /\ ConvFilter.kernel_height (StaticFilter.conv f) = width
  /\ ConvFilter.kernel_width (StaticFilter.conv f) = height
  /\ ConvFilter.radius_y (StaticFilter.conv f) = width / 2
  /\ ConvFilter.radius_x (StaticFilter.conv f) = height / 2.
Proof.
  intros E.
  destruct (box_init_fields _ _ _ _ _ E)
    as ((Hw & Hwo) & (Hh & Hho) & Hks & Hconv).
  destruct (conv_init_fields _ _ _ _ _ _ Hconv) as (Hkh & Hkw & _).
  destruct (conv_init_radius _ _ _ _ _ _ Hconv) as (Hry & Hrx).
  cbn [fst snd] in *. rewrite odd_Z in Hkh, Hkw by (assumption || lia).
  repeat split; assumption.
Qed.

Lemma box_kernel_is_transposed_witness :
  exists f,
    Box.__init__ (repeat 0 15) 3 5 true
      {| Box.kernel_radius := None; Box.stride := (1, 1);
         Box.pad := None; Box.pad_val := PyFloat 0; Box.bias := PyFloat 0 |}
    = ([], Ok f)
    /\ ConvFilter.kernel_height (StaticFilter.conv f) = 3
    /\ ConvFilter.kernel_width (StaticFilter.conv f) = 5.
Proof.
  eexists. split; [reflexivity|].
  destruct (@box_kernel_is_transposed (repeat 0 15) 3 5 true
              {| Box.kernel_radius := None; Box.stride := (1, 1);
                 Box.pad := None; Box.pad_val := PyFloat 0;
                 Box.bias := PyFloat 0 |} [] _ eq_refl)
    as (_ & _ & _ & Hkh & Hkw & _).
  split; assumption.
Defined.

Lemma retro_init_ok (weights : list Z) (block_size : Z)
  (kw : Retro.kwargs) :
  is_ok (snd (Retro.__init__ weights block_size kw)) = true
  <-> (Z.land block_size (block_size - 1) = 0 /\ 0 < block_size
       /\ is_ok (snd (Box.__init__ weights (block_size * 2 + 1)
                        (block_size * 2 + 1) false
                        {| Box.kernel_radius := Retro.kernel_radius kw;
                           Box.stride := (block_size, block_size);
                           Box.pad := Retro.pad kw;
                           Box.pad_val := Retro.pad_val kw;
                           Box.bias := Retro.bias kw |})) = true).
Proof.
  unfold Retro.__init__.
  destruct (Z.land block_size (block_size - 1) =? 0) eqn:Eland;
    cbn [negb orb].
  - apply Z.eqb_eq in Eland.
    destruct (block_size <=? 0) eqn:Epos.
    + apply Z.leb_le in Epos. cbn [snd is_ok].
      split; [discriminate|]. intros (_ & Hpos & _). lia.
    + apply Z.leb_gt in Epos.
      destruct (Box.__init__ _ _ _ _ _) as [w [f|e]]; cbn [snd bind is_ok];
        split; auto; try discriminate.
      intros (_ & _ & Hbad). discriminate.
  - apply Z.eqb_neq in Eland. cbn [snd is_ok].
    split; [discriminate|]. intros (Hz & _). contradiction.
Qed.

(** X23.  [Retro], called without [alpha], is built for the block sizes
    1, 2, 4 and 8 only: a larger power of two passes the check of
    [Retro] and is refused by [Box], whose extents stop at 21.  The
    remaining arguments must suit [StaticFilter]. *)
Theorem retro_accepts_iff (weights : list Z) (block_size : Z)
  (kw : Retro.kwargs) :
  is_ok (snd (Retro.__init__ weights block_size kw)) = true
  <-> (retro_block block_size
       /\ (Retro.kernel_radius kw = None
           \/ Retro.kernel_radius kw = Some (block_size, block_size))
       /\ match Retro.pad kw with
          | Some p => 0 <= fst p /\ 0 <= snd p
          | None => True
          end).
Proof.
  rewrite retro_init_ok. unfold retro_block.
  assert (Hhalf : forall b, (b * 2 + 1) / 2 = b).
  { intros b. symmetry. apply (Z.div_unique (b * 2 + 1) 2 b 1); lia. }
  split.
  - intros (Hland & Hpos & Hbox). apply box_ok_args in Hbox.
    destruct Hbox as ((Hrange & _) & _ & Hrad & _ & _ & Hp).
    cbn [Box.kernel_radius Box.pad] in Hrad, Hp. rewrite Hhalf in Hrad.
    split; [|split; assumption].
    assert (Hcases : block_size = 1 \/ block_size = 2 \/ block_size = 3
                     \/ block_size = 4 \/ block_size = 5 \/ block_size = 6
                     \/ block_size = 7 \/ block_size = 8 \/ block_size = 9
                     \/ block_size = 10) by lia.
    destruct Hcases as [->|[->|[->|[->|[->|[->|[->|[->|[->| ->]]]]]]]]];
      try discriminate Hland; auto.
  - intros (Hblock & Hrad & Hp).
    assert (Hbox : box_extent (block_size * 2 + 1)).
    { unfold box_extent. destruct Hblock as [->|[->|[->| ->]]];
        split; try lia; reflexivity. }
    split; [destruct Hblock as [->|[->|[->| ->]]]; reflexivity|].
    split; [lia|].
    apply box_args_ok; cbn [Box.kernel_radius Box.stride Box.pad fst snd];
      try assumption; try lia.
    now rewrite Hhalf.
Qed.

Lemma blocks_fall_short (n b : nat) :
  (0 < b)%nat -> (2 * b + 1 <= n)%nat ->
  (out_extent n (2 * b + 1) b * b < n)%nat.
Proof.
  intros Hb Hn. unfold out_extent.
  pose proof (Nat.Div0.mul_div_le (n - (2 * b + 1)) b). nia.
Qed.

(** X24.  [Retro], called without [alpha] and without [pad], does not
    give the image its size back: on an (H, W, C) image with
    H, W >= 2 * block_size + 1 and C other than 1, [apply_filter]
    returns block_size * ((H - (2 * block_size + 1)) //
    block_size + 1) rows, which is less than H, and as many columns for
    W, in the dtype of the image. *)
Theorem retro_output_is_smaller (weights : list Z) (block_size : Z)
  (kw : Retro.kwargs) (warnings : list string) (r : Retro.t)
  (image : ndarray) (H W C : nat) :
  Retro.__init__ weights block_size kw = (warnings, Ok r) ->
  Retro.pad kw = None -> bias_fits (Retro.bias kw) ->
  shape image = [H; W; C] -> C <> 1%nat ->
  let b := Z.to_nat block_size in
  (2 * b + 1 <= H)%nat -> (2 * b + 1 <= W)%nat ->
  exists r' out,
    BaseFilter.apply_filter r image = (r', Ok out)
    /\ shape out
       = [out_extent H (2 * b + 1) b * b; out_extent W (2 * b + 1) b * b; C]%nat
    /\ dtype out = dtype image
    /\ (out_extent H (2 * b + 1) b * b < H)%nat
    /\ (out_extent W (2 * b + 1) b * b < W)%nat.
Proof.
  intros Hinit Hpad Hbias Hs HC b HH HW.
  assert (Hok : is_ok (snd (Retro.__init__ weights block_size kw)) = true)
    by now rewrite Hinit.
  apply retro_init_ok in Hok. destruct Hok as (_ & Hpos & _).
  unfold Retro.__init__ in Hinit.
  destruct (negb (Z.land block_size (block_size - 1) =? 0)
            || (block_size <=? 0)); [discriminate|].
  destruct (Box.__init__ _ _ _ _ _) as [w [f|e]] eqn:Ebox;
    cbn [bind] in Hinit; [|discriminate].
  injection Hinit as _ <-.
  destruct (box_init_fields _ _ _ _ _ Ebox) as (_ & _ & Hks & Hconv).
  destruct (conv_init_fields _ _ _ _ _ _ Hconv)
    as (Hkh & Hkw & Hsy & Hsx & Hb & _ & Hkeep & Hpy & Hpx).
  cbn [fst snd Box.stride Box.pad Box.bias] in *.
  rewrite Hpad in Hpy, Hpx. cbn [option_map] in Hpy, Hpx.
  assert (Hhalf : (block_size * 2 + 1) / 2 = block_size)
    by (symmetry; apply (Z.div_unique (block_size * 2 + 1) 2 block_size 1);
        lia).
  rewrite Hhalf in Hkh, Hkw.
  assert (HKH : Z.to_nat (block_size * 2 + 1) = (2 * b + 1)%nat)
    by (subst b; lia).
  assert (Hbpos : (0 < b)%nat) by (subst b; lia).
  rewrite apply_filter_accepted by (unfold ndim; rewrite Hs; auto).
  replace (promoted image) with image
    by (unfold promoted, ndim; now rewrite Hs).
  cbn [BaseFilter.apply Retro.filter]. unfold Retro.apply.
  cbn [Retro.blur Retro.block_size]. unfold StaticFilter.apply.
  rewrite Hks. unfold ConvFilter.apply. rewrite Hpy, Hpx, Hkeep.
  set (self' := ConvFilter.with_pad (StaticFilter.conv f) (Some 0) (Some 0)).
  cbn [fst snd].
  destruct (@np_pad_samples (astype Int32 image) H W C 0 0
              (pynum_val (ConvFilter.pad_val (StaticFilter.conv f))) Hs
              ltac:(lia) ltac:(lia))
    as (padded & Epad & _ & Hps & _).
  cbn [Z.to_nat Nat.add] in Hps. rewrite !Nat.add_0_r in Hps.
  unfold ConvFilter.pad_image.
  cbn [self' ConvFilter.with_pad ConvFilter.pad_y ConvFilter.pad_x
       ConvFilter.pad_val].
  rewrite Epad. cbn [bind]. unfold StaticFilter.convolve.
  cbn [StaticFilter.apply_kernels].
  destruct (@single_filter_returns self' padded
              (box_kernel weights (block_size * 2 + 1) (block_size * 2 + 1))
              H W C (2 * b + 1) (2 * b + 1) 1 Hps)
    as (out1 & -> & Hout1).
  - unfold box_kernel. now rewrite HKH.
  - cbn [self' ConvFilter.with_pad ConvFilter.kernel_height]. lia.
  - cbn [self' ConvFilter.with_pad ConvFilter.kernel_width]. lia.
  - cbn [self' ConvFilter.with_pad ConvFilter.stride_y]. lia.
  - cbn [self' ConvFilter.with_pad ConvFilter.stride_x]. lia.
  - exact HH.
  - exact HW.
  - now left.
  - cbn [self' ConvFilter.with_pad ConvFilter.bias]. now rewrite Hb.
  - cbn [self' ConvFilter.with_pad ConvFilter.stride_y ConvFilter.stride_x]
      in Hout1.
    rewrite Hsy, Hsx in Hout1. fold b in Hout1.
    cbn [bind]. unfold np_kron_ones. rewrite Hout1. fold b.
    cbn [np_clip array3 shape last_dim rev app].
    replace (C =? 1)%nat with false by (symmetry; now apply Nat.eqb_neq).
    eexists. eexists. split; [reflexivity|].
    cbn [astype shape dtype].
    split; [reflexivity|]. split; [reflexivity|].
    split; now apply blocks_fall_short.
Qed.

Lemma retro_output_is_smaller_witness :
  exists r' out,
    BaseFilter.apply_filter
      {| Retro.block_size := 2;
         Retro.blur :=
           {| StaticFilter.conv :=
                {| ConvFilter.radius_y := 2; ConvFilter.radius_x := 2;
                   ConvFilter.kernel_height := 5;
                   ConvFilter.kernel_width := 5;
                   ConvFilter.stride_y := 2; ConvFilter.stride_x := 2;
                   ConvFilter.pad_val := PyFloat 0;
                   ConvFilter.bias := PyFloat 0;
                   ConvFilter.keep_dims_with_pad := false;
                   ConvFilter.pad_y := None; ConvFilter.pad_x := None |};
              StaticFilter.kernels := [box_kernel (repeat 0 25) 5 5] |} |}
      (flat_image UInt8 8 8 3 7)
    = (r', Ok out)
    /\ shape out = [4; 4; 3]%nat.
Proof.
  destruct (@retro_output_is_smaller (repeat 0 25) 2
              {| Retro.kernel_radius := None; Retro.pad := None;
                 Retro.pad_val := PyFloat 0; Retro.bias := PyFloat 0 |}
              [] _ (flat_image UInt8 8 8 3 7) 8 8 3 eq_refl eq_refl I
              eq_refl ltac:(discriminate) ltac:(simpl; lia)
              ltac:(simpl; lia))
    as (r' & out & E & Hshape & _).
  exists r', out. split; [exact E|exact Hshape].
Defined.

Lemma first_free_found (path_exists : string -> bool)
  (splitext : string -> string * string) (path : string) :
  forall (n i fuel : nat),
    path_exists (candidate splitext path (i + n)) = false ->
    (n < fuel)%nat ->
    exists m,
      (m <= n)%nat
      /\ first_free path_exists splitext fuel path i
         = Some (candidate splitext path (i + m))
      /\ path_exists (candidate splitext path (i + m)) = false
      /\ forall j, (j < m)%nat ->
           path_exists (candidate splitext path (i + j)) = true.
Proof.
  induction n as [|n IH]; intros i fuel Hfree Hfuel.
  - destruct fuel as [|fuel]; [lia|]. exists 0%nat. cbn [first_free].
    rewrite Nat.add_0_r in *. rewrite Hfree. cbn [negb].
    split; [lia|]. split; [reflexivity|]. split; [reflexivity|].
    intros j Hj. lia.
  - destruct fuel as [|fuel]; [lia|]. cbn [first_free].
    destruct (path_exists (candidate splitext path i)) eqn:Ei; cbn [negb].
    + destruct (IH (S i) fuel) as (m & Hm & Efirst & Hfreem & Hbusy).
      * now replace (S i + n)%nat with (i + S n)%nat by lia.
      * lia.
      * exists (S m). replace (i + S m)%nat with (S i + m)%nat by lia.
        split; [lia|]. split; [assumption|]. split; [assumption|].
        intros [|j] Hj; [now rewrite Nat.add_0_r|].
        replace (i + S j)%nat with (S i + j)%nat by lia. apply Hbusy. lia.
    + exists 0%nat. rewrite Nat.add_0_r.
      split; [lia|]. split; [reflexivity|]. split; [assumption|].
      intros j Hj. lia.
Qed.

(** X25.  [resolve_output_path] never names an existing file: a path
    that does not exist is returned as it is, and otherwise, when some
    candidate base_i.ext is free, the loop ends on the first free one,
    every candidate before it being taken. *)
Theorem resolve_output_path_is_free (path_exists : string -> bool)
  (splitext : string -> string * string) (path : string) (n fuel : nat) :
  path_exists (candidate splitext path (S n)) = false ->
  (n < fuel)%nat ->
  exists log p,
    resolve_output_path path_exists splitext fuel path = (log, Some p)
    /\ path_exists p = false
    /\ (path_exists path = false -> p = path /\ log = [])
    /\ (path_exists path = true ->
        exists m,
          (m <= n)%nat /\ p = candidate splitext path (S m)
          /\ forall j, (j < m)%nat ->
               path_exists (candidate splitext path (S j)) = true).
Proof.
  intros Hfree Hfuel. unfold resolve_output_path.
  destruct (path_exists path) eqn:Epath; cbn [negb].
  - destruct (@first_free_found path_exists splitext path n 1 fuel Hfree Hfuel)
      as (m & Hm & Efirst & Hfreem & Hbusy).
    exists ["File already exists! " ++ path]%string,
           (candidate splitext path (S m)).
    split; [now rewrite Efirst|]. split; [assumption|].
    split; [discriminate|]. intros _. exists m. auto.
  - exists [], path. split; [reflexivity|]. split; [assumption|].
    split; [auto|discriminate].
Qed.

Lemma resolve_output_path_is_free_witness :
  exists log p,
    resolve_output_path two_files split_last4 2 "out.png" = (log, Some p)
    /\ two_files p = false.
Proof.
  destruct (@resolve_output_path_is_free two_files split_last4 "out.png"
              1 2 eq_refl ltac:(lia))
    as (log & p & E & Hfree & _).
  exists log, p. split; [exact E|exact Hfree].
Defined.

(** ** The channels of a kernel and of an image *)

(** One fixed-kernel step for a kernel of more than one channel, on an
    image it fits: the outcome of the einsum decides. *)
Lemma single_filter_many_channels (self : ConvFilter.t) (image : ndarray)
  (k : kernel) (H W C KH KW Ck : nat) :
  shape image = [H; W; C] -> kshape k = [KH; KW; Ck] ->
  ConvFilter.kernel_height self = Z.of_nat KH ->
  ConvFilter.kernel_width self = Z.of_nat KW ->
  0 < ConvFilter.stride_y self -> 0 < ConvFilter.stride_x self ->
  (KH <= H)%nat -> (KW <= W)%nat -> Ck <> 1%nat ->
  bias_fits (ConvFilter.bias self) ->
  match bdim C Ck with
  | Some C' =>
      exists out,
        StaticFilter._apply_single_filter self image k = Ok out
        /\ shape out
           = [out_extent H KH (Z.to_nat (ConvFilter.stride_y self));
              out_extent W KW (Z.to_nat (ConvFilter.stride_x self)); C']
  | None =>
      StaticFilter._apply_single_filter self image k
      = Raise (ValueError "operands could not be broadcast together")
  end.
Proof.
  intros Hs Hk Hkh Hkw Hsy Hsx HH HW HCk Hb.
  unfold StaticFilter._apply_single_filter, sliding_window_view.
  rewrite Hs, Hkh, Hkw.
  replace ((Z.of_nat KH <? 0) || (Z.of_nat KW <? 0)) with false
    by (symmetry; apply orb_false_intro; apply Z.ltb_ge; lia).
  replace ((Z.of_nat H <? Z.of_nat KH) || (Z.of_nat W <? Z.of_nat KW))
    with false
    by (symmetry; apply orb_false_intro; apply Z.ltb_ge; lia).
  rewrite !Nat2Z.id. cbn [bind]. unfold strided.
  replace ((ConvFilter.stride_y self =? 0) || (ConvFilter.stride_x self =? 0))
    with false
    by (symmetry; apply orb_false_intro; apply Z.eqb_neq; lia).
  cbn [bind w_dtype w_rows w_cols w_chans w_kh w_kw w_at].
  unfold kernel_view. rewrite Hk.
  cbn [bind v_rows v_cols v_chans v_at].
  replace (Ck =? 1)%nat with false by (symmetry; now apply Nat.eqb_neq).
  cbn [bind]. rewrite !slice_len_windows by assumption.
  unfold einsum. cbn [w_dtype w_rows w_cols w_chans w_kh w_kw v_rows v_cols
                      v_chans].
  rewrite !bdim_same.
  destruct (bdim C Ck) as [C'|]; [|reflexivity].
  cbn [bind]. unfold add_scalar, bias_fits in *.
  destruct (ConvFilter.bias self) as [z|z].
  - cbn [array3 dtype]. rewrite in_range_result_type by assumption.
    cbn [bind]. eexists. split; reflexivity.
  - cbn [bind]. eexists. split; reflexivity.
Qed.

(** X26.  The channels of one fixed-kernel step.  A kernel of 1 channel,
    or of the image's channel count, gives the image's channels.  On a
    single-channel image a kernel of Ck channels gives Ck channels: a
    grayscale image comes out with three under a 3-channel kernel.  Every
    other pairing raises a [ValueError] in the einsum. *)
Theorem kernel_channels_decide (self : ConvFilter.t) (image : ndarray)
  (k : kernel) (H W C KH KW Ck : nat) :
  shape image = [H; W; C] -> kshape k = [KH; KW; Ck] ->
  ConvFilter.kernel_height self = Z.of_nat KH ->
  ConvFilter.kernel_width self = Z.of_nat KW ->
  0 < ConvFilter.stride_y self -> 0 < ConvFilter.stride_x self ->
  (KH <= H)%nat -> (KW <= W)%nat ->
  bias_fits (ConvFilter.bias self) ->
  let oh := out_extent H KH (Z.to_nat (ConvFilter.stride_y self)) in
  let ow := out_extent W KW (Z.to_nat (ConvFilter.stride_x self)) in
  (Ck = 1%nat \/ Ck = C ->
   exists out,
     StaticFilter._apply_single_filter self image k = Ok out
     /\ shape out = [oh; ow; C])
  /\ (C = 1%nat ->
      exists out,
        StaticFilter._apply_single_filter self image k = Ok out
        /\ shape out = [oh; ow; Ck])
  /\ (Ck <> 1%nat -> Ck <> C -> C <> 1%nat ->
      StaticFilter._apply_single_filter self image k
      = Raise (ValueError "operands could not be broadcast together")).
Proof.
  intros Hs Hk Hkh Hkw Hsy Hsx HH HW Hb oh ow.
  split; [|split].
  - intros HCk.
    now apply (@single_filter_returns self image k H W C KH KW Ck).
  - intros ->. destruct (Nat.eq_dec Ck 1) as [->|Hne].
    + apply (@single_filter_returns self image k H W 1 KH KW 1);
        auto.
    + pose proof (@single_filter_many_channels self image k H W 1 KH KW Ck
                    Hs Hk Hkh Hkw Hsy Hsx HH HW Hne Hb) as Hstep.
      unfold bdim in Hstep.
      replace (1 =? Ck)%nat with false in Hstep
        by (symmetry; apply Nat.eqb_neq; congruence).
      exact Hstep.
  - intros H1 HC HC1.
    pose proof (@single_filter_many_channels self image k H W C KH KW Ck
                  Hs Hk Hkh Hkw Hsy Hsx HH HW H1 Hb) as Hstep.
    unfold bdim in Hstep.
    replace (C =? Ck)%nat with false in Hstep
      by (symmetry; apply Nat.eqb_neq; congruence).
    replace (C =? 1)%nat with false in Hstep
      by (symmetry; now apply Nat.eqb_neq).
    replace (Ck =? 1)%nat with false in Hstep
      by (symmetry; now apply Nat.eqb_neq).
    exact Hstep.
Qed.

Lemma kernel_channels_decide_witness :
  exists out,
    StaticFilter._apply_single_filter unpadded3 (flat_image Int32 3 3 1 7)
      ones_kernel3 = Ok out
    /\ shape out = [1; 1; 3]%nat.
Proof.
  exact (proj1 (proj2 (@kernel_channels_decide unpadded3
                         (flat_image Int32 3 3 1 7) ones_kernel3
                         3 3 1 3 3 3 eq_refl eq_refl eq_refl eq_refl
                         ltac:(reflexivity) ltac:(reflexivity)
                         ltac:(lia) ltac:(lia) I))
           eq_refl).
Defined.
